(** * VoiceROI circuit-breaker fix script: a shallow embedding

    The development follows [CLAUDE_EXECUTE_NOW.py]:
    - [Py]       Python values the script manipulates (text, exceptions);
    - [Re]       the fragment of Python's [re] module used by the script
                 (backtracking matcher, [search], [sub]);
    - [Script]   the patch script itself: file store, the six steps, [main];
    - [Infra]    the module text the script installs as [app/services/infra.py]
                 ([get_redis_client], [embed_text], [health_check]);
    - [Metrics]  the module text the script installs as [app/metrics.py];
    - [Breaker]  the circuit breaker the installed code imports. *)

From Stdlib Require Import NArith ZArith Ascii String DecimalString.
From stdpp Require Import gmap strings list.

Open Scope N_scope.

(* ===================================================================== *)
(** ** Python text and exceptions *)
(* ===================================================================== *)

Module Py.

(** A Python [str] is a sequence of Unicode code points.  [py] reads a
    literal of the script; the tilde, which the script never uses, is
    written where the literal has a double quote. *)
Definition py (s : string) : list N :=
  (fun a => let c := N_of_ascii a in if c =? 126 then 34 else c)
    <$> list_ascii_of_string s.

(** The line feed. *)
Definition nl : list N := [10].

(** [s * n] for a one-character string. *)
Definition times (s : list N) (n : nat) : list N := List.concat (replicate n s).

(** [Py_UNICODE_ISSPACE]: what [str.isspace], [str.strip] and the regular
    expression class [\s] (on [str] patterns) accept. *)
Definition is_space (c : N) : bool :=
  ((9 <=? c) && (c <=? 13)) || ((28 <=? c) && (c <=? 32))
  || (c =? 133) || (c =? 160) || (c =? 5760)
  || ((8192 <=? c) && (c <=? 8202))
  || (c =? 8232) || (c =? 8233) || (c =? 8239) || (c =? 8287) || (c =? 12288).

(** [Py_UNICODE_ISDECIMAL], the table behind [\d] and [int]: the decimal
    digits of Unicode (category Nd, Unicode 14) come in blocks of ten, each
    starting at its digit zero. *)
Definition decimal_zeros : list N :=
  [48; 1632; 1776; 1984; 2406; 2534; 2662; 2790; 2918; 3046; 3174; 3302;
   3430; 3558; 3664; 3792; 3872; 4160; 4240; 6112; 6160; 6470; 6608; 6784;
   6800; 6992; 7088; 7232; 7248; 42528; 43216; 43264; 43472; 43504; 43600;
   44016; 65296; 66720; 68912; 69734; 69872; 69942; 70096; 70384; 70736;
   70864; 71248; 71360; 71472; 71904; 72016; 72784; 73040; 73120; 92768;
   92864; 93008; 120782; 120792; 120802; 120812; 120822; 123200; 123632;
   125264; 130032].

(** The value of a decimal digit, when [c] is one. *)
Definition decimal_value (c : N) : option N :=
  (fun z => c - z) <$> head (filter (fun z => z <= c < z + 10) decimal_zeros).

Definition is_decimal (c : N) : bool := bool_decide (is_Some (decimal_value c)).

(** [int(s)] for a string of decimal digits. *)
Definition int_of_digits (s : list N) : option N :=
  foldl (fun acc c =>
           match acc, decimal_value c with
           | Some n, Some d => Some (10 * n + d)
           | _, _ => None
           end)
        (match s with [] => None | _ => Some 0 end) s.

(** [str(n)] for a natural number. *)
Definition str_of_N (n : N) : list N :=
  N_of_ascii <$> list_ascii_of_string (NilZero.string_of_uint (N.to_uint n)).

Fixpoint lstrip (s : list N) : list N :=
  match s with
  | c :: s' => if is_space c then lstrip s' else s
  | [] => []
  end.

(** [s.strip()] *)
Definition strip (s : list N) : list N := rev (lstrip (rev (lstrip s))).

(** What reading a file in text mode does to the line endings
    ([newline=None], universal newlines): [CR LF] and a [CR] on its own
    both become [LF]. *)
Fixpoint universal_newlines (s : list N) : list N :=
  match s with
  | [] => []
  | c :: s' =>
      if c =? 13 then
        10 :: match s' with
              | d :: s'' =>
                  if d =? 10 then universal_newlines s''
                  else universal_newlines s'
              | [] => []
              end
      else c :: universal_newlines s'
  end.

(** [a in b] on strings. *)
Fixpoint starts_with (p s : list N) : bool :=
  match p, s with
  | [], _ => true
  | a :: p', b :: s' => (a =? b) && starts_with p' s'
  | _ :: _, [] => false
  end.

Fixpoint contains (p s : list N) : bool :=
  starts_with p s || match s with [] => false | _ :: s' => contains p s' end.

(** The exception classes that occur in the script and in the code it
    installs, with the part of the class hierarchy that decides which
    [except] clause catches what. *)
Inductive exn_class :=
| BaseException | KeyboardInterrupt | CancelledError
| Exception | ValueError | IndexError | OSError | FileNotFoundError
| URLError | CircuitBreakerOpen | OtherError.

Definition base (c : exn_class) : option exn_class :=
  match c with
  | BaseException => None
  | KeyboardInterrupt | CancelledError => Some BaseException
  | Exception => Some BaseException
  | ValueError | IndexError | OSError | CircuitBreakerOpen | OtherError =>
      Some Exception
  | FileNotFoundError | URLError => Some OSError
  end.

Global Instance exn_class_eq_dec : EqDecision exn_class.
Proof. solve_decision. Defined.

(** [issubclass c d]; the hierarchy is at most four levels deep. *)
Fixpoint subclass_fuel (n : nat) (c d : exn_class) : bool :=
  bool_decide (c = d) ||
  match n with
  | O => false
  | S n' => match base c with Some b => subclass_fuel n' b d | None => false end
  end.
Definition issubclass := subclass_fuel 4.

(** An exception object: its class and [str(e)]. *)
Record exn := Exn { exn_cls : exn_class; exn_str : list N }.

Definition isinstance (e : exn) (c : exn_class) : bool := issubclass (exn_cls e) c.

(** The outcome of running a statement or a call. *)
Inductive result (A : Type) :=
| Ok (a : A)
| Raise (e : exn).
Arguments Ok {A} a.
Arguments Raise {A} e.

(** *** Statements

    A statement or a call takes the state it runs in to an outcome and
    the state it leaves; an exception keeps the state reached when it
    was raised. *)
Definition M (S A : Type) : Type := S -> result A * S.

Definition ret {S A} (a : A) : M S A := fun w => (Ok a, w).
Definition raise {S A} (e : exn) : M S A := fun w => (Raise e, w).
Definition bind {S A B} (m : M S A) (k : A -> M S B) : M S B :=
  fun w => match m w with
           | (Ok a, w') => k a w'
           | (Raise e, w') => (Raise e, w')
           end.

(** The first [except] clause whose class the exception is an instance
    of. *)
Fixpoint handler_for {H : Type} (e : exn) (clauses : list (exn_class * H))
  : option H :=
  match clauses with
  | [] => None
  | (c, h) :: rest => if isinstance e c then Some h else handler_for e rest
  end.

(** [try: body / except C1 as e: h1 e / except C2 as e: h2 e ...]; an
    exception no clause catches goes on to the caller. *)
Definition try_with {S A} (body : M S A)
    (clauses : list (exn_class * (exn -> M S A))) : M S A :=
  fun w => match body w with
           | (Ok a, w') => (Ok a, w')
           | (Raise e, w') =>
               match handler_for e clauses with
               | Some h => h e w'
               | None => (Raise e, w')
               end
           end.

(** [for x in xs: body x] *)
Fixpoint for_ {S A} (xs : list A) (body : A -> M S unit) : M S unit :=
  match xs with
  | [] => ret tt
  | x :: xs' => bind (body x) (fun _ => for_ xs' body)
  end.

End Py.
Import Py.

Declare Scope py_scope.
Delimit Scope py_scope with py_m.
Notation "x <- m ;; k" := (bind m (fun x => k))
  (at level 100, m at next level, right associativity) : py_scope.
Notation "m ;; k" := (bind m (fun _ => k))
  (at level 100, right associativity) : py_scope.
Open Scope py_scope.

(* ===================================================================== *)
(** ** The fragment of [re] the script uses *)
(* ===================================================================== *)

Module Re.

(** Members of a bracketed class. *)
Inductive member := MChar (c : N) | MSpace | MNotSpace | MDigit.

(** One-character atoms. *)
Inductive atom :=
| Lit (c : N)                            (* a literal or an escaped one *)
| Dot                                    (* [.] *)
| Space | NotSpace                       (* [\s], [\S] *)
| Digit                                  (* [\d] *)
| Class (negated : bool) (ms : list member).

Inductive quant := One | Star | Plus | LazyStar | LazyPlus.

(** A pattern is a sequence of quantified atoms, with group parentheses
    as zero-width items. *)
Inductive item := It (a : atom) (q : quant) | Open | Close.

Record flags := Flags { dotall : bool }.
Definition no_flags := Flags false.
Definition DOTALL := Flags true.

Section Engine.
Variable fl : flags.

Definition member_ok (m : member) (c : N) : bool :=
  match m with
  | MChar d => c =? d
  | MSpace => is_space c
  | MNotSpace => negb (is_space c)
  | MDigit => is_decimal c
  end.

Definition accepts (a : atom) (c : N) : bool :=
  match a with
  | Lit d => c =? d
  | Dot => dotall fl || negb (c =? 10)
  | Space => is_space c
  | NotSpace => negb (is_space c)
  | Digit => is_decimal c
  | Class neg ms => xorb neg (existsb (fun m => member_ok m c) ms)
  end.

(** Capture state: the suffix at which the open group started, and the
    groups closed so far. *)
Definition caps : Type := option (list N) * list (list N).

Definition cont : Type := caps -> list N -> option (caps * list N).

Definition one (a : atom) (k : cont) : cont :=
  fun st s =>
    match s with
    | c :: s' => if accepts a c then k st s' else None
    | [] => None
    end.

(** Greedy repetition: take one more character first, give it back when
    the rest of the pattern fails. *)
Fixpoint greedy (a : atom) (k : cont) (st : caps) (s : list N)
  : option (caps * list N) :=
  match s with
  | c :: s' =>
      if accepts a c then
        match greedy a k st s' with
        | Some r => Some r
        | None => k st s
        end
      else k st s
  | [] => k st []
  end.

(** Lazy repetition: try the rest of the pattern first. *)
Fixpoint lazy (a : atom) (k : cont) (st : caps) (s : list N)
  : option (caps * list N) :=
  match k st s with
  | Some r => Some r
  | None =>
      match s with
      | c :: s' => if accepts a c then lazy a k st s' else None
      | [] => None
      end
  end.

Definition close_group (st : caps) (s : list N) : caps :=
  match st with
  | (Some s0, gs) => (None, gs ++ [take (length s0 - length s) s0])
  | (None, gs) => (None, gs)
  end.

(** Match a pattern at the head of [s]; the result is the capture state
    and the unconsumed suffix of the first match in backtracking order. *)
Fixpoint match_here (p : list item) : cont :=
  match p with
  | [] => fun st s => Some (st, s)
  | It a q :: r =>
      let k := match_here r in
      match q with
      | One => one a k
      | Star => greedy a k
      | Plus => one a (greedy a k)
      | LazyStar => lazy a k
      | LazyPlus => one a (lazy a k)
      end
  | Open :: r => fun st s => match_here r (Some s, snd st) s
  | Close :: r => fun st s => match_here r (close_group st s) s
  end.

(** A match object: [start()], [group(0)] and the numbered groups. *)
Record match_obj := Match
  { m_start : nat; m_group0 : list N; m_groups : list (list N) }.

Definition match_at (p : list item) (i : nat) (s : list N) : option match_obj :=
  match match_here p (None, []) s with
  | Some ((_, gs), r) => Some (Match i (take (length s - length r) s) gs)
  | None => None
  end.

(** [re.search]: the first position, from the left, with a match. *)
Fixpoint search_from (p : list item) (i : nat) (s : list N) : option match_obj :=
  match match_at p i s with
  | Some m => Some m
  | None =>
      match s with
      | _ :: s' => search_from p (S i) s'
      | [] => None
      end
  end.

Definition search (p : list item) (s : list N) : option match_obj :=
  search_from p 0 s.

(** [re.sub] with a replacement free of backslashes: the non-overlapping
    matches, left to right, are replaced.  [skip] counts the characters
    of the current match still to drop.  The patterns of the script all
    start with a literal, so a match is never empty; for an empty match
    the replacement is inserted and the scan moves on by one
    character. *)
Fixpoint sub_go (p : list item) (repl : list N) (skip : nat) (s : list N)
  : list N :=
  match s with
  | [] =>
      match skip, match_at p 0 [] with
      | O, Some _ => repl
      | _, _ => []
      end
  | c :: s' =>
      match skip with
      | S n => sub_go p repl n s'
      | O =>
          match match_at p 0 s with
          | Some m =>
              match length (m_group0 m) with
              | O => repl ++ c :: sub_go p repl 0 s'
              | S n => repl ++ sub_go p repl n s'
              end
          | None => c :: sub_go p repl 0 s'
          end
      end
  end.

Definition sub (p : list item) (repl : list N) (s : list N) : list N :=
  sub_go p repl 0 s.

End Engine.

(** *** Reading a pattern *)

Definition is_alnum (c : N) : bool :=
  ((48 <=? c) && (c <=? 57)) || ((65 <=? c) && (c <=? 90))
  || ((97 <=? c) && (c <=? 122)).

(** The character after a backslash, outside brackets. *)
Definition escape_atom (c : N) : option atom :=
  if c =? 115 then Some Space                 (* \s *)
  else if c =? 83 then Some NotSpace          (* \S *)
  else if c =? 100 then Some Digit            (* \d *)
  else if c =? 110 then Some (Lit 10)         (* \n *)
  else if c =? 116 then Some (Lit 9)          (* \t *)
  else if is_alnum c then None
  else Some (Lit c).

Definition escape_member (c : N) : option member :=
  if c =? 115 then Some MSpace
  else if c =? 83 then Some MNotSpace
  else if c =? 100 then Some MDigit
  else if c =? 110 then Some (MChar 10)
  else if c =? 116 then Some (MChar 9)
  else if is_alnum c then None
  else Some (MChar c).

(** The members of a bracketed class up to the closing bracket; ranges
    are not part of the fragment. *)
Fixpoint read_class (first : bool) (s : list N) : option (list member * list N) :=
  match s with
  | [] => None
  | c :: s' =>
      if (c =? 93) && negb first then Some ([], s')         (* ] *)
      else if c =? 45 then None                             (* - *)
      else if c =? 92 then                                  (* \ *)
        match s' with
        | e :: s'' =>
            match escape_member e, read_class false s'' with
            | Some m, Some (ms, r) => Some (m :: ms, r)
            | _, _ => None
            end
        | [] => None
        end
      else
        match read_class false s' with
        | Some (ms, r) => Some (MChar c :: ms, r)
        | None => None
        end
  end.

Definition read_atom (s : list N) : option (atom * list N) :=
  match s with
  | [] => None
  | c :: s' =>
      if c =? 92 then                                        (* \ *)
        match s' with
        | e :: s'' => match escape_atom e with
                      | Some a => Some (a, s'')
                      | None => None
                      end
        | [] => None
        end
      else if c =? 91 then                                   (* [ *)
        match s' with
        | 94 :: s'' =>                                       (* ^ *)
            match read_class true s'' with
            | Some (ms, r) => Some (Class true ms, r)
            | None => None
            end
        | _ =>
            match read_class true s' with
            | Some (ms, r) => Some (Class false ms, r)
            | None => None
            end
        end
      else if c =? 46 then Some (Dot, s')                    (* . *)
      else if (c =? 42) || (c =? 43) || (c =? 63) || (c =? 124) || (c =? 94)
              || (c =? 36) || (c =? 123) || (c =? 40) || (c =? 41)
      then None
      else Some (Lit c, s')
  end.

Definition read_quant (s : list N) : quant * list N :=
  match s with
  | 42 :: 63 :: r => (LazyStar, r)
  | 43 :: 63 :: r => (LazyPlus, r)
  | 42 :: r => (Star, r)
  | 43 :: r => (Plus, r)
  | _ => (One, s)
  end.

(** [depth] is [true] inside a group; groups do not nest and are not
    quantified in the fragment. *)
Fixpoint read_items (fuel : nat) (inside : bool) (s : list N) : option (list item) :=
  match fuel with
  | O => None
  | S fuel' =>
      match s with
      | [] => if inside then None else Some []
      | 40 :: s' =>
          if inside then None
          else (Open ::.) <$> read_items fuel' true s'
      | 41 :: s' =>
          if inside then
            match s' with
            | 42 :: _ | 43 :: _ | 63 :: _ | 123 :: _ => None
            | _ => (Close ::.) <$> read_items fuel' false s'
            end
          else None
      | _ =>
          match read_atom s with
          | Some (a, r) =>
              let (q, r') := read_quant r in
              match r' with
              | 63 :: _ | 42 :: _ | 43 :: _ | 123 :: _ => None
              | _ => (It a q ::.) <$> read_items fuel' inside r'
              end
          | None => None
          end
      end
  end.

(** [re.compile], on the fragment. *)
Definition compile (src : list N) : option (list item) :=
  read_items (S (length src)) false src.

(** A pattern the fragment covers, compiled. *)
Definition pattern_of (src : list N) : list item := default [] (compile src).

End Re.

(* ===================================================================== *)
(** ** The patch script *)
(* ===================================================================== *)

Module Script.

(** Every line of [ls], each followed by a line feed. *)
Definition unlines (ls : list (list N)) : list N :=
  List.concat ((fun l => l ++ nl) <$> ls).

Definition RAG_API_PATH : list N :=
  py "/Users/michaelweiss/RAG API/voiceroi-rag-api".

(** *** The three texts the script writes *)

Definition INFRA_PY_FIXED : list N :=
  unlines
    [ py "~~~";
      py "VoiceROI RAG API - Infrastructure Services";
      py "Canonical embedding function - ALL embedding calls MUST go through here.";
      [];
      py "Version: 1.0.6-circuit-breaker-fixed";
      py "~~~";
      [];
      py "import os";
      py "import logging";
      py "import asyncio";
      py "from typing import Optional, List";
      py "from openai import AsyncOpenAI";
      py "from redis.asyncio import Redis";
      [];
      py "from app.middleware.circuit_breaker import (";
      py "    embedding_breaker,";
      py "    redis_breaker,";
      py "    CircuitBreakerOpen,";
      py ")";
      [];
      py "logger = logging.getLogger(~voiceroi.infra~)";
      [];
      py "# Initialize OpenAI client";
      py "openai_client = AsyncOpenAI(api_key=os.getenv(~OPENAI_API_KEY~))";
      [];
      py "# Redis connection (initialized lazily)";
      py "_redis_client: Optional[Redis] = None";
      [];
      [];
      py "async def get_redis_client() -> Redis:";
      py "    ~~~Get or create Redis client.~~~";
      py "    global _redis_client";
      py "    if _redis_client is None:";
      py "        redis_url = os.getenv(~REDIS_URL~)";
      py "        if not redis_url:";
      py "            raise ValueError(~REDIS_URL not configured~)";
      py "        _redis_client = Redis.from_url(";
      py "            redis_url,";
      py "            decode_responses=True,";
      py "            socket_timeout=5.0,";
      py "            socket_connect_timeout=5.0,";
      py "        )";
      py "    return _redis_client";
      [];
      [];
      py "async def embed_text(text: str) -> List[float]:";
      py "    ~~~";
      py "    Get embedding for text using OpenAI.";
      py "    ";
      py "    THIS IS THE CANONICAL EMBEDDING FUNCTION.";
      py "    All embedding calls in the entire codebase MUST route through here.";
      py "    Protected by embedding_breaker circuit breaker.";
      py "    ";
      py "    Args:";
      py "        text: Text to embed";
      py "        ";
      py "    Returns:";
      py "        List of floats representing the embedding vector";
      py "        ";
      py "    Raises:";
      py "        CircuitBreakerOpen: If embedding service is unavailable";
      py "    ~~~";
      py "    async def _do_embed():";
      py "        response = await openai_client.embeddings.create(";
      py "            input=text,";
      py "            model=~text-embedding-3-small~,";
      py "        )";
      py "        return response.data[0].embedding";
      py "    ";
      py "    try:";
      py "        embedding = await embedding_breaker.call(_do_embed)";
      py "        logger.debug(f~embed_text: Generated embedding via breaker for '{text[:40]}...'~)";
      py "        return embedding";
      py "    except CircuitBreakerOpen:";
      py "        logger.warning(f~embed_text: Circuit OPEN, cannot embed '{text[:40]}...'~)";
      py "        raise";
      py "    except Exception as e:";
      py "        logger.error(f~embed_text: Failed to embed text: {e}~)";
      py "        raise";
      [];
      [];
      py "async def health_check() -> dict:";
      py "    ~~~";
      py "    Check health of Redis connection.";
      py "    Protected by redis_breaker circuit breaker.";
      py "    ~~~";
      py "    async def _do_ping():";
      py "        client = await get_redis_client()";
      py "        await client.ping()";
      py "        return True";
      py "    ";
      py "    try:";
      py "        await redis_breaker.call(_do_ping)";
      py "        return {~redis~: ~connected~, ~status~: ~healthy~}";
      py "    except CircuitBreakerOpen:";
      py "        return {~redis~: ~circuit_open~, ~status~: ~degraded~}";
      py "    except Exception as e:";
      py "        logger.error(f~Health check failed: {e}~)";
      py "        return {~redis~: ~error~, ~status~: ~unhealthy~, ~error~: str(e)}" ].

Definition GET_EMBEDDING_FIXED : list N :=
  nl ++ unlines
    [ py "async def get_embedding(text: str) -> list[float]:";
      py "    ~~~";
      py "    Get embedding for semantic cache lookup.";
      py "    Routes through canonical embed_text() which is protected by circuit breaker.";
      py "    ";
      py "    IMPORTANT: This function MUST call embed_text from infra.py to ensure";
      py "    all embeddings go through the circuit breaker.";
      py "    ~~~";
      py "    from app.services.infra import embed_text";
      py "    return await embed_text(text)" ].

Definition METRICS_PY_FIXED : list N :=
  unlines
    [ py "~~~";
      py "VoiceROI RAG API - Prometheus Metrics";
      py "Standardized metric names with voiceroi_ prefix.";
      py "~~~";
      [];
      py "from prometheus_client import Counter, Gauge, generate_latest, CONTENT_TYPE_LATEST";
      [];
      py "# Circuit Breaker Metrics - STANDARDIZED NAMES";
      py "voiceroi_circuit_calls_total = Counter(";
      py "    ~voiceroi_circuit_calls_total~,";
      py "    ~Total calls through circuit breaker~,";
      py "    [~name~],";
      py ")";
      [];
      py "voiceroi_circuit_successes_total = Counter(";
      py "    ~voiceroi_circuit_successes_total~,";
      py "    ~Successful calls through circuit breaker~,";
      py "    [~name~],";
      py ")";
      [];
      py "voiceroi_circuit_failures_total = Counter(";
      py "    ~voiceroi_circuit_failures_total~,";
      py "    ~Failed calls through circuit breaker~,";
      py "    [~name~],";
      py ")";
      [];
      py "voiceroi_circuit_rejections_total = Counter(";
      py "    ~voiceroi_circuit_rejections_total~,";
      py "    ~Rejected calls (circuit open)~,";
      py "    [~name~],";
      py ")";
      [];
      py "voiceroi_circuit_timeouts_total = Counter(";
      py "    ~voiceroi_circuit_timeouts_total~,";
      py "    ~Timed out calls~,";
      py "    [~name~],";
      py ")";
      [];
      py "voiceroi_circuit_state = Gauge(";
      py "    ~voiceroi_circuit_state~,";
      py "    ~Current circuit state (0=CLOSED, 0.5=HALF_OPEN, 1=OPEN)~,";
      py "    [~name~],";
      py ")";
      [];
      py "voiceroi_circuit_consecutive_opens = Gauge(";
      py "    ~voiceroi_circuit_consecutive_opens~,";
      py "    ~Number of consecutive OPEN transitions~,";
      py "    [~name~],";
      py ")";
      [];
      py "voiceroi_circuit_success_rate = Gauge(";
      py "    ~voiceroi_circuit_success_rate~,";
      py "    ~Success rate percentage~,";
      py "    [~name~],";
      py ")";
      [];
      py "# Query Metrics";
      py "voiceroi_query_total = Counter(";
      py "    ~voiceroi_query_total~,";
      py "    ~Total queries processed~,";
      py "    [~layer~, ~source~],";
      py ")";
      [];
      py "voiceroi_query_latency_seconds = Gauge(";
      py "    ~voiceroi_query_latency_seconds~,";
      py "    ~Query latency in seconds~,";
      py "    [~layer~],";
      py ")";
      [];
      [];
      py "def get_metrics_output() -> bytes:";
      py "    ~~~Generate Prometheus metrics output.~~~";
      py "    return generate_latest()" ].

(** *** The world the script runs in *)

Record completed := Completed
  { returncode : Z; proc_stdout : list N; proc_stderr : list N }.

Record request := Request
  { req_url : list N;
    req_data : option (list N);
    req_headers : list (list N * list N);
    req_method : list N }.

(** What the script does to its surroundings, in order. *)
Inductive event :=
| EChdir (p : list N)
| ERun (argv : list (list N))
| ERead (p : list N)                     (* [f.read()] *)
| ETrunc (p : list N)                    (* [open(p, 'w')] *)
| EWrite (p : list N) (data : list N)    (* [f.write(data)] *)
| EUrlopen (r : request).

(** The mutable part: the regular files by path, the working directory,
    the lines printed, the events so far, the number of random draws. *)
Record world := World
  { fs : gmap (list N) (list N);
    cwd : list N;
    stdout : list (list N);
    trace : list event;
    draws : nat }.

(** The surroundings the script cannot control: whether a directory can
    be entered and a file opened for writing, what a child process and a
    server answer, what the random generator yields. *)
Record environment := Environment
  { env_chdir : list N -> option exn;
    env_open_w : list N -> option exn;
    env_spawn : list (list N) -> result completed;
    env_urlopen : request -> result (list N);
    env_rand : nat -> N }.

(** Statements of the script: a world in, an outcome and a world out. *)
Abbreviation M := (Py.M world).

(** [try: body / except Exception as e: handler e] *)
Definition try_except {A} (body : M A) (handler : exn -> M A) : M A :=
  try_with body [(Exception, handler)].

Definition emit (e : event) : M unit :=
  fun w => (Ok tt, World (fs w) (cwd w) (stdout w) (trace w ++ [e]) (draws w)).

Definition print (s : list N) : M unit :=
  fun w => (Ok tt, World (fs w) (cwd w) (stdout w ++ [s]) (trace w) (draws w)).

Definition set_file (p : list N) (c : list N) : M unit :=
  fun w => (Ok tt, World (<[p := c]> (fs w)) (cwd w) (stdout w) (trace w) (draws w)).

(** [os.path.exists] *)
Definition path_exists (p : list N) : M bool :=
  fun w => (Ok (bool_decide (is_Some (fs w !! p))), w).

(** [os.path.join a b] *)
Definition path_join (a b : list N) : list N :=
  match b with
  | 47 :: _ => b
  | _ => match last a with
         | Some 47 | None => a ++ b
         | Some _ => a ++ 47 :: b
         end
  end.

Definition no_such_file (p : list N) : exn :=
  Exn FileNotFoundError
      (py "[Errno 2] No such file or directory: '" ++ p ++ py "'").

(** [open(p, 'r')]: the file must be there. *)
Definition open_r (p : list N) : M unit :=
  fun w => match fs w !! p with
           | Some _ => (Ok tt, w)
           | None => (Raise (no_such_file p), w)
           end.

(** [f.read()] on a file opened with [open(p, 'r')]: the file is read
    in text mode, so what comes back is what the file holds now with the
    line endings translated.  (Writing in text mode translates nothing
    where the line separator is [LF], as it is under [RAG_API_PATH].) *)
Definition read (p : list N) : M (list N) :=
  fun w => match fs w !! p with
           | Some c =>
               (Ok (universal_newlines c),
                World (fs w) (cwd w) (stdout w) (trace w ++ [ERead p]) (draws w))
           | None => (Raise (no_such_file p), w)
           end.

Section WithEnvironment.
Context (E : environment).

(** [open(p, 'w')]: the file is created or emptied. *)
Definition open_w (p : list N) : M unit :=
  match env_open_w E p with
  | Some e => raise e
  | None => emit (ETrunc p) ;; set_file p []
  end.

(** [f.write(data)] on a file opened with [open_w]. *)
Definition write (p : list N) (data : list N) : M unit :=
  fun w => (emit (EWrite p data) ;;
            set_file p (default [] (fs w !! p) ++ data)) w.

(** [os.chdir] *)
Definition chdir (p : list N) : M unit :=
  match env_chdir E p with
  | Some e => raise e
  | None =>
      emit (EChdir p) ;;
      fun w => (Ok tt, World (fs w) p (stdout w) (trace w) (draws w))
  end.

(** [subprocess.run(argv, ...)], without [check=True]: a child that
    cannot be started raises, any exit status is returned. *)
Definition subprocess_run (argv : list (list N)) : M completed :=
  emit (ERun argv) ;;
  match env_spawn E argv with
  | Ok c => ret c
  | Raise e => raise e
  end.

(** [urllib.request.urlopen(req, timeout=10)], and for a response that
    is read, [resp.read().decode()]. *)
Definition urlopen (r : request) : M (list N) :=
  emit (EUrlopen r) ;;
  match env_urlopen E r with
  | Ok body => ret body
  | Raise e => raise e
  end.

(** [random.randint(lo, hi)] *)
Definition randint (lo hi : N) : M N :=
  fun w => (Ok (lo + env_rand E (draws w) mod (hi - lo + 1)),
            World (fs w) (cwd w) (stdout w) (trace w) (S (draws w))).

Definition banner (title : list N) : M unit :=
  print (nl ++ times (py "=") 60) ;;
  print title ;;
  print (times (py "=") 60).

(** *** Step 1 *)

Definition step1_verify_state : M unit :=
  banner (py "STEP 1: Verifying Current State") ;;
  chdir RAG_API_PATH ;;
  print (nl ++ py "[1.1] Finding all embedding call sites...") ;;
  subprocess_run [py "grep"; py "-rn"; py "embeddings.create"; py "app/"] ;;
  print (nl ++ py "[1.2] Finding get_embedding calls...") ;;
  subprocess_run [py "grep"; py "-rn"; py "get_embedding"; py "app/"] ;;
  print (nl ++ py "[1.3] Current version...") ;;
  subprocess_run [py "grep"; py "-n"; py "APP_VERSION"; py "app/main.py"] ;;
  ret tt.

(** *** Step 2 *)

Definition infra_path : list N :=
  path_join RAG_API_PATH (py "app/services/infra.py").
Definition backup_path : list N := infra_path ++ py ".backup".

Definition step2_fix_infra : M unit :=
  banner (py "STEP 2: Fixing infra.py") ;;
  (there <- path_exists infra_path ;;
   if there : bool then
     open_r infra_path ;;
     open_w backup_path ;;
     data <- read infra_path ;;
     write backup_path data ;;
     print (py "[2.1] Backed up to " ++ backup_path)
   else ret tt) ;;
  open_w infra_path ;;
  write infra_path INFRA_PY_FIXED ;;
  print (py "[2.2] Written fixed infra.py").

(** *** Step 3 *)

Definition pattern : list Re.item :=
  Re.pattern_of
    (py "async def get_embedding\(text: str\)[^:]*:[^}]+?return resp\.data\[0\]\.embedding").

Definition alt_pattern : list Re.item :=
  Re.pattern_of
    (py "async def get_embedding\([^)]+\):[\s\S]*?return[^\n]+embedding").

Definition version_pattern : list Re.item :=
  Re.pattern_of (py "APP_VERSION\s*=\s*~[^~]+~").

Definition version_line : list N :=
  py "APP_VERSION = ~1.0.6-circuit-breakers-fixed~".

(** The text handed on to the version update: the function replaced by
    the first pattern that is found, or the text as it was. *)
Definition replace_get_embedding (content : list N) : M (list N) :=
  match Re.search Re.DOTALL pattern content with
  | Some _ =>
      let content' :=
        Re.sub Re.DOTALL pattern (strip GET_EMBEDDING_FIXED) content in
      print (py "[3.2] Replaced get_embedding function") ;;
      ret content'
  | None =>
      match Re.search Re.no_flags alt_pattern content with
      | Some _ =>
          let content' :=
            Re.sub Re.no_flags alt_pattern (strip GET_EMBEDDING_FIXED) content in
          print (py "[3.2] Replaced get_embedding (alt pattern)") ;;
          ret content'
      | None =>
          print (py "[3.2] WARNING: Could not find get_embedding pattern. Manual fix needed.") ;;
          print (py "      Look for 'async def get_embedding' and replace with:") ;;
          print GET_EMBEDDING_FIXED ;;
          ret content
      end
  end.

Definition main_path : list N := path_join RAG_API_PATH (py "app/main.py").

Definition step3_fix_main_get_embedding : M unit :=
  banner (py "STEP 3: Fixing main.py get_embedding") ;;
  open_r main_path ;;
  content <- read main_path ;;
  open_w (main_path ++ py ".backup") ;;
  write (main_path ++ py ".backup") content ;;
  print (py "[3.1] Backed up main.py") ;;
  content <- replace_get_embedding content ;;
  let content := Re.sub Re.no_flags version_pattern version_line content in
  print (py "[3.3] Updated APP_VERSION") ;;
  open_w main_path ;;
  write main_path content ;;
  print (py "[3.4] Written fixed main.py").

(** *** Step 4 *)

Definition metrics_path : list N :=
  path_join RAG_API_PATH (py "app/metrics.py").

Definition step4_fix_metrics : M unit :=
  banner (py "STEP 4: Fixing metrics.py") ;;
  (there <- path_exists metrics_path ;;
   if there : bool then
     open_r metrics_path ;;
     open_w (metrics_path ++ py ".backup") ;;
     data <- read metrics_path ;;
     write (metrics_path ++ py ".backup") data ;;
     print (py "[4.1] Backed up metrics.py")
   else ret tt) ;;
  open_w metrics_path ;;
  write metrics_path METRICS_PY_FIXED ;;
  print (py "[4.2] Written fixed metrics.py").

(** *** Step 5 *)

Definition fly_deploy : list (list N) := [py "fly"; py "deploy"; py "--now"].

Definition step5_deploy : M bool :=
  banner (py "STEP 5: Deploy to Fly.io") ;;
  chdir RAG_API_PATH ;;
  print (py "[5.1] Deploying...") ;;
  result <- subprocess_run fly_deploy ;;
  print (proc_stdout result) ;;
  if bool_decide (returncode result ≠ 0%Z) then
    print (py "ERROR: " ++ proc_stderr result) ;;
    ret false
  else
    print (nl ++ py "[5.2] Verifying deployment...") ;;
    subprocess_run
      [py "curl"; py "-s"; py "https://voiceroi-rag-api.fly.dev/healthz"] ;;
    ret true.

(** *** Step 6 *)

(** The key the script sends in the [x-api-key] header; the literal is
    left out of this development. *)
Context (API_KEY : list N).

Definition API_URL : list N := py "https://voiceroi-rag-api.fly.dev".

(** [json.dumps({"question": q}).encode()] for a question of letters,
    digits and spaces, which need no escape. *)
Definition json_question (q : list N) : list N :=
  py "{~question~: ~" ++ q ++ py "~}".

(** [s.split("\n")] *)
Fixpoint split_lines_go (cur : list N) (s : list N) : list (list N) :=
  match s with
  | [] => [rev cur]
  | c :: s' =>
      if c =? 10 then rev cur :: split_lines_go [] s'
      else split_lines_go (c :: cur) s'
  end.
Definition split_lines (s : list N) : list (list N) := split_lines_go [] s.

Definition calls_pattern : list Re.item :=
  Re.pattern_of (py "voiceroi_circuit_calls_total\{name=~embedding~\}\s+(\d+)").

Definition query (i : nat) : M unit :=
  r <- randint 10000 99999 ;;
  let q := py "Unique test query " ++ str_of_N r
             ++ py " about VoiceROI investment" in
  let req :=
    Request (API_URL ++ py "/query") (Some (json_question q))
            [(py "Content-Type", py "application/json");
             (py "x-api-key", API_KEY)]
            (py "POST") in
  try_except
    (urlopen req ;;
     print (py "  Query " ++ str_of_N (N.of_nat (i + 1)) ++ py ": OK"))
    (fun e =>
       print (py "  Query " ++ str_of_N (N.of_nat (i + 1)) ++ py ": "
                ++ exn_str e)).

Definition warn_and_fail : M bool :=
  print (nl ++ [9888; 65039] ++ py " WARNING: Check if embedding breaker calls increased") ;;
  ret false.

Definition step6_verify : M bool :=
  banner (py "STEP 6: Verification Test") ;;
  print (py "[6.1] Sending 5 unique queries...") ;;
  for_ (seq 0 5) query ;;
  print (nl ++ py "[6.2] Checking metrics...") ;;
  metrics <- urlopen (Request (API_URL ++ py "/metrics") None [] (py "GET")) ;;
  for_ (split_lines metrics)
       (fun line =>
          if contains (py "voiceroi_circuit_calls_total") line
             || contains (py "circuit_breaker_calls_total") line
          then print (py "  " ++ line)
          else ret tt) ;;
  if contains (py "voiceroi_circuit_calls_total{name=~embedding~}") metrics then
    match Re.search Re.no_flags calls_pattern metrics with
    | Some m =>
        match int_of_digits (default [] (Re.m_groups m !! 0%nat)) with
        | Some n =>
            if 0 <? n then
              print (nl ++ [9989] ++ py " SUCCESS: Embedding circuit breaker is now being invoked!") ;;
              ret true
            else warn_and_fail
        | None => raise (Exn ValueError (py "invalid literal for int()"))
        end
    | None => warn_and_fail
    end
  else warn_and_fail.

(** *** The main program *)

Definition main : M unit :=
  print (times (py "=") 60) ;;
  print (py "VOICEROI CIRCUIT BREAKER FIX SCRIPT") ;;
  print (times (py "=") 60) ;;
  step1_verify_state ;;
  step2_fix_infra ;;
  step3_fix_main_get_embedding ;;
  step4_fix_metrics ;;
  print (nl ++ times (py "=") 60) ;;
  print (py "READY TO DEPLOY") ;;
  print (times (py "=") 60) ;;
  print (nl ++ py "Run these commands manually:") ;;
  print (py "  cd ~" ++ RAG_API_PATH ++ py "~") ;;
  print (py "  fly deploy --now") ;;
  print [] ;;
  print (py "Then run verification:") ;;
  print (py "  python3 -c 'from CLAUDE_EXECUTE_NOW import step6_verify; step6_verify()'").

End WithEnvironment.

End Script.

(* ===================================================================== *)
(** ** The circuit breaker the installed code imports *)
(* ===================================================================== *)

Module Breaker.

Inductive breaker_state := CLOSED | OPEN | HALF_OPEN.

(** Modelled from the spec: the module [app.middleware.circuit_breaker],
    which the installed [infra.py] imports and the script does not contain.
    The record is the data model of section 3, times and durations in
    whole ticks of the clock. *)
Record breaker := Breaker
  { name : list N;
    state : breaker_state;
    failure_count : nat;
    failure_threshold : nat;
    open_since : Z;
    reset_timeout : Z;
    consecutive_opens : nat;
    (* the observability signals of section 4.1 *)
    calls_total : nat;
    successes_total : nat;
    failures_total : nat;
    rejections_total : nat }.

Definition breaker_open_error (b : breaker) : exn :=
  Exn CircuitBreakerOpen (py "Circuit breaker '" ++ name b ++ py "' is open").

Section Call.
Context {S A : Type}.

(** Modelled from the spec: entering OPEN records [open_since = now] and
    increments [consecutive_opens]. *)
Definition trip (now : Z) (b : breaker) (fc : nat) : breaker :=
  Breaker (name b) OPEN fc (failure_threshold b) now (reset_timeout b)
          (consecutive_opens b + 1)
          (calls_total b + 1) (successes_total b) (failures_total b + 1)
          (rejections_total b).

(** Modelled from the spec: a success in any state that lets the call
    through leaves the breaker CLOSED with [failure_count] reset to 0. *)
Definition succeed (b : breaker) : breaker :=
  Breaker (name b) CLOSED 0 (failure_threshold b) (open_since b)
          (reset_timeout b) (consecutive_opens b)
          (calls_total b + 1) (successes_total b + 1) (failures_total b)
          (rejections_total b).

(** Modelled from the spec: a failure while CLOSED increments
    [failure_count] and opens the breaker when it reaches the threshold. *)
Definition fail_closed (now : Z) (b : breaker) : breaker :=
  let fc := (failure_count b + 1)%nat in
  if (failure_threshold b <=? fc)%nat then trip now b fc
  else Breaker (name b) CLOSED fc (failure_threshold b) (open_since b)
               (reset_timeout b) (consecutive_opens b)
               (calls_total b + 1) (successes_total b) (failures_total b + 1)
               (rejections_total b).

Definition reject (b : breaker) : breaker :=
  Breaker (name b) (state b) (failure_count b) (failure_threshold b)
          (open_since b) (reset_timeout b) (consecutive_opens b)
          (calls_total b) (successes_total b) (failures_total b)
          (rejections_total b + 1).

(** The single probe of HALF_OPEN. *)
Definition probe (now : Z) (b : breaker) (operation : M S A)
  : M (breaker * S) A :=
  fun '(_, s) =>
    match operation s with
    | (Ok a, s') => (Ok a, (succeed b, s'))
    | (Raise e, s') => (Raise e, (trip now b (failure_count b + 1), s'))
    end.

(** Modelled from the spec: [call(operation)] of section 4.1, by state.
    The operation runs on the state [S] of whatever it talks to; the
    breaker and that state are left as the call leaves them. *)
Definition call (now : Z) (operation : M S A) : M (breaker * S) A :=
  fun '(b, s) =>
    match state b with
    | CLOSED =>
        match operation s with
        | (Ok a, s') => (Ok a, (succeed b, s'))
        | (Raise e, s') => (Raise e, (fail_closed now b, s'))
        end
    | OPEN =>
        if (now - open_since b <? reset_timeout b)%Z
        then (Raise (breaker_open_error b), (reject b, s))
        else probe now b operation (b, s)
    | HALF_OPEN => probe now b operation (b, s)
    end.

End Call.

End Breaker.

(* ===================================================================== *)
(** ** The installed [app/services/infra.py] *)
(* ===================================================================== *)

Module Infra.

(** A [redis.asyncio.Redis] object; [redis_id] tells two objects apart. *)
Record Redis := MkRedis
  { redis_id : nat;
    redis_url : list N;
    decode_responses : bool;
    socket_timeout : Z;            (* seconds *)
    socket_connect_timeout : Z }.

Inductive level := DEBUG | WARNING | ERROR.

Inductive event :=
| EGetenv (var : list N)
| EFromUrl (url : list N).

Inductive breaker_id := embedding_breaker | redis_breaker.

Section Installed.
(** The state of whatever is outside the module (the network, the two
    breakers), and the type of the numbers in an embedding vector. *)
Context {X F : Type}.

Record datum := Datum { embedding : list F }.
Record response := Response { data : list datum }.

(** The process as the module sees it: [os.environ], the module's global
    [_redis_client] and [openai_client], the records handed to [logger],
    the environment reads and client constructions so far, the number of
    [Redis] objects made. *)
Record process := Process
  { environ : gmap (list N) (list N);
    _redis_client : option Redis;
    openai_client : option (option (list N));
    log : list (level * list N);
    events : list event;
    made : nat;
    outside : X }.

Abbreviation M := (Py.M process).

(** What the module calls and does not define. *)
Context (breaker_call : forall A : Type, breaker_id -> M A -> M A).
Context (embeddings_create : list N -> list N -> M response).
Context (ping : Redis -> M unit).
Context (from_url_error : list N -> option exn).
Context (openai_error : option (list N) -> option exn).

(** [os.getenv] *)
Definition getenv (var : list N) : M (option (list N)) :=
  fun p => (Ok (environ p !! var),
            Process (environ p) (_redis_client p) (openai_client p) (log p)
                    (events p ++ [EGetenv var]) (made p) (outside p)).

Definition logger (l : level) (msg : list N) : M unit :=
  fun p => (Ok tt,
            Process (environ p) (_redis_client p) (openai_client p)
                    (log p ++ [(l, msg)]) (events p) (made p) (outside p)).

(** [Redis.from_url(url, decode_responses=True, socket_timeout=5.0,
    socket_connect_timeout=5.0)]: a new object, unless the URL is refused. *)
Definition from_url (url : list N) : M Redis :=
  fun p =>
    let p' := Process (environ p) (_redis_client p) (openai_client p) (log p)
                      (events p ++ [EFromUrl url]) (made p) (outside p) in
    match from_url_error url with
    | Some e => (Raise e, p')
    | None =>
        (Ok (MkRedis (made p) url true 5 5),
         Process (environ p') (_redis_client p') (openai_client p') (log p')
                 (events p') (S (made p')) (outside p'))
    end.

Definition set_redis_client (c : Redis) : M unit :=
  fun p => (Ok tt,
            Process (environ p) (Some c) (openai_client p) (log p) (events p)
                    (made p) (outside p)).

(** The statements at module level, run when the module is imported. *)
Definition import_module : M unit :=
  key <- getenv (py "OPENAI_API_KEY") ;;
  (match openai_error key with
   | Some e => raise e
   | None =>
       fun p => (Ok tt,
                 Process (environ p) (_redis_client p) (Some key) (log p)
                         (events p) (made p) (outside p))
   end) ;;
  fun p => (Ok tt,
            Process (environ p) None (openai_client p) (log p) (events p)
                    (made p) (outside p)).

Definition get_redis_client : M Redis :=
  fun p =>
    match _redis_client p with
    | None =>
        (redis_url <- getenv (py "REDIS_URL") ;;
         match redis_url with
         | None | Some [] => raise (Exn ValueError (py "REDIS_URL not configured"))
         | Some url =>
             c <- from_url url ;;
             set_redis_client c ;;
             ret c
         end) p
    | Some c => (Ok c, p)
    end.

(** [response.data[0]] *)
Definition first_datum (r : response) : M datum :=
  match data r with
  | d :: _ => ret d
  | [] => raise (Exn IndexError (py "list index out of range"))
  end.

Definition _do_embed (text : list N) : M (list F) :=
  r <- embeddings_create text (py "text-embedding-3-small") ;;
  d <- first_datum r ;;
  ret (embedding d).

Definition embed_text (text : list N) : M (list F) :=
  try_with
    (e <- breaker_call _ embedding_breaker (_do_embed text) ;;
     logger DEBUG (py "embed_text: Generated embedding via breaker for '"
                     ++ take 40 text ++ py "...'") ;;
     ret e)
    [ (CircuitBreakerOpen,
       fun e =>
         logger WARNING (py "embed_text: Circuit OPEN, cannot embed '"
                           ++ take 40 text ++ py "...'") ;;
         raise e);
      (Exception,
       fun e =>
         logger ERROR (py "embed_text: Failed to embed text: " ++ exn_str e) ;;
         raise e) ].

Definition _do_ping : M bool :=
  client <- get_redis_client ;;
  ping client ;;
  ret true.

Definition health_check : M (gmap (list N) (list N)) :=
  try_with
    (breaker_call _ redis_breaker _do_ping ;;
     ret (<[py "redis" := py "connected"]> (<[py "status" := py "healthy"]> ∅)))
    [ (CircuitBreakerOpen,
       fun _ =>
         ret (<[py "redis" := py "circuit_open"]>
              (<[py "status" := py "degraded"]> ∅)));
      (Exception,
       fun e =>
         logger ERROR (py "Health check failed: " ++ exn_str e) ;;
         ret (<[py "redis" := py "error"]>
              (<[py "status" := py "unhealthy"]>
               (<[py "error" := exn_str e]> ∅)))) ].

End Installed.

End Infra.

(* ===================================================================== *)
(** ** The installed [app/metrics.py] *)
(* ===================================================================== *)

Module Metrics.

Inductive kind := Counter | Gauge.

(** A [prometheus_client] metric object as the module constructs it. *)
Record metric := Metric
  { kind_of : kind;
    metric_name : list N;
    documentation : list N;
    labelnames : list (list N) }.

Global Instance kind_eq_dec : EqDecision kind.
Proof. solve_decision. Defined.
Global Instance metric_eq_dec : EqDecision metric.
Proof. solve_decision. Defined.

(** [name.removesuffix("_total")] *)
Definition strip_total (n : list N) : list N :=
  let suffix := py "_total" in
  if bool_decide (drop (length n - length suffix) n = suffix)
  then take (length n - length suffix) n else n.

(** The time series a metric claims in the registry: a counter named
    [x_total] or [x] exposes [x_total] and [x_created] under the family
    [x]; a gauge exposes its own name. *)
Definition timeseries (m : metric) : list (list N) :=
  match kind_of m with
  | Counter =>
      let b := strip_total (metric_name m) in
      [b; b ++ py "_total"; b ++ py "_created"]
  | Gauge => [metric_name m]
  end.

(** The module's globals, the default registry, and the values of the
    samples by time series and label value. *)
Record globals := Globals
  { bound : gmap (list N) metric;
    registry : list (list N);
    samples : gmap (list N * list N) N }.

Abbreviation M := (Py.M globals).

(** [var = Counter(name, doc, labels)] or [var = Gauge(...)]: the
    constructor registers the metric and refuses a time series that is
    already taken. *)
Definition define (var : list N) (m : metric) : M unit :=
  fun g =>
    if existsb (fun n => bool_decide (n ∈ registry g)) (timeseries m)
    then (Raise (Exn ValueError (py "Duplicated timeseries in CollectorRegistry")), g)
    else (Ok tt, Globals (<[var := m]> (bound g)) (registry g ++ timeseries m)
                         (samples g)).

Definition counter (var name doc : list N) (labels : list (list N)) : M unit :=
  define var (Metric Counter name doc labels).
Definition gauge (var name doc : list N) (labels : list (list N)) : M unit :=
  define var (Metric Gauge name doc labels).

(** The statements of the module, in order. *)
Definition import_module : M unit :=
  counter (py "voiceroi_circuit_calls_total") (py "voiceroi_circuit_calls_total")
          (py "Total calls through circuit breaker") [py "name"] ;;
  counter (py "voiceroi_circuit_successes_total") (py "voiceroi_circuit_successes_total")
          (py "Successful calls through circuit breaker") [py "name"] ;;
  counter (py "voiceroi_circuit_failures_total") (py "voiceroi_circuit_failures_total")
          (py "Failed calls through circuit breaker") [py "name"] ;;
  counter (py "voiceroi_circuit_rejections_total") (py "voiceroi_circuit_rejections_total")
          (py "Rejected calls (circuit open)") [py "name"] ;;
  counter (py "voiceroi_circuit_timeouts_total") (py "voiceroi_circuit_timeouts_total")
          (py "Timed out calls") [py "name"] ;;
  gauge (py "voiceroi_circuit_state") (py "voiceroi_circuit_state")
        (py "Current circuit state (0=CLOSED, 0.5=HALF_OPEN, 1=OPEN)") [py "name"] ;;
  gauge (py "voiceroi_circuit_consecutive_opens") (py "voiceroi_circuit_consecutive_opens")
        (py "Number of consecutive OPEN transitions") [py "name"] ;;
  gauge (py "voiceroi_circuit_success_rate") (py "voiceroi_circuit_success_rate")
        (py "Success rate percentage") [py "name"] ;;
  counter (py "voiceroi_query_total") (py "voiceroi_query_total")
          (py "Total queries processed") [py "layer"; py "source"] ;;
  gauge (py "voiceroi_query_latency_seconds") (py "voiceroi_query_latency_seconds")
        (py "Query latency in seconds") [py "layer"].

(** The sample a counter's [inc] adds to. *)
Definition sample_of (m : metric) (label : list N) : list N * list N :=
  (strip_total (metric_name m) ++ py "_total", label).

(** [var.labels(name=label).inc()] on a counter of the module. *)
Definition inc (var label : list N) : M unit :=
  fun g =>
    match bound g !! var with
    | Some m =>
        let k := sample_of m label in
        (Ok tt, Globals (bound g) (registry g)
                        (<[k := default 0 (samples g !! k) + 1]> (samples g)))
    | None => (Raise (Exn OtherError (py "name '" ++ var ++ py "' is not defined")), g)
    end.

(** The value of a counter's sample; a sample never touched reads 0. *)
Definition value (g : globals) (var label : list N) : option N :=
  m ← bound g !! var; Some (default 0 (samples g !! sample_of m label)).

Definition empty_globals : globals := Globals ∅ [] ∅.

End Metrics.

(* ===================================================================== *)
(** ** Vocabulary for the statements about the matcher *)
(* ===================================================================== *)

Module ReSpec.
Import Re.

(** A continuation that only ever hands back a suffix of what it got. *)
Definition shrinking (k : cont) : Prop :=
  forall st s st' r, k st s = Some (st', r) -> r `suffix_of` s.

(** A pattern is consuming when none of its matches is empty. *)
Definition consuming (fl : flags) (p : list item) : Prop :=
  forall st s st' r,
    match_here fl p st s = Some (st', r) -> (length r < length s)%nat.

(** A pattern that starts with an atom to be matched at least once. *)
Definition starts_with_one (p : list item) : bool :=
  match p with
  | It _ (One | Plus | LazyPlus) :: _ => true
  | _ => false
  end.

(** What [sub] does, as a relation.  [replaced fl p repl n s t]: [t] is [s]
    with [n] matches of [p] replaced by [repl], scanning from the left; a
    character is kept only where no match starts, and a match is replaced
    whole. *)
Inductive replaced (fl : flags) (p : list item) (repl : list N)
  : nat -> list N -> list N -> Prop :=
| replaced_nil : replaced fl p repl 0 [] []
| replaced_keep c s t n :
    match_here fl p (None, []) (c :: s) = None ->
    replaced fl p repl n s t ->
    replaced fl p repl n (c :: s) (c :: t)
| replaced_match m rest t n st :
    m <> [] ->
    match_here fl p (None, []) (m ++ rest) = Some (st, rest) ->
    replaced fl p repl n rest t ->
    replaced fl p repl (S n) (m ++ rest) (repl ++ t).

End ReSpec.

(* ===================================================================== *)
(** ** Vocabulary for the statements about the script *)
(* ===================================================================== *)

Module ScriptSpec.
Import Script.

(** The files the script patches, and the backup kept for each. *)
Definition targets : list (list N) := [infra_path; main_path; metrics_path].

Definition backup_of (p : list N) : list N := p ++ py ".backup".

(** The events that change a file or its backup. *)
Definition touches (p : list N) (e : event) : bool :=
  match e with
  | ETrunc q | EWrite q _ =>
      bool_decide (q = p) || bool_decide (q = backup_of p)
  | _ => false
  end.

Definition file_events (p : list N) (evs : list event) : list event :=
  List.filter (touches p) evs.

(** How the backup of [p] is taken: the backup is created and the text
    [c] written to it. *)
Definition backup_events (p c : list N) : list event :=
  [ETrunc (backup_of p); EWrite (backup_of p) c].

(** Deploying and probing the service: what [step5_deploy] and
    [step6_verify] do and nothing else in the script does. *)
Definition is_deploy (e : event) : bool :=
  match e with
  | ERun argv => bool_decide (argv = fly_deploy)
  | _ => false
  end.

Definition is_request (e : event) : bool :=
  match e with
  | EUrlopen _ => true
  | _ => false
  end.

(** A statement is confined to events [ok] when whatever it adds to the
    trace satisfies [ok], and leaves the files [keep] alone. *)
Definition confined {A} (ok : event -> bool) (keep : list N -> Prop) (m : M A)
  : Prop :=
  forall w,
    (forall x, keep x -> fs (m w).2 !! x = fs w !! x)
    /\ exists evs, trace (m w).2 = trace w ++ evs /\ forallb ok evs = true.

(** Where the run stands with a target [p] that held [c] at the start:
    nothing done to it; backed up; backed up and overwritten.  The backup
    is made of the text as it is read. *)
Inductive phase := Untouched | BackedUp | Patched.

Definition at_phase (p c : list N) (ph : phase) (w : world) : Prop :=
  match ph with
  | Untouched =>
      file_events p (trace w) = [] /\ fs w !! p = Some c
  | BackedUp =>
      file_events p (trace w) = backup_events p (universal_newlines c)
      /\ fs w !! p = Some c /\ fs w !! backup_of p = Some (universal_newlines c)
  | Patched =>
      (exists new,
         file_events p (trace w)
         = backup_events p (universal_newlines c) ++ [ETrunc p; EWrite p new]
         /\ fs w !! p = Some new)
      /\ fs w !! backup_of p = Some (universal_newlines c)
  end.

Definition tracked (p c : list N) (w : world) : Prop :=
  exists ph, at_phase p c ph w.

(** [triple P m Q]: from a world in [P], the statement [m] leaves a world
    in [Q], whether it returns or raises. *)
Definition triple {A} (P : world -> Prop) (m : M A) (Q : world -> Prop) : Prop :=
  forall w, P w -> Q (m w).2.

(** [allows ok keep p]: a statement confined to [ok] and [keep] may read,
    empty and write the file [p]. *)
Definition allows (ok : event -> bool) (keep : list N -> Prop) (p : list N)
  : Prop :=
  ok (ERead p) = true /\ ok (ETrunc p) = true
  /\ (forall d, ok (EWrite p d) = true) /\ ~ keep p.

(** What [replace_get_embedding] hands on and what it prints. *)
Definition replaced_text (content : list N) : list N :=
  match Re.search Re.DOTALL pattern content with
  | Some _ => Re.sub Re.DOTALL pattern (strip GET_EMBEDDING_FIXED) content
  | None =>
      match Re.search Re.no_flags alt_pattern content with
      | Some _ =>
          Re.sub Re.no_flags alt_pattern (strip GET_EMBEDDING_FIXED) content
      | None => content
      end
  end.

Definition warning_line : list N :=
  py "[3.2] WARNING: Could not find get_embedding pattern. Manual fix needed.".

Definition replace_messages (content : list N) : list (list N) :=
  match Re.search Re.DOTALL pattern content with
  | Some _ => [py "[3.2] Replaced get_embedding function"]
  | None =>
      match Re.search Re.no_flags alt_pattern content with
      | Some _ => [py "[3.2] Replaced get_embedding (alt pattern)"]
      | None =>
          [warning_line;
           py "      Look for 'async def get_embedding' and replace with:";
           GET_EMBEDDING_FIXED]
      end
  end.

(** The version update of [step3]. *)
Definition update_version (content : list N) : list N :=
  Re.sub Re.no_flags version_pattern version_line content.

(** A statement that leaves [p] and its backup alone: the events it may
    add, and the files it must keep. *)
Definition off (p : list N) (e : event) : bool := negb (touches p e).
Definition pair_of (p : list N) (x : list N) : Prop :=
  x = p \/ x = backup_of p.

(** Neither a deployment nor a request to the service. *)
Definition quiet (e : event) : bool := negb (is_deploy e) && negb (is_request e).

(** [grows m]: [m] only adds to the trace. *)
Definition grows {A} (m : M A) : Prop :=
  confined (fun _ => true) (fun _ => False) m.

(** [emits P m]: however [m] ends, the trace then holds an event in [P]. *)
Definition emits {A} (P : event -> bool) (m : M A) : Prop :=
  forall w, existsb P (trace (m w).2) = true.

Definition never_raises {A} (m : M A) : Prop :=
  forall w, exists a, (m w).1 = Ok a.

(** The last lines the main program prints. *)
Definition manual_instructions : list (list N) :=
  [ nl ++ times (py "=") 60;
    py "READY TO DEPLOY";
    times (py "=") 60;
    nl ++ py "Run these commands manually:";
    py "  cd ~" ++ RAG_API_PATH ++ py "~";
    py "  fly deploy --now";
    [];
    py "Then run verification:";
    py "  python3 -c 'from CLAUDE_EXECUTE_NOW import step6_verify; step6_verify()'" ].

(** [returns P m Q]: from a world in [P], if [m] returns, it leaves a
    world in [Q]. *)
Definition returns {A} (P : world -> Prop) (m : M A) (Q : world -> Prop) : Prop :=
  forall w a w', P w -> m w = (Ok a, w') -> Q w'.

(** The target [p] and its backup are both missing. *)
Definition absent (p : list N) (w : world) : Prop :=
  fs w !! p = None /\ fs w !! backup_of p = None.

Definition no_backup (p : list N) (w : world) : Prop :=
  fs w !! backup_of p = None.

(** The three files as the script leaves them, for a [main.py] that held
    [c]. *)
Definition patched (c : list N) (w : world) : Prop :=
  fs w !! infra_path = Some INFRA_PY_FIXED
  /\ fs w !! main_path
     = Some (update_version (replaced_text (universal_newlines c)))
  /\ fs w !! metrics_path = Some METRICS_PY_FIXED.

(** *** Surroundings and worlds to run the script in *)

(** Surroundings in which nothing fails: every directory can be entered
    and every file opened, every child exits with status 0 and prints
    nothing, the server answers with an empty body. *)
Definition calm : environment :=
  Environment (fun _ => None) (fun _ => None)
              (fun _ => Ok (Completed 0 [] [])) (fun _ => Ok [])
              (fun _ => 0).

Definition old_infra : list N := unlines [py "import redis"].

Definition old_main : list N :=
  unlines
    [ py "APP_VERSION = ~1.0.5~";
      py "async def get_embedding(text: str):";
      py "    resp = await client.embeddings.create(input=text)";
      py "    return resp.data[0].embedding" ].

Definition old_metrics : list N :=
  unlines [py "from prometheus_client import Counter"].

(** Texts with the line endings of another system: no function and no
    version in them. *)
Definition dos_text : list N :=
  py "import redis" ++ [13; 10] ++ py "x = 1" ++ [13] ++ py "end".

Definition unix_text : list N :=
  py "import redis" ++ [10] ++ py "x = 1" ++ [10] ++ py "end".

(** A main.py that only the fallback pattern finds, and one that neither
    pattern finds. *)
Definition other_main : list N :=
  unlines
    [ py "APP_VERSION = ~1.0.5~";
      py "async def get_embedding(query: str):";
      py "    vector = await client.embed(query)";
      py "    return vector.embedding" ].

Definition plain_main : list N :=
  unlines [ py "APP_VERSION = ~1.0.5~"; py "print(APP_VERSION)" ].

(** A checkout with the three files in place, and one with [main.py]
    only. *)
Definition checkout : world :=
  World (<[infra_path := old_infra]>
         (<[main_path := old_main]> (<[metrics_path := old_metrics]> ∅)))
        (py "/") [] [] 0.

Definition bare : world :=
  World (<[main_path := old_main]> ∅) (py "/") [] [] 0.

(** A world with [main.py] only, holding [c]. *)
Definition only_main (c : list N) : world :=
  World (<[main_path := c]> ∅) (py "/") [] [] 0.

(** A checkout whose three files have the line endings of another
    system. *)
Definition dos_checkout : world :=
  World (<[infra_path := dos_text]>
         (<[main_path := dos_text]> (<[metrics_path := dos_text]> ∅)))
        (py "/") [] [] 0.

End ScriptSpec.

(* ===================================================================== *)
(** ** Vocabulary for the statements about the breaker *)
(* ===================================================================== *)

Module BreakerSpec.
Import Breaker.

Section Calls.
Context {S A : Type}.

(** Calls made one after the other, each at its own time and with its
    own operation; the outcomes in order, and the breaker and the state
    of the dependency after the last one. *)
Fixpoint call_all (calls : list (Z * M S A)) (bs : breaker * S)
  : list (result A) * (breaker * S) :=
  match calls with
  | [] => ([], bs)
  | (now, operation) :: rest =>
      let (r, bs') := call now operation bs in
      let (rs, bs'') := call_all rest bs' in
      (r :: rs, bs'')
  end.

(** A call made before the breaker may be probed again. *)
Definition early (b : breaker) (c : Z * M S A) : Prop :=
  (c.1 - open_since b < reset_timeout b)%Z.

End Calls.

(** A breaker as the scenario of section 8 has it after three failures
    at time [t]: threshold 3, timeout 60. *)
Definition tripped (t : Z) : breaker :=
  Breaker (py "embedding") OPEN 3 3 t 60 1 3 0 3 0.

(** An operation that counts how often it has run. *)
Definition counting : M nat unit := fun n => (Ok tt, Datatypes.S n).

End BreakerSpec.

(* ===================================================================== *)
(** ** Vocabulary for the statements about the installed [infra.py] *)
(* ===================================================================== *)

Module InfraSpec.
Import Infra.

Section Process.
Context {X : Type}.

(** The process with its environment variables replaced. *)
Definition with_environ (env : gmap (list N) (list N)) (p : process (X := X))
  : process :=
  Process env (_redis_client p) (openai_client p) (log p) (events p) (made p)
          (outside p).

Definition setenv (var value : list N) (p : process (X := X)) : process :=
  with_environ (<[var := value]> (environ p)) p.

Definition unsetenv (var : list N) (p : process (X := X)) : process :=
  with_environ (delete var (environ p)) p.

(** The process with more records handed to the logger. *)
Definition logged (entries : list (level * list N)) (p : process (X := X))
  : process :=
  Process (environ p) (_redis_client p) (openai_client p) (log p ++ entries)
          (events p) (made p) (outside p).

(** The process once a variable has been read. *)
Definition having_read (var : list N) (p : process (X := X)) : process :=
  Process (environ p) (_redis_client p) (openai_client p) (log p)
          (events p ++ [EGetenv var]) (made p) (outside p).

(** Calls of [get_redis_client] one after the other, the environment
    replaced before each. *)
Fixpoint later_calls (from_url_error : list N -> option exn)
    (envs : list (gmap (list N) (list N))) (p : process (X := X))
  : list (result Redis) * process :=
  match envs with
  | [] => ([], p)
  | env :: rest =>
      let (r, p') := get_redis_client from_url_error (with_environ env p) in
      let (rs, p'') := later_calls from_url_error rest p' in
      (r :: rs, p'')
  end.

(** The ["status"] entry of what [health_check] returned. *)
Definition status (out : result (gmap (list N) (list N)) * process (X := X))
  : option (list N) :=
  match out.1 with
  | Ok d => d !! py "status"
  | Raise _ => None
  end.

End Process.

Definition not_configured : exn := Exn ValueError (py "REDIS_URL not configured").

(** *** A process to run the module in *)

(** A breaker that lets every call through. *)
Definition direct {X : Type} (A : Type) (_ : breaker_id)
    (operation : Py.M (process (X := X)) A) : Py.M (process (X := X)) A :=
  operation.

(** An embedding service that is down. *)
Definition service_down {X : Type} (_ _ : list N)
  : Py.M (process (X := X)) (response (F := Z)) :=
  raise (Exn OtherError (py "Connection error."))%py_m.

(** Every URL and every key is accepted. *)
Definition any_url (_ : list N) : option exn := None.
Definition any_key (_ : option (list N)) : option exn := None.

(** A process about to import the module, with these variables set. *)
Definition fresh (env : gmap (list N) (list N)) : process (X := unit) :=
  Process env None None [] [] 0 tt.

Definition key_only : gmap (list N) (list N) :=
  {[ py "OPENAI_API_KEY" := py "test-key" ]}.

Definition redis_at (url : list N) : gmap (list N) (list N) :=
  <[py "REDIS_URL" := url]> key_only.

End InfraSpec.

(* ===================================================================== *)
(** ** Vocabulary for the statements about the installed [metrics.py] *)
(* ===================================================================== *)

Module MetricsSpec.
Import Metrics.

(** The module's globals once it has been imported into a fresh
    interpreter. *)
Definition loaded : globals := (import_module empty_globals).2.

Definition calls : list N := py "voiceroi_circuit_calls_total".
Definition failures : list N := py "voiceroi_circuit_failures_total".
Definition rejections : list N := py "voiceroi_circuit_rejections_total".

(** Two metrics are apart when they are different objects that share no
    time series. *)
Definition apart (m m' : metric) : Prop :=
  m <> m' /\ forall n, n ∈ timeseries m -> n ∉ timeseries m'.

End MetricsSpec.

(* ===================================================================== *)
(** ** Vocabulary for the outcomes of the steps *)
(* ===================================================================== *)

Module ScriptOutcomes.
Import Script ScriptSpec.

(** [outcome P m Q R]: from a world in [P], the statement [m] leaves a
    world in [Q] when it returns and one in [R] when it raises. *)
Definition outcome {A} (P : world -> Prop) (m : M A) (Q R : world -> Prop)
  : Prop :=
  forall w, P w ->
    match (m w).1 with
    | Ok _ => Q (m w).2
    | Raise _ => R (m w).2
    end.

(** [main.py] is missing and [metrics.py] is as it was in [w0]; the
    files a statement must leave alone for that. *)
Definition main_missing (w0 w : world) : Prop :=
  fs w !! main_path = None
  /\ fs w !! metrics_path = fs w0 !! metrics_path
  /\ file_events metrics_path (trace w) = file_events metrics_path (trace w0).

Definition aside (x : list N) : Prop := x = main_path \/ pair_of metrics_path x.

(** The commands of step 1, in order. *)
Definition greps : list (list (list N)) :=
  [ [py "grep"; py "-rn"; py "embeddings.create"; py "app/"];
    [py "grep"; py "-rn"; py "get_embedding"; py "app/"];
    [py "grep"; py "-n"; py "APP_VERSION"; py "app/main.py"] ].

Definition curl_healthz : list (list N) :=
  [py "curl"; py "-s"; py "https://voiceroi-rag-api.fly.dev/healthz"].

(** The number step 6 puts in its [j]-th query when [d] numbers had been
    drawn before the step. *)
Definition draw (E : environment) (d : nat) : N :=
  10000 + env_rand E d mod (99999 - 10000 + 1).

(** The requests of step 6: the query with number [r], and the metrics. *)
Definition query_request (API_KEY : list N) (r : N) : request :=
  Request (API_URL ++ py "/query")
          (Some (json_question (py "Unique test query " ++ str_of_N r
                                  ++ py " about VoiceROI investment")))
          [(py "Content-Type", py "application/json");
           (py "x-api-key", API_KEY)]
          (py "POST").

Definition metrics_request : request :=
  Request (API_URL ++ py "/metrics") None [] (py "GET").

(** Surroundings in which a request fails only with an [Exception]. *)
Definition fails_softly (E : environment) : Prop :=
  forall r e, env_urlopen E r = Raise e -> isinstance e Exception = true.

(** The three patch steps: the target, the step, and the text the step
    writes for a target that held [c], which step 3 reads in text mode. *)
Definition patch_steps (E : environment)
  : list (list N * M unit * (list N -> list N)) :=
  [ (infra_path, step2_fix_infra E, fun _ => INFRA_PY_FIXED);
    (main_path, step3_fix_main_get_embedding E,
     fun c => update_version (replaced_text (universal_newlines c)));
    (metrics_path, step4_fix_metrics E, fun _ => METRICS_PY_FIXED) ].

(** Surroundings in which the directory cannot be entered, and in which
    the backup of [infra.py] cannot be created. *)
Definition no_directory : environment :=
  Environment (fun _ => Some (no_such_file RAG_API_PATH)) (fun _ => None)
              (fun _ => Ok (Completed 0 [] [])) (fun _ => Ok [])
              (fun _ => 0).

Definition read_only : exn := Exn OSError (py "[Errno 30] Read-only file system").

Definition no_backups : environment :=
  Environment (fun _ => None)
              (fun p => if bool_decide (p = backup_of infra_path)
                        then Some read_only else None)
              (fun _ => Ok (Completed 0 [] [])) (fun _ => Ok [])
              (fun _ => 0).

(** Surroundings in which the deployment exits with status 1. *)
Definition deploy_fails : environment :=
  Environment (fun _ => None) (fun _ => None)
              (fun argv => if bool_decide (argv = fly_deploy)
                           then Ok (Completed 1 [] (py "no access"))
                           else Ok (Completed 0 [] []))
              (fun _ => Ok []) (fun _ => 0).

(** Surroundings in which every query is refused and the metrics hold
    the series with the count [7]. *)
Definition refusing : environment :=
  Environment (fun _ => None) (fun _ => None)
              (fun _ => Ok (Completed 0 [] []))
              (fun r => if bool_decide (req_method r = py "POST")
                        then Raise (Exn URLError (py "HTTP Error 401: Unauthorized"))
                        else Ok (py "voiceroi_circuit_calls_total{name=~embedding~} 7"))
              (fun d => N.of_nat d).

End ScriptOutcomes.

(* ===================================================================== *)
(** ** Vocabulary for the cases of the installed [infra.py] *)
(* ===================================================================== *)

Module InfraCases.
Import Infra InfraSpec.


(** The process once a client has been asked for at [url]. *)
Definition having_asked {X : Type} (url : list N) (p : process (X := X))
  : process :=
  Process (environ p) (_redis_client p) (openai_client p) (log p)
          (events p ++ [EGetenv (py "REDIS_URL"); EFromUrl url]) (made p)
          (outside p).

(** The process with the client [c] cached and counted. *)
Definition having_made {X : Type} (c : Redis) (p : process (X := X))
  : process :=
  Process (environ p) (Some c) (openai_client p) (log p) (events p)
          (S (made p)) (outside p).




Definition open_record (text : list N) : level * list N :=
  (WARNING, py "embed_text: Circuit OPEN, cannot embed '"
              ++ take 40 text ++ py "...'").

Definition failed_record (e : exn) : level * list N :=
  (ERROR, py "embed_text: Failed to embed text: " ++ exn_str e).



(** A URL that is refused, and a service that answers without data. *)
Definition bad_scheme : exn :=
  Exn ValueError (py "Redis URL must specify one of the following schemes").

Definition refuse_http (url : list N) : option exn :=
  if starts_with (py "http") url then Some bad_scheme else None.



End InfraCases.

(* ===================================================================== *)
(** ** Facts about the matcher *)
(* ===================================================================== *)

Module ReFacts.
Import Re ReSpec.

Section Matcher.
Variable fl : flags.

Lemma one_shrinking a k : shrinking k -> shrinking (one fl a k).
Proof.
  intros Hk st [|c s] st' r; simpl; [done|].
  destruct (accepts fl a c); [|done].
  intros H%Hk. by apply suffix_cons_r.
Qed.

Lemma greedy_shrinking a k : shrinking k -> shrinking (greedy fl a k).
Proof.
  intros Hk st s. induction s as [|c s IH]; intros st' r; simpl.
  - apply Hk.
  - destruct (accepts fl a c); [|apply Hk].
    destruct (greedy fl a k st s) as [[st1 r1]|] eqn:Hg.
    + intros [= <- <-]. apply suffix_cons_r. by eapply IH.
    + apply Hk.
Qed.

Lemma lazy_shrinking a k : shrinking k -> shrinking (lazy fl a k).
Proof.
  intros Hk st s. induction s as [|c s IH]; intros st' r; simpl.
  - destruct (k st []) as [[st1 r1]|] eqn:Hg; [|done].
    intros [= <- <-]. by eapply Hk.
  - destruct (k st (c :: s)) as [[st1 r1]|] eqn:Hg.
    + intros [= <- <-]. by eapply Hk.
    + destruct (accepts fl a c); [|done].
      intros H%IH. by apply suffix_cons_r.
Qed.

Lemma match_here_shrinking p : shrinking (match_here fl p).
Proof.
  induction p as [|[a q| |] p IH]; simpl.
  - intros st s st' r [= <- <-]. done.
  - destruct q; auto using one_shrinking, greedy_shrinking, lazy_shrinking.
  - intros st s st' r H. by eapply IH.
  - intros st s st' r H. by eapply IH.
Qed.

Lemma starts_with_one_consuming p : starts_with_one p = true -> consuming fl p.
Proof.
  destruct p as [|[a q| |] p]; simpl; try done.
  intros Hq st [|c s] st' r; destruct q; simpl; try done;
    destruct (accepts fl a c); try done; intros H.
  - apply match_here_shrinking, suffix_length in H. simpl. lia.
  - apply (greedy_shrinking a _ (match_here_shrinking p)), suffix_length in H.
    simpl. lia.
  - apply (lazy_shrinking a _ (match_here_shrinking p)), suffix_length in H.
    simpl. lia.
Qed.

Lemma match_at_None p i s :
  match_at fl p i s = None <-> match_here fl p (None, []) s = None.
Proof.
  unfold match_at. destruct (match_here fl p (None, []) s) as [[[? ?] ?]|]; done.
Qed.

Lemma sub_go_skip p repl n s :
  (n <= length s)%nat -> sub_go fl p repl n s = sub_go fl p repl 0 (drop n s).
Proof.
  revert s. induction n as [|n IH]; intros s Hn; [by rewrite drop_0|].
  destruct s as [|c s]; simpl in *; [lia|]. apply IH. lia.
Qed.

Lemma sub_go_replaced p repl :
  consuming fl p ->
  forall len s, length s = len -> exists n, replaced fl p repl n s (sub_go fl p repl 0 s).
Proof.
  intros Hp len. induction len as [len IH] using lt_wf_ind. intros s Hlen.
  destruct s as [|c s'].
  - simpl. destruct (match_at fl p 0 []) as [m|] eqn:Hm.
    + unfold match_at in Hm.
      destruct (match_here fl p (None, []) []) as [[[o gs] r]|] eqn:Hh; [|done].
      apply Hp in Hh. simpl in Hh. lia.
    + exists 0%nat. constructor.
  - cbn [sub_go].
    destruct (match_at fl p 0 (c :: s')) as [m|] eqn:Hm.
    + unfold match_at in Hm.
      destruct (match_here fl p (None, []) (c :: s')) as [[[o gs] r]|] eqn:Hh;
        [|done].
      injection Hm as <-. cbn [m_group0].
      pose proof (Hp _ _ _ _ Hh) as Hlt.
      assert (length (c :: s') = S (length s')) as Hc by done.
      destruct (match_here_shrinking _ _ _ _ _ Hh) as [pre Hpre].
      assert (length pre = (length (c :: s') - length r)%nat) as Hlp.
      { rewrite Hpre, length_app. lia. }
      rewrite length_take, Nat.min_l by lia. rewrite <- ?Hc.
      destruct (length (c :: s') - length r)%nat as [|n] eqn:Hk; [lia|].
      rewrite sub_go_skip by lia.
      assert (drop n s' = r) as ->.
      { change (drop n s') with (drop (S n) (c :: s')).
        rewrite Hpre, <- Hlp. by rewrite drop_app_length. }
      destruct (IH (length r)) with (s := r) as [k Hk']; [lia|done|].
      exists (S k). rewrite Hpre. rewrite Hpre in Hh.
      eapply replaced_match; [|exact Hh|exact Hk'].
      intros ->. simpl in Hlp. lia.
    + apply match_at_None in Hm.
      destruct (IH (length s')) with (s := s') as [k Hk]; [simpl in Hlen; lia|done|].
      exists k. by constructor.
Qed.

Lemma sub_replaced p repl s :
  consuming fl p -> exists n, replaced fl p repl n s (sub fl p repl s).
Proof. intros Hp. by eapply sub_go_replaced. Qed.

(** Nothing replaced: the text is as it was. *)
Lemma replaced_zero p repl s t : replaced fl p repl 0 s t -> t = s.
Proof.
  intros H. remember 0%nat as n eqn:Hn. induction H; [done| |done].
  f_equal. auto.
Qed.

(** The relation determines the result. *)
Lemma replaced_functional p repl n1 n2 s t1 t2 :
  replaced fl p repl n1 s t1 -> replaced fl p repl n2 s t2 -> n1 = n2 /\ t1 = t2.
Proof.
  intros H1. revert n2 t2.
  induction H1 as [|c s t n Hnone H1 IH|m rest t n st Hm Hmatch H1 IH];
    intros n2 t2 H2.
  - inversion H2; subst; [done|].
    match goal with H : _ ++ _ = [] |- _ => apply app_eq_nil in H as [-> ->] end.
    done.
  - inversion H2; subst.
    + edestruct IH as [-> ->]; eauto.
    + match goal with
      | H : ?a ++ ?b = c :: s, H' : match_here _ _ _ (?a ++ ?b) = Some _ |- _ =>
          rewrite H in H'; congruence
      end.
  - inversion H2; subst.
    + match goal with H : [] = _ ++ _ |- _ =>
        symmetry in H; apply app_eq_nil in H as [-> ->] end.
      done.
    + match goal with
      | H : ?c :: ?s0 = m ++ rest, H' : match_here _ _ _ (?c :: ?s0) = None |- _ =>
          rewrite H in H'; congruence
      end.
    + match goal with
      | H : ?a ++ ?b = m ++ rest, H' : match_here _ _ _ (?a ++ ?b) = Some _ |- _ =>
          rewrite H, Hmatch in H'; injection H' as <- <-
      end.
      edestruct IH as [-> ->]; eauto.
Qed.

(** [search] finds nothing exactly when no position has a match. *)
Lemma search_from_None p i s :
  search_from fl p i s = None ->
  forall pre r, s = pre ++ r -> match_here fl p (None, []) r = None.
Proof.
  revert i. induction s as [|c s IH]; intros i; simpl.
  - destruct (match_at fl p i []) eqn:Hm; [done|]. intros _ pre r Hr.
    symmetry in Hr. apply app_eq_nil in Hr as [-> ->].
    by apply match_at_None in Hm.
  - destruct (match_at fl p i (c :: s)) eqn:Hm; [done|]. intros Hs pre r Hr.
    destruct pre as [|c' pre]; simpl in Hr.
    + subst r. by apply match_at_None in Hm.
    + injection Hr as -> ->. by eapply IH.
Qed.

Lemma search_from_None_intro p i s :
  (forall pre r, s = pre ++ r -> match_here fl p (None, []) r = None) ->
  search_from fl p i s = None.
Proof.
  revert i. induction s as [|c s IH]; intros i H; simpl.
  - pose proof (H [] [] eq_refl) as H0. apply (match_at_None p i) in H0.
    by rewrite H0.
  - pose proof (H [] (c :: s) eq_refl) as H0. apply (match_at_None p i) in H0.
    rewrite H0. apply IH. intros pre r ->. by apply (H (c :: pre)).
Qed.

Lemma search_None_replaced p repl s n t :
  search fl p s = None -> replaced fl p repl n s t -> n = 0%nat /\ t = s.
Proof.
  intros Hs H. induction H as [|c s t n Hnone H IH|m rest t n st Hm Hmatch H IH].
  - done.
  - destruct IH as [-> ->]; [|done].
    apply search_from_None_intro. intros pre r ->.
    by apply (search_from_None p 0 _ Hs (c :: pre)).
  - pose proof (search_from_None p 0 _ Hs [] (m ++ rest) eq_refl). congruence.
Qed.

(** Without a match anywhere, [sub] gives the text back. *)
Lemma sub_no_match p repl s :
  consuming fl p -> search fl p s = None -> sub fl p repl s = s.
Proof.
  intros Hp Hs. destruct (sub_replaced p repl s Hp) as [n Hn].
  by destruct (search_None_replaced _ _ _ _ _ Hs Hn).
Qed.

(** With a match somewhere, [sub] replaces at least one. *)
Lemma search_Some_replaced p repl s n t m :
  consuming fl p -> search fl p s = Some m -> replaced fl p repl n s t -> (0 < n)%nat.
Proof.
  intros Hp Hs H. destruct n; [|lia]. exfalso.
  assert (search fl p s = None) as Hnone; [|congruence].
  clear Hs. remember 0%nat as z eqn:Hz.
  induction H as [|c s t n Hnone H IH|]; [| |done].
  - apply search_from_None_intro. intros pre r Hr.
    symmetry in Hr. apply app_eq_nil in Hr as [-> ->].
    destruct (match_here fl p (None, []) []) as [[st r]|] eqn:Hh; [|done].
    apply Hp in Hh. simpl in Hh. lia.
  - apply search_from_None_intro. intros pre r Hr.
    destruct pre as [|c' pre]; simpl in Hr.
    + by subst r.
    + injection Hr as -> Hr. by apply (search_from_None p 0 s (IH Hz) pre).
Qed.

End Matcher.
End ReFacts.

(* ===================================================================== *)
(** ** Facts about the script *)
(* ===================================================================== *)

Module ScriptFacts.
Import Script ScriptSpec.

Lemma paths_NoDup :
  NoDup [infra_path; backup_of infra_path; main_path; backup_of main_path;
         metrics_path; backup_of metrics_path].
Proof. apply (bool_decide_unpack _). vm_compute. reflexivity. Qed.

Section Confined.
Context (E : environment) (ok : event -> bool) (keep : list N -> Prop).

Lemma confined_ret {A} (a : A) : confined ok keep (ret a).
Proof. intros w. split; [done|]. exists []. by rewrite app_nil_r. Qed.

Lemma confined_raise {A} e : confined ok keep (raise (A := A) e).
Proof. intros w. split; [done|]. exists []. by rewrite app_nil_r. Qed.

Lemma confined_bind {A B} (m : M A) (k : A -> M B) :
  confined ok keep m -> (forall a, confined ok keep (k a)) ->
  confined ok keep (bind m k).
Proof.
  intros Hm Hk w. unfold bind. destruct (Hm w) as [Hf (evs & Ht & Hok)].
  destruct (m w) as [[a|e] w1]; simpl in *.
  - destruct (Hk a w1) as [Hf' (evs' & Ht' & Hok')]. split.
    + intros x Hx. by rewrite Hf', Hf.
    + exists (evs ++ evs'). split.
      * by rewrite Ht', Ht, <- app_assoc.
      * by rewrite forallb_app, Hok, Hok'.
  - split; [done|]. by exists evs.
Qed.

Lemma confined_print s : confined ok keep (print s).
Proof. intros w. split; [done|]. exists []. simpl. by rewrite app_nil_r. Qed.

Lemma confined_emit e : ok e = true -> confined ok keep (emit e).
Proof. intros He w. split; [done|]. exists [e]. simpl. by rewrite He. Qed.

Lemma confined_set_file p c : ~ keep p -> confined ok keep (set_file p c).
Proof.
  intros Hp w. split.
  - intros x Hx. simpl. apply lookup_insert_ne. by intros ->.
  - exists []. simpl. by rewrite app_nil_r.
Qed.

Lemma confined_path_exists p : confined ok keep (path_exists p).
Proof. intros w. split; [done|]. exists []. simpl. by rewrite app_nil_r. Qed.

Lemma confined_open_r p : confined ok keep (open_r p).
Proof.
  intros w. unfold open_r. destruct (fs w !! p); (split; [done|]);
    exists []; simpl; by rewrite app_nil_r.
Qed.

Lemma confined_read p : ok (ERead p) = true -> confined ok keep (read p).
Proof.
  intros He w. unfold read. destruct (fs w !! p); (split; [done|]).
  - exists [ERead p]. simpl. by rewrite He.
  - exists []. simpl. by rewrite app_nil_r.
Qed.

Lemma confined_open_w p :
  ok (ETrunc p) = true -> ~ keep p -> confined ok keep (open_w E p).
Proof.
  intros He Hp. unfold open_w. destruct (env_open_w E p).
  - apply confined_raise.
  - apply confined_bind; [by apply confined_emit|].
    intros _. by apply confined_set_file.
Qed.

Lemma confined_write p data :
  ok (EWrite p data) = true -> ~ keep p -> confined ok keep (write p data).
Proof.
  intros He Hp w. unfold write.
  apply confined_bind; [by apply confined_emit|].
  intros _. by apply confined_set_file.
Qed.

Lemma confined_chdir p : ok (EChdir p) = true -> confined ok keep (chdir E p).
Proof.
  intros He. unfold chdir. destruct (env_chdir E p).
  - apply confined_raise.
  - apply confined_bind; [by apply confined_emit|].
    intros _ w. split; [done|]. exists []. simpl. by rewrite app_nil_r.
Qed.

Lemma confined_subprocess_run argv :
  ok (ERun argv) = true -> confined ok keep (subprocess_run E argv).
Proof.
  intros He. unfold subprocess_run.
  apply confined_bind; [by apply confined_emit|].
  intros _. destruct (env_spawn E argv); [apply confined_ret|apply confined_raise].
Qed.

Lemma confined_banner s : confined ok keep (banner s).
Proof.
  unfold banner. repeat (apply confined_bind; [apply confined_print|intros _]).
  apply confined_print.
Qed.

Lemma confined_replace_get_embedding content :
  confined ok keep (replace_get_embedding content).
Proof.
  unfold replace_get_embedding.
  destruct (Re.search _ _ _); [|destruct (Re.search _ _ _)];
    repeat (apply confined_bind; [apply confined_print|intros _]);
    apply confined_ret.
Qed.

Lemma confined_step1 :
  ok (EChdir RAG_API_PATH) = true ->
  (forall argv, is_deploy (ERun argv) = false -> ok (ERun argv) = true) ->
  confined ok keep (step1_verify_state E).
Proof.
  intros Hc Hr. unfold step1_verify_state.
  repeat first
    [ apply confined_banner
    | apply confined_print
    | apply confined_ret
    | apply confined_chdir; exact Hc
    | apply confined_subprocess_run; apply Hr; vm_compute; reflexivity
    | apply confined_bind; [|intros ?] ].
Qed.

Lemma confined_patch_prefix p :
  allows ok keep p -> allows ok keep (p ++ py ".backup") ->
  forall s,
  confined ok keep
    (there <- path_exists p ;;
     if there : bool then
       open_r p ;;
       open_w E (p ++ py ".backup") ;;
       data <- read p ;;
       write (p ++ py ".backup") data ;;
       print s
     else ret tt).
Proof.
  intros (Hr & Ht & Hw & Hk) (Hr' & Ht' & Hw' & Hk') s.
  apply confined_bind; [apply confined_path_exists|]. intros [|].
  - repeat first
      [ apply confined_print
      | apply confined_open_r
      | by apply confined_open_w
      | by apply confined_read
      | by apply confined_write
      | apply confined_bind; [|intros ?] ].
  - apply confined_ret.
Qed.

Lemma confined_step2 :
  allows ok keep infra_path -> allows ok keep (backup_of infra_path) ->
  confined ok keep (step2_fix_infra E).
Proof.
  intros Hp Hb. pose proof Hp as (Hr & Ht & Hw & Hk).
  unfold step2_fix_infra.
  apply confined_bind; [apply confined_banner|]. intros _.
  apply confined_bind; [by apply confined_patch_prefix|]. intros _.
  apply confined_bind; [by apply confined_open_w|]. intros _.
  apply confined_bind; [by apply confined_write|]. intros _.
  apply confined_print.
Qed.

Lemma confined_step4 :
  allows ok keep metrics_path -> allows ok keep (backup_of metrics_path) ->
  confined ok keep (step4_fix_metrics E).
Proof.
  intros Hp Hb. pose proof Hp as (Hr & Ht & Hw & Hk).
  unfold step4_fix_metrics.
  apply confined_bind; [apply confined_banner|]. intros _.
  apply confined_bind; [by apply confined_patch_prefix|]. intros _.
  apply confined_bind; [by apply confined_open_w|]. intros _.
  apply confined_bind; [by apply confined_write|]. intros _.
  apply confined_print.
Qed.

Lemma confined_step3 :
  allows ok keep main_path -> allows ok keep (backup_of main_path) ->
  confined ok keep (step3_fix_main_get_embedding E).
Proof.
  intros (Hr & Ht & Hw & Hk) (Hr' & Ht' & Hw' & Hk').
  unfold step3_fix_main_get_embedding.
  repeat first
    [ apply confined_banner
    | apply confined_print
    | apply confined_open_r
    | apply confined_replace_get_embedding
    | by apply confined_open_w
    | by apply confined_read
    | by apply confined_write
    | apply confined_bind; [|intros ?] ].
Qed.

Lemma confined_main :
  ok (EChdir RAG_API_PATH) = true ->
  (forall argv, is_deploy (ERun argv) = false -> ok (ERun argv) = true) ->
  Forall (allows ok keep)
         [infra_path; backup_of infra_path; main_path; backup_of main_path;
          metrics_path; backup_of metrics_path] ->
  confined ok keep (main E).
Proof.
  intros Hc Hr Hall.
  repeat match goal with
         | H : Forall _ (_ :: _) |- _ => apply Forall_cons in H as [? H]
         end.
  unfold main.
  repeat lazymatch goal with
         | |- confined _ _ (bind _ _) => apply confined_bind; [|intros ?]
         | |- confined _ _ (print _) => apply confined_print
         | |- confined _ _ (step1_verify_state _) => by apply confined_step1
         | |- confined _ _ (step2_fix_infra _) => by apply confined_step2
         | |- confined _ _ (step3_fix_main_get_embedding _) =>
             by apply confined_step3
         | |- confined _ _ (step4_fix_metrics _) => by apply confined_step4
         end.
Qed.

End Confined.


Section Run.
Context (E : environment).

Lemma bind_bind {A B C} (m : M A) (k : A -> M B) (k' : B -> M C) w :
  bind (bind m k) k' w = bind m (fun a => bind (k a) k') w.
Proof. unfold bind. by destruct (m w) as [[a|e] w1]. Qed.

Lemma ret_bind {A B} (a : A) (k : A -> M B) w : bind (ret a) k w = k a w.
Proof. done. Qed.

Lemma raise_bind {A B} e (k : A -> M B) (w : world) :
  bind (raise e) k w = (Raise e, w).
Proof. done. Qed.

Lemma print_bind {B} s (k : unit -> M B) w :
  bind (print s) k w =
  k tt (World (fs w) (cwd w) (stdout w ++ [s]) (trace w) (draws w)).
Proof. done. Qed.

Lemma path_exists_bind {B} p (k : bool -> M B) w :
  bind (path_exists p) k w = k (bool_decide (is_Some (fs w !! p))) w.
Proof. done. Qed.

Lemma open_r_bind {B} p c (k : unit -> M B) w :
  fs w !! p = Some c -> bind (open_r p) k w = k tt w.
Proof. intros H. unfold bind, open_r. by rewrite H. Qed.

Lemma open_r_bind_None {B} p (k : unit -> M B) w :
  fs w !! p = None -> bind (open_r p) k w = (Raise (no_such_file p), w).
Proof. intros H. unfold bind, open_r. by rewrite H. Qed.

Lemma read_bind {B} p c (k : list N -> M B) w :
  fs w !! p = Some c ->
  bind (read p) k w =
  k (universal_newlines c)
    (World (fs w) (cwd w) (stdout w) (trace w ++ [ERead p]) (draws w)).
Proof. intros H. unfold bind, read. by rewrite H. Qed.

Lemma open_w_bind {B} p (k : unit -> M B) w :
  env_open_w E p = None ->
  bind (open_w E p) k w =
  k tt (World (<[p := []]> (fs w)) (cwd w) (stdout w) (trace w ++ [ETrunc p])
              (draws w)).
Proof. intros H. unfold bind, open_w. by rewrite H. Qed.

Lemma open_w_bind_Some {B} p e (k : unit -> M B) w :
  env_open_w E p = Some e -> bind (open_w E p) k w = (Raise e, w).
Proof. intros H. unfold bind, open_w. by rewrite H. Qed.

Lemma write_bind {B} p data (k : unit -> M B) w :
  bind (write p data) k w =
  k tt (World (<[p := default [] (fs w !! p) ++ data]> (fs w)) (cwd w)
              (stdout w) (trace w ++ [EWrite p data]) (draws w)).
Proof. done. Qed.

End Run.

Ltac run_step :=
  first
    [ rewrite bind_bind
    | rewrite ret_bind
    | rewrite raise_bind
    | rewrite print_bind
    | rewrite path_exists_bind
    | rewrite write_bind
    | erewrite open_w_bind by eassumption
    | erewrite open_w_bind_Some by eassumption
    | erewrite read_bind by (cbn [fs]; simplify_map_eq; done)
    | erewrite open_r_bind by (cbn [fs]; simplify_map_eq; done)
    | erewrite open_r_bind_None by (cbn [fs]; simplify_map_eq; done) ];
  cbn beta; cbn [fs cwd stdout trace draws].


Lemma paths_distinct :
  infra_path <> backup_of infra_path /\ infra_path <> main_path
  /\ infra_path <> backup_of main_path /\ infra_path <> metrics_path
  /\ infra_path <> backup_of metrics_path
  /\ backup_of infra_path <> main_path
  /\ backup_of infra_path <> backup_of main_path
  /\ backup_of infra_path <> metrics_path
  /\ backup_of infra_path <> backup_of metrics_path
  /\ main_path <> backup_of main_path /\ main_path <> metrics_path
  /\ main_path <> backup_of metrics_path
  /\ backup_of main_path <> metrics_path
  /\ backup_of main_path <> backup_of metrics_path
  /\ metrics_path <> backup_of metrics_path.
Proof.
  repeat split; apply (bool_decide_unpack _); vm_compute; reflexivity.
Qed.

Ltac fold_backups :=
  change backup_path with (backup_of infra_path) in *;
  change (main_path ++ py ".backup") with (backup_of main_path) in *;
  change (metrics_path ++ py ".backup") with (backup_of metrics_path) in *.

Ltac use_paths :=
  destruct paths_distinct as
    (? & ? & ? & ? & ? & ? & ? & ? & ? & ? & ? & ? & ? & ? & ?).

Lemma file_events_app p evs evs' :
  file_events p (evs ++ evs') = file_events p evs ++ file_events p evs'.
Proof. apply List.filter_app. Qed.

Ltac world_eq :=
  unfold print, ret; cbn [fs cwd stdout trace draws];
  rewrite <- ?app_assoc; reflexivity.

Section Steps.
Context (E : environment).

Lemma replace_get_embedding_run content w :
  replace_get_embedding content w =
  (Ok (replaced_text content),
   World (fs w) (cwd w) (stdout w ++ replace_messages content) (trace w)
         (draws w)).
Proof.
  unfold replace_get_embedding, replaced_text, replace_messages, warning_line.
  destruct (Re.search Re.DOTALL pattern content).
  { repeat run_step. world_eq. }
  destruct (Re.search Re.no_flags alt_pattern content).
  { repeat run_step. world_eq. }
  repeat run_step. world_eq.
Qed.

Lemma replace_get_embedding_bind {B} content (k : list N -> M B) w :
  bind (replace_get_embedding content) k w =
  k (replaced_text content)
    (World (fs w) (cwd w) (stdout w ++ replace_messages content) (trace w)
           (draws w)).
Proof. unfold bind. by rewrite replace_get_embedding_run. Qed.

(** *** The three patch steps on their own target *)

Lemma step2_phases c :
  triple (at_phase infra_path c Untouched) (step2_fix_infra E)
         (tracked infra_path c).
Proof.
  intros [f cw o t d] [Hev Hf]. cbn [fs trace] in *.
  unfold step2_fix_infra, banner. fold_backups.
  repeat run_step. rewrite Hf, bool_decide_eq_true_2 by done.
  use_paths.
  destruct (env_open_w E (backup_of infra_path)) as [e|] eqn:Hb.
  { repeat run_step. exists Untouched. done. }
  repeat run_step.
  destruct (env_open_w E infra_path) as [e|] eqn:Hi.
  { repeat run_step. exists BackedUp. cbn [at_phase fs trace snd].
    rewrite <- !app_assoc, file_events_app, Hev. simplify_map_eq.
    split; [|done]. vm_compute. reflexivity. }
  repeat run_step. exists Patched. unfold print. cbn [at_phase fs trace snd].
  rewrite <- !app_assoc, file_events_app, Hev. simplify_map_eq.
  split; [|done]. exists INFRA_PY_FIXED. split; [|done].
  vm_compute. reflexivity.
Qed.

Lemma step4_phases c :
  triple (at_phase metrics_path c Untouched) (step4_fix_metrics E)
         (tracked metrics_path c).
Proof.
  intros [f cw o t d] [Hev Hf]. cbn [fs trace] in *.
  unfold step4_fix_metrics, banner. fold_backups.
  repeat run_step. rewrite Hf, bool_decide_eq_true_2 by done.
  use_paths.
  destruct (env_open_w E (backup_of metrics_path)) as [e|] eqn:Hb.
  { repeat run_step. exists Untouched. done. }
  repeat run_step.
  destruct (env_open_w E metrics_path) as [e|] eqn:Hi.
  { repeat run_step. exists BackedUp. cbn [at_phase fs trace snd].
    rewrite <- !app_assoc, file_events_app, Hev. simplify_map_eq.
    split; [|done]. vm_compute. reflexivity. }
  repeat run_step. exists Patched. unfold print. cbn [at_phase fs trace snd].
  rewrite <- !app_assoc, file_events_app, Hev. simplify_map_eq.
  split; [|done]. exists METRICS_PY_FIXED. split; [|done].
  vm_compute. reflexivity.
Qed.

Lemma step3_phases c :
  triple (at_phase main_path c Untouched) (step3_fix_main_get_embedding E)
         (tracked main_path c).
Proof.
  intros [f cw o t d] [Hev Hf]. cbn [fs trace] in *.
  unfold step3_fix_main_get_embedding, banner. fold_backups.
  repeat run_step.
  use_paths.
  destruct (env_open_w E (backup_of main_path)) as [e|] eqn:Hb.
  { repeat run_step. exists Untouched. cbn [at_phase fs trace snd].
    rewrite file_events_app, Hev. done. }
  repeat run_step. rewrite replace_get_embedding_bind.
  cbn beta; cbn [fs cwd stdout trace draws]. repeat run_step.
  destruct (env_open_w E main_path) as [e|] eqn:Hi.
  { repeat run_step. exists BackedUp. cbn [at_phase fs trace snd].
    rewrite <- !app_assoc, file_events_app, Hev. simplify_map_eq.
    split; [|done]. vm_compute. reflexivity. }
  repeat run_step. exists Patched. unfold print. cbn [at_phase fs trace snd].
  rewrite <- !app_assoc, file_events_app, Hev. simplify_map_eq.
  split; [|done]. eexists. split; [|done].
  generalize (Re.sub Re.no_flags version_pattern version_line
                (replaced_text (universal_newlines c))).
  intros new. vm_compute. reflexivity.
Qed.

End Steps.

(** *** Rules for triples *)

Lemma triple_bind {A B} P Q R (m : M A) (k : A -> M B) :
  triple P m Q -> (forall a, triple Q (k a) R) -> (forall w, Q w -> R w) ->
  triple P (bind m k) R.
Proof.
  intros Hm Hk HQR w HP. specialize (Hm w HP). unfold bind.
  destruct (m w) as [[a|e] w1]; simpl in *; [by apply Hk|by apply HQR].
Qed.

Lemma triple_weaken {A} (P Q R : world -> Prop) (m : M A) :
  triple P m Q -> (forall w, Q w -> R w) -> triple P m R.
Proof. intros Hm HQR w HP. by apply HQR, Hm. Qed.

(** A statement that leaves [p] and its backup alone keeps the phase. *)
Lemma frame_phase {A} p c ph (m : M A) :
  confined (off p) (pair_of p) m ->
  triple (at_phase p c ph) m (at_phase p c ph).
Proof.
  intros Hm w Hph. destruct (Hm w) as [Hfs (evs & Ht & Hok)].
  assert (file_events p (trace (m w).2) = file_events p (trace w)) as Hev.
  { rewrite Ht, file_events_app.
    assert (file_events p evs = []) as ->; [|by rewrite app_nil_r].
    revert Hok. clear. unfold off, file_events.
    induction evs as [|e evs IH]; simpl; [done|].
    intros [H1 H2]%andb_prop. rewrite IH by done.
    by destruct (touches p e). }
  assert (fs (m w).2 !! p = fs w !! p) as Hp by (apply Hfs; by left).
  assert (fs (m w).2 !! backup_of p = fs w !! backup_of p) as Hb
    by (apply Hfs; by right).
  destruct ph; simpl in *; rewrite Hev, Hp, ?Hb; done.
Qed.

Lemma frame_tracked {A} p c (m : M A) :
  confined (off p) (pair_of p) m -> triple (tracked p c) m (tracked p c).
Proof. intros Hm w [ph Hph]. exists ph. by apply frame_phase. Qed.

Lemma untouched_tracked p c w : at_phase p c Untouched w -> tracked p c w.
Proof. by exists Untouched. Qed.

Lemma backup_of_ne p : p <> backup_of p.
Proof.
  unfold backup_of. intros H%(f_equal length). rewrite length_app in H.
  vm_compute (length (py ".backup")) in H. lia.
Qed.

Lemma touches_self p : touches p (ETrunc p) = true.
Proof. simpl. by rewrite bool_decide_eq_true_2. Qed.

(** Once the target has been emptied, the run is in the last phase. *)
Lemma tracked_patched p c w :
  tracked p c w -> ETrunc p ∈ trace w -> at_phase p c Patched w.
Proof.
  intros [ph Hph] Hin.
  assert (ETrunc p ∈ file_events p (trace w)) as Hin'.
  { unfold file_events. apply list_elem_of_In, List.filter_In.
    split; [by apply list_elem_of_In|apply touches_self]. }
  destruct ph; [| |done].
  - destruct Hph as [Hev _]. rewrite Hev in Hin'. by apply elem_of_nil in Hin'.
  - destruct Hph as [Hev _]. rewrite Hev in Hin'. unfold backup_events in Hin'.
    apply elem_of_cons in Hin' as [Heq|Hin'].
    + injection Heq as Heq. by apply backup_of_ne in Heq.
    + apply elem_of_cons in Hin' as [Heq|Hin']; [done|].
      by apply elem_of_nil in Hin'.
Qed.

Lemma off_allows p q :
  q <> p -> q <> backup_of p -> allows (off p) (pair_of p) q.
Proof.
  intros H1 H2. unfold allows, off, pair_of. simpl.
  rewrite !bool_decide_eq_false_2 by done.
  repeat split; try done. intros [?|?]; done.
Qed.

Lemma off_chdir p d : off p (EChdir d) = true.
Proof. done. Qed.

Lemma off_run p argv : off p (ERun argv) = true.
Proof. done. Qed.

Ltac frame_rest :=
  use_paths;
  repeat lazymatch goal with
         | |- confined _ _ (bind _ _) => apply confined_bind; [|intros ?]
         | |- confined _ _ (print _) => apply confined_print
         | |- confined _ _ (step1_verify_state _) =>
             apply confined_step1; [apply off_chdir|intros; apply off_run]
         | |- confined _ _ (step2_fix_infra _) =>
             apply confined_step2; apply off_allows; congruence
         | |- confined _ _ (step3_fix_main_get_embedding _) =>
             apply confined_step3; apply off_allows; congruence
         | |- confined _ _ (step4_fix_metrics _) =>
             apply confined_step4; apply off_allows; congruence
         end.

Ltac skip_step :=
  eapply triple_bind;
  [apply frame_phase; frame_rest|intros _|intros ?; apply untouched_tracked].

Section Main.
Context (E : environment).

Lemma main_tracks_infra c :
  triple (at_phase infra_path c Untouched) (main E) (tracked infra_path c).
Proof.
  unfold main. do 4 skip_step.
  eapply triple_bind; [apply step2_phases|intros _|done].
  apply frame_tracked. frame_rest.
Qed.

Lemma main_tracks_main c :
  triple (at_phase main_path c Untouched) (main E) (tracked main_path c).
Proof.
  unfold main. do 5 skip_step.
  eapply triple_bind; [apply step3_phases|intros _|done].
  apply frame_tracked. frame_rest.
Qed.

Lemma main_tracks_metrics c :
  triple (at_phase metrics_path c Untouched) (main E) (tracked metrics_path c).
Proof.
  unfold main. do 6 skip_step.
  eapply triple_bind; [apply step4_phases|intros _|done].
  apply frame_tracked. frame_rest.
Qed.

End Main.

(** *** Reading in text mode *)

Lemma universal_newlines_length n : forall s,
  (length s <= n)%nat ->
  (13 ∉ universal_newlines s) /\ (13 ∉ s -> universal_newlines s = s).
Proof.
  induction n as [|n IH]; intros [|c s] Hn; simpl in Hn;
    try lia; try (split; [apply not_elem_of_nil|done]).
  cbn [universal_newlines]. destruct (N.eqb_spec c 13) as [->|Hc].
  - split.
    + destruct s as [|d s].
      * intros [?|H]%elem_of_cons; [done|by apply elem_of_nil in H].
      * assert (13 ∉ universal_newlines s) as H1
          by (apply IH; simpl in Hn; lia).
        assert (13 ∉ universal_newlines (d :: s)) as H2
          by (apply IH; simpl in *; lia).
        destruct (d =? 10); intros [?|H]%elem_of_cons; done.
    + intros Hs. exfalso. apply Hs. left.
  - assert (length s <= n)%nat as Hlen by lia.
    destruct (IH s Hlen) as [Hfree Hsame]. split.
    + intros [?|H]%elem_of_cons; done.
    + intros Hs. rewrite Hsame; [done|]. intros H. apply Hs. by right.
Qed.


(** A text without carriage returns is read as it is. *)
Lemma universal_newlines_same s : 13 ∉ s -> universal_newlines s = s.
Proof. by apply (universal_newlines_length (length s)). Qed.

(** C2, as the spec has it, fails: a patched [infra.py] that had the
    line endings of another system is backed up with its line endings
    changed, so the backup does not hold the content the file had. *)
Lemma C2_backup_changes_line_endings :
  fs dos_checkout !! infra_path = Some dos_text
  /\ ETrunc infra_path ∈ trace (main calm dos_checkout).2
  /\ fs (main calm dos_checkout).2 !! backup_of infra_path = Some unix_text
  /\ unix_text <> dos_text.
Proof.
  split; [vm_compute; reflexivity|]. split; [|split].
  - apply list_elem_of_In. vm_compute.
    repeat first [left; reflexivity | right].
  - vm_compute. reflexivity.
  - vm_compute. discriminate.
Qed.

(** C2, amended.  For each of the three files the script patches, a file
    that was there with text [c] when the script started and that the run
    has overwritten has exactly one backup, at the same path with
    [.backup] appended.  The backup was created and filled once, before
    the file itself was emptied and rewritten, with [c] as it is read in
    text mode: [c] with each [CR LF] and each [CR] on its own turned into
    [LF], which is [c] itself when [c] holds no [CR].  The backup still
    holds that text when the run ends. *)
Theorem C2_backup_before_overwrite (E : Script.environment) (w : Script.world)
    (p c : list N) :
  p ∈ targets ->
  trace w = [] ->
  fs w !! p = Some c ->
  ETrunc p ∈ trace (main E w).2 ->
  fs (main E w).2 !! backup_of p = Some (universal_newlines c)
  /\ (exists new,
        file_events p (trace (main E w).2)
        = [ETrunc (backup_of p); EWrite (backup_of p) (universal_newlines c);
           ETrunc p; EWrite p new]
        /\ fs (main E w).2 !! p = Some new)
  /\ (13 ∉ c -> universal_newlines c = c).
Proof.
  intros Hp Ht Hc Hin.
  assert (at_phase p c Untouched w) as H0 by (split; [by rewrite Ht|done]).
  assert (tracked p c (main E w).2) as Htr.
  { unfold targets in Hp.
    repeat (apply elem_of_cons in Hp as [->|Hp]);
      [by apply main_tracks_infra|by apply main_tracks_main
      |by apply main_tracks_metrics|by apply elem_of_nil in Hp]. }
  destruct (tracked_patched _ _ _ Htr Hin) as [(new & Hev & Hnew) Hb].
  split; [done|]. split; [by exists new|].
  apply universal_newlines_same.
Qed.

Lemma C2_witness :
  fs (main calm dos_checkout).2 !! backup_of infra_path
  = Some (universal_newlines dos_text)
  /\ (exists new,
        file_events infra_path (trace (main calm dos_checkout).2)
        = [ETrunc (backup_of infra_path);
           EWrite (backup_of infra_path) (universal_newlines dos_text);
           ETrunc infra_path; EWrite infra_path new]
        /\ fs (main calm dos_checkout).2 !! infra_path = Some new)
  /\ (13 ∉ dos_text -> universal_newlines dos_text = dos_text).
Proof.
  apply (C2_backup_before_overwrite calm dos_checkout infra_path dos_text).
  - left.
  - reflexivity.
  - vm_compute. reflexivity.
  - apply list_elem_of_In. vm_compute.
    repeat first [left; reflexivity | right].
Defined.

(** *** A target that is not there *)

Section Absent.
Context (E : environment).

Lemma step2_absent_run w :
  fs w !! infra_path = None -> env_open_w E infra_path = None ->
  exists out,
    step2_fix_infra E w
    = (Ok tt, World (<[infra_path := INFRA_PY_FIXED]> (fs w)) (cwd w) out
                    (trace w ++ [ETrunc infra_path; EWrite infra_path INFRA_PY_FIXED])
                    (draws w)).
Proof.
  intros Hf Ho. destruct w as [f cw o t d]. cbn [fs trace cwd draws] in *.
  unfold step2_fix_infra, banner. repeat run_step.
  rewrite Hf, bool_decide_eq_false_2 by (by intros [? ?]).
  repeat run_step. rewrite lookup_insert_eq, insert_insert_eq.
  eexists. unfold print, id. cbn [fs cwd stdout trace draws app].
  rewrite <- !app_assoc. reflexivity.
Qed.

Lemma step4_absent_run w :
  fs w !! metrics_path = None -> env_open_w E metrics_path = None ->
  exists out,
    step4_fix_metrics E w
    = (Ok tt, World (<[metrics_path := METRICS_PY_FIXED]> (fs w)) (cwd w) out
                    (trace w ++ [ETrunc metrics_path;
                                 EWrite metrics_path METRICS_PY_FIXED])
                    (draws w)).
Proof.
  intros Hf Ho. destruct w as [f cw o t d]. cbn [fs trace cwd draws] in *.
  unfold step4_fix_metrics, banner. repeat run_step.
  rewrite Hf, bool_decide_eq_false_2 by (by intros [? ?]).
  repeat run_step. rewrite lookup_insert_eq, insert_insert_eq.
  eexists. unfold print, id. cbn [fs cwd stdout trace draws app].
  rewrite <- !app_assoc. reflexivity.
Qed.

End Absent.

Lemma frame_absent {A} p (m : M A) :
  confined (off p) (pair_of p) m -> triple (absent p) m (absent p).
Proof.
  intros Hm w [Hp Hb]. destruct (Hm w) as [Hfs _]. split.
  - rewrite Hfs; [done|by left].
  - rewrite Hfs; [done|by right].
Qed.

Lemma any_allows (keep : list N -> Prop) q :
  ~ keep q -> allows (fun _ => true) keep q.
Proof. by repeat split. Qed.

Lemma frame_no_backup {A} p (m : M A) :
  confined (fun _ => true) (eq (backup_of p)) m ->
  triple (no_backup p) m (no_backup p).
Proof.
  intros Hm w Hb. destruct (Hm w) as [Hfs _]. unfold no_backup.
  by rewrite Hfs.
Qed.

Ltac keep_rest :=
  use_paths;
  repeat lazymatch goal with
         | |- confined _ _ (bind _ _) => apply confined_bind; [|intros ?]
         | |- confined _ _ (print _) => apply confined_print
         | |- confined _ _ (step1_verify_state _) =>
             apply confined_step1; [reflexivity|intros; reflexivity]
         | |- confined _ _ (step2_fix_infra _) =>
             apply confined_step2; apply any_allows; congruence
         | |- confined _ _ (step3_fix_main_get_embedding _) =>
             apply confined_step3; apply any_allows; congruence
         | |- confined _ _ (step4_fix_metrics _) =>
             apply confined_step4; apply any_allows; congruence
         end.

Ltac skip_absent :=
  eapply triple_bind;
  [apply frame_absent; frame_rest|intros _|intros ? [_ ?]; assumption].

Section MainAbsent.
Context (E : environment).

Lemma step2_absent :
  triple (absent infra_path) (step2_fix_infra E) (no_backup infra_path).
Proof.
  intros w [Hp Hb]. unfold no_backup.
  destruct (env_open_w E infra_path) as [e|] eqn:Ho.
  - destruct w as [f cw o t d]. cbn [fs] in *.
    unfold step2_fix_infra, banner. repeat run_step.
    rewrite Hp, bool_decide_eq_false_2 by (by intros [? ?]).
    repeat run_step. done.
  - destruct (step2_absent_run E w Hp Ho) as [out ->]. cbn [snd fs].
    use_paths. by rewrite lookup_insert_ne.
Qed.

Lemma step4_absent :
  triple (absent metrics_path) (step4_fix_metrics E) (no_backup metrics_path).
Proof.
  intros w [Hp Hb]. unfold no_backup.
  destruct (env_open_w E metrics_path) as [e|] eqn:Ho.
  - destruct w as [f cw o t d]. cbn [fs] in *.
    unfold step4_fix_metrics, banner. repeat run_step.
    rewrite Hp, bool_decide_eq_false_2 by (by intros [? ?]).
    repeat run_step. done.
  - destruct (step4_absent_run E w Hp Ho) as [out ->]. cbn [snd fs].
    use_paths. by rewrite lookup_insert_ne.
Qed.

Lemma main_absent_infra :
  triple (absent infra_path) (main E) (no_backup infra_path).
Proof.
  unfold main. do 4 skip_absent.
  eapply triple_bind; [apply step2_absent|intros _|done].
  apply frame_no_backup. keep_rest.
Qed.

Lemma main_absent_metrics :
  triple (absent metrics_path) (main E) (no_backup metrics_path).
Proof.
  unfold main. do 6 skip_absent.
  eapply triple_bind; [apply step4_absent|intros _|done].
  apply frame_no_backup. keep_rest.
Qed.

End MainAbsent.

(** C10.  For [infra.py] and [metrics.py]: when the file is not there and
    can be created, the step that patches it returns without an error,
    and all it does to the files is to create the target and write the
    new text to it, so no backup is made; and when there was no backup
    either, there is none after the whole script has run. *)
Theorem C10_absent_target_no_backup (E : Script.environment) (w : Script.world)
    (p : list N) (step : Script.M unit) (text : list N) :
  (p, step, text) ∈ [(infra_path, step2_fix_infra E, INFRA_PY_FIXED);
                     (metrics_path, step4_fix_metrics E, METRICS_PY_FIXED)] ->
  fs w !! p = None ->
  env_open_w E p = None ->
  (exists w',
     step w = (Ok tt, w')
     /\ trace w' = trace w ++ [ETrunc p; EWrite p text]
     /\ fs w' = <[p := text]> (fs w))
  /\ (fs w !! backup_of p = None ->
      fs (main E w).2 !! backup_of p = None).
Proof.
  intros Hin Hp Ho.
  apply elem_of_cons in Hin as [[= -> -> ->]|Hin];
    [|apply elem_of_cons in Hin as [[= -> -> ->]|Hin];
      [|by apply elem_of_nil in Hin]].
  - split.
    + destruct (step2_absent_run E w Hp Ho) as [out ->]. by eexists.
    + intros Hb. by apply main_absent_infra.
  - split.
    + destruct (step4_absent_run E w Hp Ho) as [out ->]. by eexists.
    + intros Hb. by apply main_absent_metrics.
Qed.

Lemma C10_witness :
  (exists w',
     step4_fix_metrics calm bare = (Ok tt, w')
     /\ trace w' = trace bare ++ [ETrunc metrics_path;
                                  EWrite metrics_path METRICS_PY_FIXED]
     /\ fs w' = <[metrics_path := METRICS_PY_FIXED]> (fs bare))
  /\ (fs bare !! backup_of metrics_path = None ->
      fs (main calm bare).2 !! backup_of metrics_path = None).
Proof.
  apply (C10_absent_target_no_backup calm bare metrics_path
           (step4_fix_metrics calm) METRICS_PY_FIXED).
  - right. left.
  - vm_compute. reflexivity.
  - reflexivity.
Defined.

(** *** Step 3 on a file that is there *)

Lemma patterns_consuming :
  ReSpec.consuming Re.DOTALL pattern
  /\ ReSpec.consuming Re.no_flags alt_pattern
  /\ ReSpec.consuming Re.no_flags version_pattern.
Proof.
  repeat split; apply ReFacts.starts_with_one_consuming; vm_compute; reflexivity.
Qed.

Section Step3.
Context (E : environment).

Lemma step3_run w content :
  fs w !! main_path = Some content ->
  env_open_w E (backup_of main_path) = None ->
  env_open_w E main_path = None ->
  let text := universal_newlines content in
  step3_fix_main_get_embedding E w
  = (Ok tt,
     World (<[main_path := update_version (replaced_text text)]>
            (<[backup_of main_path := text]> (fs w)))
           (cwd w)
           (stdout w
            ++ [nl ++ times (py "=") 60;
                py "STEP 3: Fixing main.py get_embedding";
                times (py "=") 60;
                py "[3.1] Backed up main.py"]
            ++ replace_messages text
            ++ [py "[3.3] Updated APP_VERSION";
                py "[3.4] Written fixed main.py"])
           (trace w
            ++ [ERead main_path; ETrunc (backup_of main_path);
                EWrite (backup_of main_path) text; ETrunc main_path;
                EWrite main_path (update_version (replaced_text text))])
           (draws w)).
Proof.
  intros Hf Hb Ho text. subst text.
  destruct w as [f cw o t d]. cbn [fs cwd stdout trace draws] in *.
  unfold step3_fix_main_get_embedding, banner. fold_backups.
  repeat run_step. rewrite replace_get_embedding_bind.
  cbn beta; cbn [fs cwd stdout trace draws]. repeat run_step.
  unfold print, update_version. cbn [fs cwd stdout trace draws].
  rewrite !lookup_insert_eq. cbn [from_option app].
  rewrite !insert_insert_eq, <- !app_assoc. reflexivity.
Qed.

End Step3.

Lemma warning_in_messages content :
  Re.search Re.DOTALL pattern content = None ->
  Re.search Re.no_flags alt_pattern content = None ->
  replaced_text content = content /\ warning_line ∈ replace_messages content.
Proof.
  intros H1 H2. unfold replaced_text, replace_messages. rewrite H1, H2.
  split; [done|left].
Qed.

(** C3, as the spec has it, fails: a [main.py] with the line endings of
    another system, in which neither pattern nor a version is found, is
    not written back unchanged. *)
Lemma C3_unmatched_text_changes_line_endings :
  Re.search Re.DOTALL pattern dos_text = None
  /\ Re.search Re.no_flags alt_pattern dos_text = None
  /\ Re.search Re.no_flags version_pattern dos_text = None
  /\ (step3_fix_main_get_embedding calm (only_main dos_text)).1 = Ok tt
  /\ fs (step3_fix_main_get_embedding calm (only_main dos_text)).2 !! main_path
     = Some unix_text
  /\ unix_text <> dos_text.
Proof.
  repeat split; try (vm_compute; reflexivity). vm_compute. discriminate.
Qed.

(** C3, amended.  On a [main.py] that is there and can be rewritten,
    step 3 returns.  It works on the text as it is read in text mode:
    the content with each [CR LF] and each [CR] on its own turned into
    [LF], which is the content itself when that holds no [CR].  In that
    text the [get_embedding] function is replaced, at each place it is
    found, by the primary pattern when that is found at all; otherwise by
    the fallback pattern when that is found; when neither is found the
    text goes on as it was read and the warning is printed.  The version
    update is applied in every case: what is written is the text from the
    first stage with each [APP_VERSION] assignment replaced and every
    other character kept, so with neither pattern and no assignment found
    the text read is written back. *)
Theorem C3_step3_replacement (E : Script.environment) (w : Script.world)
    (content : list N) :
  fs w !! main_path = Some content ->
  env_open_w E (backup_of main_path) = None ->
  env_open_w E main_path = None ->
  exists w' text body written,
    step3_fix_main_get_embedding E w = (Ok tt, w')
    /\ fs w' !! main_path = Some written
    /\ text = universal_newlines content
    /\ (13 ∉ content -> text = content)
    /\ (exists n, ReSpec.replaced Re.no_flags version_pattern version_line
                                  n body written)
    /\ (is_Some (Re.search Re.DOTALL pattern text) ->
        exists n, (0 < n)%nat
           /\ ReSpec.replaced Re.DOTALL pattern (strip GET_EMBEDDING_FIXED)
                              n text body)
    /\ (Re.search Re.DOTALL pattern text = None ->
        is_Some (Re.search Re.no_flags alt_pattern text) ->
        exists n, (0 < n)%nat
           /\ ReSpec.replaced Re.no_flags alt_pattern (strip GET_EMBEDDING_FIXED)
                              n text body)
    /\ (Re.search Re.DOTALL pattern text = None ->
        Re.search Re.no_flags alt_pattern text = None ->
        body = text /\ warning_line ∈ stdout w'
        /\ (Re.search Re.no_flags version_pattern text = None ->
            written = text)).
Proof.
  intros Hf Hb Ho. destruct patterns_consuming as (Hp & Ha & Hv).
  set (text := universal_newlines content).
  eexists _, text, (replaced_text text), (update_version (replaced_text text)).
  split; [by apply step3_run|]. cbn [fs stdout].
  split; [by rewrite lookup_insert_eq|].
  split; [done|]. split; [apply universal_newlines_same|].
  split; [by apply ReFacts.sub_replaced|].
  split; [|split].
  - intros [m Hm]. unfold replaced_text. rewrite Hm.
    destruct (ReFacts.sub_replaced Re.DOTALL pattern (strip GET_EMBEDDING_FIXED)
                text Hp) as [n Hn].
    exists n. split; [|done].
    exact (ReFacts.search_Some_replaced _ _ _ _ _ _ _ Hp Hm Hn).
  - intros Hnone [m Hm]. unfold replaced_text. rewrite Hnone, Hm.
    destruct (ReFacts.sub_replaced Re.no_flags alt_pattern
                (strip GET_EMBEDDING_FIXED) text Ha) as [n Hn].
    exists n. split; [|done].
    exact (ReFacts.search_Some_replaced _ _ _ _ _ _ _ Ha Hm Hn).
  - intros H1 H2. destruct (warning_in_messages text H1 H2) as [Hsame Hwarn].
    split; [done|]. split.
    + rewrite !elem_of_app. right. right. by left.
    + intros H3. rewrite Hsame. unfold update_version.
      by apply ReFacts.sub_no_match.
Qed.

(** The three ways through step 3: a text in which the primary pattern
    is found, one in which only the fallback pattern is found, and one in
    which neither is. *)
Lemma C3_witness :
  (Re.search Re.DOTALL pattern old_main <> None
   /\ (exists w' text body written,
     step3_fix_main_get_embedding calm (only_main old_main) = (Ok tt, w')
     /\ fs w' !! main_path = Some written
     /\ text = universal_newlines old_main
     /\ (13 ∉ old_main -> text = old_main)
     /\ (exists n, ReSpec.replaced Re.no_flags version_pattern version_line
                                   n body written)
     /\ (is_Some (Re.search Re.DOTALL pattern text) ->
         exists n, (0 < n)%nat
            /\ ReSpec.replaced Re.DOTALL pattern (strip GET_EMBEDDING_FIXED)
                               n text body)
     /\ (Re.search Re.DOTALL pattern text = None ->
         is_Some (Re.search Re.no_flags alt_pattern text) ->
         exists n, (0 < n)%nat
            /\ ReSpec.replaced Re.no_flags alt_pattern
                               (strip GET_EMBEDDING_FIXED) n text body)
     /\ (Re.search Re.DOTALL pattern text = None ->
         Re.search Re.no_flags alt_pattern text = None ->
         body = text /\ warning_line ∈ stdout w'
         /\ (Re.search Re.no_flags version_pattern text = None ->
             written = text))))
  /\ (Re.search Re.DOTALL pattern other_main = None
      /\ Re.search Re.no_flags alt_pattern other_main <> None
      /\ (exists w' text body written,
     step3_fix_main_get_embedding calm (only_main other_main) = (Ok tt, w')
     /\ fs w' !! main_path = Some written
     /\ text = universal_newlines other_main
     /\ (13 ∉ other_main -> text = other_main)
     /\ (exists n, ReSpec.replaced Re.no_flags version_pattern version_line
                                   n body written)
     /\ (is_Some (Re.search Re.DOTALL pattern text) ->
         exists n, (0 < n)%nat
            /\ ReSpec.replaced Re.DOTALL pattern (strip GET_EMBEDDING_FIXED)
                               n text body)
     /\ (Re.search Re.DOTALL pattern text = None ->
         is_Some (Re.search Re.no_flags alt_pattern text) ->
         exists n, (0 < n)%nat
            /\ ReSpec.replaced Re.no_flags alt_pattern
                               (strip GET_EMBEDDING_FIXED) n text body)
     /\ (Re.search Re.DOTALL pattern text = None ->
         Re.search Re.no_flags alt_pattern text = None ->
         body = text /\ warning_line ∈ stdout w'
         /\ (Re.search Re.no_flags version_pattern text = None ->
             written = text))))
  /\ (Re.search Re.DOTALL pattern plain_main = None
      /\ Re.search Re.no_flags alt_pattern plain_main = None
      /\ (exists w' text body written,
     step3_fix_main_get_embedding calm (only_main plain_main) = (Ok tt, w')
     /\ fs w' !! main_path = Some written
     /\ text = universal_newlines plain_main
     /\ (13 ∉ plain_main -> text = plain_main)
     /\ (exists n, ReSpec.replaced Re.no_flags version_pattern version_line
                                   n body written)
     /\ (is_Some (Re.search Re.DOTALL pattern text) ->
         exists n, (0 < n)%nat
            /\ ReSpec.replaced Re.DOTALL pattern (strip GET_EMBEDDING_FIXED)
                               n text body)
     /\ (Re.search Re.DOTALL pattern text = None ->
         is_Some (Re.search Re.no_flags alt_pattern text) ->
         exists n, (0 < n)%nat
            /\ ReSpec.replaced Re.no_flags alt_pattern
                               (strip GET_EMBEDDING_FIXED) n text body)
     /\ (Re.search Re.DOTALL pattern text = None ->
         Re.search Re.no_flags alt_pattern text = None ->
         body = text /\ warning_line ∈ stdout w'
         /\ (Re.search Re.no_flags version_pattern text = None ->
             written = text)))).
Proof.
  split; [|split].
  - split; [vm_compute; discriminate|].
    apply (C3_step3_replacement calm (only_main old_main) old_main).
    + vm_compute. reflexivity.
    + reflexivity.
    + reflexivity.
  - split; [vm_compute; reflexivity|]. split; [vm_compute; discriminate|].
    apply (C3_step3_replacement calm (only_main other_main) other_main).
    + vm_compute. reflexivity.
    + reflexivity.
    + reflexivity.
  - split; [vm_compute; reflexivity|]. split; [vm_compute; reflexivity|].
    apply (C3_step3_replacement calm (only_main plain_main) plain_main).
    + vm_compute. reflexivity.
    + reflexivity.
    + reflexivity.
Defined.

(** *** What the deployment and the verification add to the trace *)

Section Confined2.
Context (E : environment) (ok : event -> bool) (keep : list N -> Prop).

Lemma confined_urlopen r :
  ok (EUrlopen r) = true -> confined ok keep (urlopen E r).
Proof.
  intros He. unfold urlopen.
  apply confined_bind; [by apply confined_emit|].
  intros _. destruct (env_urlopen E r); [apply confined_ret|apply confined_raise].
Qed.

Lemma confined_randint lo hi : confined ok keep (randint E lo hi).
Proof. intros w. split; [done|]. exists []. simpl. by rewrite app_nil_r. Qed.

Lemma confined_for_ {A} (xs : list A) (body : A -> M unit) :
  (forall x, confined ok keep (body x)) -> confined ok keep (for_ xs body).
Proof.
  intros Hbody. induction xs as [|x xs IH]; simpl.
  - apply confined_ret.
  - apply confined_bind; [apply Hbody|by intros _].
Qed.

Lemma handler_for_Forall {H} (P : H -> Prop) e (clauses : list (exn_class * H)) h :
  Forall (fun c => P c.2) clauses -> handler_for e clauses = Some h -> P h.
Proof.
  induction 1 as [|[c h'] clauses Hc _ IH]; simpl; [done|].
  destruct (isinstance e c); [by intros [= <-]|done].
Qed.

Lemma confined_try_with {A} (body : M A) clauses :
  confined ok keep body ->
  Forall (fun c => forall e, confined ok keep (c.2 e)) clauses ->
  confined ok keep (try_with body clauses).
Proof.
  intros Hbody Hcl w. unfold try_with.
  destruct (Hbody w) as [Hf (evs & Ht & Hok)].
  destruct (body w) as [[a|e] w1]; simpl in *; [split; [done|]; by exists evs|].
  destruct (handler_for e clauses) as [h|] eqn:Hh;
    [|split; [done|]; by exists evs].
  pose proof (handler_for_Forall (fun h => forall e, confined ok keep (h e))
                e clauses h Hcl Hh) as Hconf.
  destruct (Hconf e w1) as [Hf' (evs' & Ht' & Hok')]. split.
  - intros x Hx. by rewrite Hf', Hf.
  - exists (evs ++ evs'). split.
    + by rewrite Ht', Ht, <- app_assoc.
    + by rewrite forallb_app, Hok, Hok'.
Qed.

Lemma confined_query API_KEY i :
  (forall r, ok (EUrlopen r) = true) -> confined ok keep (query E API_KEY i).
Proof.
  intros Hu. unfold query. apply confined_bind; [apply confined_randint|].
  intros r. unfold try_except. apply confined_try_with.
  - apply confined_bind; [by apply confined_urlopen|].
    intros _. apply confined_print.
  - apply Forall_cons. split; [|by apply Forall_nil].
    intros e'. apply confined_print.
Qed.

Lemma confined_warn_and_fail : confined ok keep warn_and_fail.
Proof.
  unfold warn_and_fail. apply confined_bind; [apply confined_print|].
  intros _. apply confined_ret.
Qed.

Lemma confined_step5 :
  ok (EChdir RAG_API_PATH) = true -> (forall argv, ok (ERun argv) = true) ->
  confined ok keep (step5_deploy E).
Proof.
  intros Hc Hr. unfold step5_deploy.
  apply confined_bind; [apply confined_banner|intros _].
  apply confined_bind; [by apply confined_chdir|intros _].
  apply confined_bind; [apply confined_print|intros _].
  apply confined_bind; [by apply confined_subprocess_run|intros result].
  apply confined_bind; [apply confined_print|intros _].
  destruct (bool_decide _).
  - apply confined_bind; [apply confined_print|intros _]. apply confined_ret.
  - apply confined_bind; [apply confined_print|intros _].
    apply confined_bind; [by apply confined_subprocess_run|intros _].
    apply confined_ret.
Qed.

Lemma confined_step6 API_KEY :
  (forall r, ok (EUrlopen r) = true) ->
  confined ok keep (step6_verify E API_KEY).
Proof.
  intros Hu. unfold step6_verify.
  apply confined_bind; [apply confined_banner|intros _].
  apply confined_bind; [apply confined_print|intros _].
  apply confined_bind;
    [apply confined_for_; intros i; by apply confined_query|intros _].
  apply confined_bind; [apply confined_print|intros _].
  apply confined_bind; [by apply confined_urlopen|intros metrics].
  apply confined_bind.
  { apply confined_for_. intros line.
    destruct (_ || _); [apply confined_print|apply confined_ret]. }
  intros _. destruct (contains _ metrics); [|apply confined_warn_and_fail].
  destruct (Re.search _ _ _) as [m|]; [|apply confined_warn_and_fail].
  destruct (int_of_digits _) as [n|]; [|apply confined_raise].
  destruct (0 <? n); [|apply confined_warn_and_fail].
  apply confined_bind; [apply confined_print|intros _]. apply confined_ret.
Qed.

End Confined2.

Lemma grows_keeps {A} (P : event -> bool) (m : M A) w :
  grows m -> existsb P (trace w) = true -> existsb P (trace (m w).2) = true.
Proof.
  intros Hm Hw. destruct (Hm w) as [_ (evs & -> & _)].
  by rewrite existsb_app, Hw.
Qed.

Lemma emits_bind {A B} (P : event -> bool) (m : M A) (k : A -> M B) :
  emits P m -> (forall a, grows (k a)) -> emits P (bind m k).
Proof.
  intros Hm Hk w. specialize (Hm w). unfold bind.
  destruct (m w) as [[a|e] w1]; simpl in *; [|done].
  by apply grows_keeps.
Qed.

Lemma emits_try_with {A} (P : event -> bool) (body : M A) clauses :
  emits P body -> Forall (fun c => forall e, grows (c.2 e)) clauses ->
  emits P (try_with body clauses).
Proof.
  intros Hbody Hcl w. specialize (Hbody w). unfold try_with.
  destruct (body w) as [[a|e] w1]; simpl in *; [done|].
  destruct (handler_for e clauses) as [h|] eqn:Hh; [|done].
  apply grows_keeps; [|done].
  exact (handler_for_Forall (fun h => forall e, grows (h e)) e clauses h Hcl Hh e).
Qed.

Section Emits.
Context (E : environment).

Lemma chdir_bind {B} p (k : unit -> M B) w :
  env_chdir E p = None ->
  bind (chdir E p) k w
  = k tt (World (fs w) p (stdout w) (trace w ++ [EChdir p]) (draws w)).
Proof. intros H. unfold bind, chdir. by rewrite H. Qed.

Lemma emits_deploy : emits is_deploy (subprocess_run E fly_deploy).
Proof.
  assert (is_deploy (ERun fly_deploy) = true) as Hd
    by (vm_compute; reflexivity).
  intros w. unfold subprocess_run, bind, emit.
  destruct (env_spawn E fly_deploy); cbn [ret raise snd trace];
    rewrite existsb_app; cbn [existsb]; by rewrite Hd, orb_true_r.
Qed.

Lemma randint_bind {B} lo hi (k : N -> M B) w :
  bind (randint E lo hi) k w
  = k (lo + env_rand E (draws w) mod (hi - lo + 1))
      (World (fs w) (cwd w) (stdout w) (trace w) (S (draws w))).
Proof. done. Qed.

Lemma emits_urlopen r : emits is_request (urlopen E r).
Proof.
  intros w. unfold urlopen, bind, emit.
  destruct (env_urlopen E r); cbn [ret raise snd trace];
    rewrite existsb_app; cbn [existsb is_request]; by rewrite orb_true_r.
Qed.

Lemma emits_query API_KEY i : emits is_request (query E API_KEY i).
Proof.
  intros w. unfold query. rewrite randint_bind. unfold try_except.
  apply emits_try_with.
  - apply emits_bind; [apply emits_urlopen|]. intros _. apply confined_print.
  - apply Forall_cons. split; [|by apply Forall_nil].
    intros e'. apply confined_print.
Qed.

Lemma step5_emits w :
  env_chdir E RAG_API_PATH = None ->
  existsb is_deploy (trace (step5_deploy E w).2) = true.
Proof.
  intros Hc. unfold step5_deploy, banner. repeat run_step.
  rewrite chdir_bind by done. repeat run_step.
  apply emits_bind; [apply emits_deploy|].
  intros result. apply confined_bind; [apply confined_print|intros _].
  destruct (bool_decide _).
  - apply confined_bind; [apply confined_print|intros _]. apply confined_ret.
  - apply confined_bind; [apply confined_print|intros _].
    apply confined_bind; [by apply confined_subprocess_run|intros _].
    apply confined_ret.
Qed.

Lemma for_cons_bind {A B} (x : A) xs (body : A -> M unit) (k : unit -> M B) w :
  bind (for_ (x :: xs) body) k w
  = bind (body x) (fun _ => bind (for_ xs body) k) w.
Proof. simpl. apply bind_bind. Qed.

Lemma step6_emits API_KEY w :
  existsb is_request (trace (step6_verify E API_KEY w).2) = true.
Proof.
  unfold step6_verify, banner. repeat run_step.
  change (seq 0 5) with (0%nat :: seq 1 4). rewrite for_cons_bind.
  apply emits_bind; [apply emits_query|].
  intros _. apply confined_bind.
  { apply confined_for_. intros i. by apply confined_query. }
  intros _. apply confined_bind; [apply confined_print|intros _].
  apply confined_bind; [by apply confined_urlopen|intros metrics].
  apply confined_bind.
  { apply confined_for_. intros line.
    destruct (_ || _); [apply confined_print|apply confined_ret]. }
  intros _. destruct (contains _ metrics); [|apply confined_warn_and_fail].
  destruct (Re.search _ _ _) as [m|]; [|apply confined_warn_and_fail].
  destruct (int_of_digits _) as [n|]; [|apply confined_raise].
  destruct (0 <? n); [|apply confined_warn_and_fail].
  apply confined_bind; [apply confined_print|intros _]. apply confined_ret.
Qed.

End Emits.

(** *** What a run that returns has done *)

Lemma returns_bind {A B} P Q R (m : M A) (k : A -> M B) :
  returns P m Q -> (forall a, returns Q (k a) R) -> returns P (bind m k) R.
Proof.
  intros Hm Hk w b w' HP. unfold bind.
  destruct (m w) as [[a|e] w1] eqn:Hw; [|done].
  intros Hrun. eapply Hk; [|exact Hrun]. by eapply Hm.
Qed.

Lemma returns_any {A} P (m : M A) : returns P m (fun _ => True).
Proof. done. Qed.

Lemma returns_frame {A} ok (keep : list N -> Prop) x
    (Q : option (list N) -> Prop) (m : M A) :
  confined ok keep m -> keep x ->
  returns (fun w => Q (fs w !! x)) m (fun w => Q (fs w !! x)).
Proof.
  intros Hm Hx w a w' HQ Hrun. destruct (Hm w) as [Hfs _].
  specialize (Hfs x Hx). rewrite Hrun in Hfs. simpl in Hfs. by rewrite Hfs.
Qed.

Ltac keep_file :=
  eapply returns_frame; [keep_rest|reflexivity].

Lemma quiet_allows q : allows quiet (fun _ => False) q.
Proof. unfold allows. do 3 (split; [done|]). by intros []. Qed.

Section Returns.
Context (E : environment).

Lemma step2_writes :
  returns (fun _ => True) (step2_fix_infra E)
          (fun w => fs w !! infra_path = Some INFRA_PY_FIXED).
Proof.
  intros [f cw o t d] a w' _. unfold step2_fix_infra, banner. fold_backups.
  repeat run_step. use_paths.
  destruct (f !! infra_path) as [c|] eqn:Hf.
  - rewrite bool_decide_eq_true_2 by done. repeat run_step.
    destruct (env_open_w E (backup_of infra_path)) as [e|] eqn:Hb;
      repeat run_step; [done|].
    destruct (env_open_w E infra_path) as [e|] eqn:Hi;
      repeat run_step; [done|].
    intros [= _ <-]. cbn [fs]. by rewrite lookup_insert_eq, lookup_insert_eq.
  - rewrite bool_decide_eq_false_2 by (by intros [? ?]). repeat run_step.
    destruct (env_open_w E infra_path) as [e|] eqn:Hi;
      repeat run_step; [done|].
    intros [= _ <-]. cbn [fs]. by rewrite lookup_insert_eq, lookup_insert_eq.
Qed.

Lemma step4_writes :
  returns (fun _ => True) (step4_fix_metrics E)
          (fun w => fs w !! metrics_path = Some METRICS_PY_FIXED).
Proof.
  intros [f cw o t d] a w' _. unfold step4_fix_metrics, banner. fold_backups.
  repeat run_step. use_paths.
  destruct (f !! metrics_path) as [c|] eqn:Hf.
  - rewrite bool_decide_eq_true_2 by done. repeat run_step.
    destruct (env_open_w E (backup_of metrics_path)) as [e|] eqn:Hb;
      repeat run_step; [done|].
    destruct (env_open_w E metrics_path) as [e|] eqn:Hi;
      repeat run_step; [done|].
    intros [= _ <-]. cbn [fs]. by rewrite lookup_insert_eq, lookup_insert_eq.
  - rewrite bool_decide_eq_false_2 by (by intros [? ?]). repeat run_step.
    destruct (env_open_w E metrics_path) as [e|] eqn:Hi;
      repeat run_step; [done|].
    intros [= _ <-]. cbn [fs]. by rewrite lookup_insert_eq, lookup_insert_eq.
Qed.

Lemma step3_writes v :
  returns (fun w => fs w !! main_path = v) (step3_fix_main_get_embedding E)
          (fun w =>
             exists c, v = Some c
               /\ fs w !! main_path
                  = Some (update_version (replaced_text (universal_newlines c)))).
Proof.
  intros w a w' Hv. destruct v as [c|].
  - destruct (env_open_w E (backup_of main_path)) as [e|] eqn:Hb.
    { destruct w as [f cw o t d]. cbn [fs] in Hv.
      unfold step3_fix_main_get_embedding, banner. fold_backups.
      repeat run_step. done. }
    destruct (env_open_w E main_path) as [e|] eqn:Hi.
    { destruct w as [f cw o t d]. cbn [fs] in Hv.
      unfold step3_fix_main_get_embedding, banner. fold_backups.
      repeat run_step. rewrite replace_get_embedding_bind.
      cbn beta; cbn [fs cwd stdout trace draws]. repeat run_step. done. }
    rewrite (step3_run E w c Hv Hb Hi). intros [= _ <-]. exists c.
    cbn [fs]. by rewrite lookup_insert_eq.
  - destruct w as [f cw o t d]. cbn [fs] in Hv.
    unfold step3_fix_main_get_embedding, banner. repeat run_step. done.
Qed.

Lemma instructions_run w :
  (print (nl ++ times (py "=") 60) ;;
   print (py "READY TO DEPLOY") ;;
   print (times (py "=") 60) ;;
   print (nl ++ py "Run these commands manually:") ;;
   print (py "  cd ~" ++ RAG_API_PATH ++ py "~") ;;
   print (py "  fly deploy --now") ;;
   print [] ;;
   print (py "Then run verification:") ;;
   print (py "  python3 -c 'from CLAUDE_EXECUTE_NOW import step6_verify; step6_verify()'")) w
  = (Ok tt, World (fs w) (cwd w) (stdout w ++ manual_instructions) (trace w)
                  (draws w)).
Proof.
  repeat run_step. unfold print, manual_instructions.
  cbn [fs cwd stdout trace draws]. rewrite <- !app_assoc. reflexivity.
Qed.

Lemma main_writes_infra :
  returns (fun _ => True) (main E)
          (fun w => fs w !! infra_path = Some INFRA_PY_FIXED).
Proof.
  unfold main. do 4 (eapply returns_bind; [apply returns_any|intros _]).
  eapply returns_bind; [apply step2_writes|intros _].
  apply (returns_frame (fun _ => true) (eq infra_path) infra_path
           (fun v => v = Some INFRA_PY_FIXED)); [keep_rest|done].
Qed.

Lemma main_writes_metrics :
  returns (fun _ => True) (main E)
          (fun w => fs w !! metrics_path = Some METRICS_PY_FIXED).
Proof.
  unfold main. do 6 (eapply returns_bind; [apply returns_any|intros _]).
  eapply returns_bind; [apply step4_writes|intros _].
  apply (returns_frame (fun _ => true) (eq metrics_path) metrics_path
           (fun v => v = Some METRICS_PY_FIXED)); [keep_rest|done].
Qed.

Lemma main_writes_main v :
  returns (fun w => fs w !! main_path = v) (main E)
          (fun w =>
             exists c, v = Some c
               /\ fs w !! main_path
                  = Some (update_version (replaced_text (universal_newlines c)))).
Proof.
  unfold main.
  do 5 (eapply returns_bind;
        [apply (returns_frame (fun _ => true) (eq main_path) main_path
                  (fun x => x = v)); [keep_rest|done]
        |intros _]).
  eapply returns_bind; [apply step3_writes|intros _].
  apply (returns_frame (fun _ => true) (eq main_path) main_path
           (fun x => exists c, v = Some c
                       /\ x = Some (update_version
                                       (replaced_text (universal_newlines c)))));
    [keep_rest|done].
Qed.

Lemma main_prints_instructions :
  returns (fun _ => True) (main E)
          (fun w => exists out, stdout w = out ++ manual_instructions).
Proof.
  unfold main. do 7 (eapply returns_bind; [apply returns_any|intros _]).
  intros w a w' _. rewrite instructions_run. intros [= _ <-].
  by exists (stdout w).
Qed.

Lemma main_quiet w :
  exists evs, trace (main E w).2 = trace w ++ evs /\ forallb quiet evs = true.
Proof.
  assert (confined quiet (fun _ => False) (main E)) as Hm.
  { apply confined_main.
    - reflexivity.
    - intros argv Hd. unfold quiet. by rewrite Hd.
    - repeat (apply Forall_cons; split; [apply quiet_allows|]).
      by apply Forall_nil. }
  by destruct (Hm w) as [_ ?].
Qed.

End Returns.

(** C1, as the spec has it, fails: in surroundings where nothing fails
    and on a checkout with the three files in place, the main program
    returns without having run [fly deploy] and without having sent a
    request to the service. *)
Lemma C1_main_neither_deploys_nor_verifies :
  (main calm checkout).1 = Ok tt
  /\ existsb is_deploy (trace (main calm checkout).2) = false
  /\ existsb is_request (trace (main calm checkout).2) = false.
Proof. repeat split; vm_compute; reflexivity. Qed.

(** C1, amended.  Run as the main program, the script does the patching
    only.  Nothing it does is a deployment or a request to the service;
    when it returns, the three files hold the new texts ([main.py] the
    text read from it, with the function replaced and the version
    updated) and the last lines printed are the instructions to deploy
    and verify by hand.  Deploying and verifying are left to
    [step5_deploy], which runs [fly deploy] whenever it gets into the
    directory, and to [step6_verify], which always sends a request. *)
Theorem C1_main_patches_only (E : Script.environment) (API_KEY : list N)
    (w : Script.world) :
  (exists evs,
     trace (main E w).2 = trace w ++ evs /\ forallb quiet evs = true)
  /\ ((main E w).1 = Ok tt ->
      (exists c, fs w !! main_path = Some c /\ patched c (main E w).2)
      /\ exists out, stdout (main E w).2 = out ++ manual_instructions)
  /\ (env_chdir E RAG_API_PATH = None ->
      existsb is_deploy (trace (step5_deploy E w).2) = true)
  /\ existsb is_request (trace (step6_verify E API_KEY w).2) = true.
Proof.
  split; [apply main_quiet|]. split; [|split].
  - destruct (main E w) as [r w'] eqn:Hrun. cbn [fst snd]. intros ->.
    destruct (main_writes_main E (fs w !! main_path) w tt w' eq_refl Hrun)
      as (c & Hc & Hmain).
    split.
    + exists c. split; [done|]. split; [|split; [done|]].
      * exact (main_writes_infra E w tt w' I Hrun).
      * exact (main_writes_metrics E w tt w' I Hrun).
    + exact (main_prints_instructions E w tt w' I Hrun).
  - apply step5_emits.
  - apply step6_emits.
Qed.

Lemma C1_witness :
  (exists evs,
     trace (main calm checkout).2 = trace checkout ++ evs
     /\ forallb quiet evs = true)
  /\ ((exists c, fs checkout !! main_path = Some c
                 /\ patched c (main calm checkout).2)
      /\ exists out, stdout (main calm checkout).2 = out ++ manual_instructions)
  /\ existsb is_deploy (trace (step5_deploy calm checkout).2) = true
  /\ existsb is_request (trace (step6_verify calm [] checkout).2) = true.
Proof.
  destruct (C1_main_patches_only calm [] checkout) as (H1 & H2 & H3 & H4).
  split; [exact H1|]. split; [apply H2; vm_compute; reflexivity|].
  split; [apply H3; reflexivity|exact H4].
Defined.

End ScriptFacts.

(* ===================================================================== *)
(** ** Facts about the breaker *)
(* ===================================================================== *)

Module BreakerFacts.
Import Breaker BreakerSpec.

Section Rejection.
Context {S A : Type}.

Lemma reject_keeps b :
  state (reject b) = state b /\ open_since (reject b) = open_since b
  /\ reset_timeout (reject b) = reset_timeout b
  /\ breaker_open_error (reject b) = breaker_open_error b.
Proof. by destruct b. Qed.

Lemma call_open_early (now : Z) (operation : M S A) b s :
  state b = OPEN -> (now - open_since b < reset_timeout b)%Z ->
  call now operation (b, s) = (Raise (breaker_open_error b), (reject b, s)).
Proof.
  intros Hst Hnow. unfold call. rewrite Hst.
  by apply Z.ltb_lt in Hnow as ->.
Qed.

Lemma early_reject b (c : Z * M S A) : early b c -> early (reject b) c.
Proof. unfold early. by destruct b. Qed.

Lemma iter_reject_succ n b :
  Nat.iter n reject (reject b) = Nat.iter (Datatypes.S n) reject b.
Proof. induction n as [|n IH]; [done|]. simpl in *. by rewrite IH. Qed.

End Rejection.

(** C8.  While the breaker is OPEN and [reset_timeout] has not elapsed
    since [open_since], every call is rejected with the breaker-open
    error, whatever the operation: no operation runs, so the state of the
    dependency stays as it was, and the breaker only counts the
    rejections. *)
Theorem C8_open_rejects_every_call {S A : Type} (calls : list (Z * M S A))
    (b : breaker) (s : S) :
  state b = OPEN ->
  Forall (early b) calls ->
  call_all calls (b, s)
  = (List.map (fun _ => Raise (breaker_open_error b)) calls,
     (Nat.iter (length calls) reject b, s))
  /\ exn_cls (breaker_open_error b) = CircuitBreakerOpen
  /\ state (Nat.iter (length calls) reject b) = OPEN.
Proof.
  intros Hst Hall.
  assert (call_all calls (b, s)
          = (List.map (fun _ => Raise (breaker_open_error b)) calls,
             (Nat.iter (length calls) reject b, s))) as Hrun.
  { revert b Hst Hall.
    induction calls as [|[now operation] calls IH]; intros b Hst Hall; [done|].
    apply Forall_cons in Hall as [Hnow Hall]. cbn [call_all].
    rewrite (call_open_early now operation b s Hst Hnow).
    destruct (reject_keeps b) as (Hs & _ & _ & He).
    rewrite IH.
    - cbn [List.map length]. by rewrite He, iter_reject_succ.
    - by rewrite Hs.
    - eapply Forall_impl; [done|]. intros c. apply early_reject. }
  split; [done|]. split; [done|].
  clear Hrun Hall. induction (length calls) as [|n IH]; [done|].
  rewrite Nat.iter_succ.
  destruct (reject_keeps (Nat.iter n reject b)) as (Hs & _).
  by rewrite Hs.
Qed.

(** The scenario of section 8: threshold 3, timeout 60, opened at [t =
    100]; calls at [t + 30] and [t + 59] are rejected and the operation
    has not run. *)
Lemma C8_witness :
  call_all [(130%Z, counting); (159%Z, counting)] (tripped 100, 0%nat)
  = (List.map (fun _ => Raise (breaker_open_error (tripped 100)))
              [(130%Z, counting); (159%Z, counting)],
     (Nat.iter 2 reject (tripped 100), 0%nat))
  /\ exn_cls (breaker_open_error (tripped 100)) = CircuitBreakerOpen
  /\ state (Nat.iter 2 reject (tripped 100)) = OPEN.
Proof.
  apply C8_open_rejects_every_call; [reflexivity|].
  repeat constructor; unfold early; simpl; lia.
Defined.

End BreakerFacts.

(* ===================================================================== *)
(** ** Facts about the installed [infra.py] *)
(* ===================================================================== *)

Module InfraFacts.
Import Infra InfraSpec.

Lemma breaker_open_is_exception e :
  isinstance e CircuitBreakerOpen = true -> isinstance e Exception = true.
Proof. destruct e as [[] msg]; done. Qed.

Lemma last_cons {A} (x d : A) l : List.last (x :: l) d = List.last l x.
Proof.
  revert x d. induction l as [|y l IH]; intros x d; [done|].
  change (List.last (x :: y :: l) d) with (List.last (y :: l) d).
  by rewrite !IH.
Qed.

Section Client.
Context {X : Type} (from_url_error : list N -> option exn).

Lemma get_redis_client_cached (p : process (X := X)) c :
  _redis_client p = Some c -> get_redis_client from_url_error p = (Ok c, p).
Proof. intros H. unfold get_redis_client. by rewrite H. Qed.

(** A call that returns has the client it returns in the cache. *)
Lemma get_redis_client_caches (p p1 : process (X := X)) c :
  get_redis_client from_url_error p = (Ok c, p1) -> _redis_client p1 = Some c.
Proof.
  unfold get_redis_client. destruct (_redis_client p) as [c0|] eqn:Hc.
  { by intros [= <- <-]. }
  unfold bind, getenv. cbn [environ].
  destruct (environ p !! py "REDIS_URL") as [[|u url]|]; [done| |done].
  unfold from_url. destruct (from_url_error (u :: url)); [done|].
  by intros [= <- <-].
Qed.

Lemma get_redis_client_unset (p : process (X := X)) :
  _redis_client p = None ->
  environ p !! py "REDIS_URL" = None \/ environ p !! py "REDIS_URL" = Some [] ->
  get_redis_client from_url_error p
  = (Raise not_configured, having_read (py "REDIS_URL") p).
Proof.
  intros Hc Hu. unfold get_redis_client. rewrite Hc.
  unfold bind, getenv. by destruct Hu as [-> | ->].
Qed.

Lemma later_calls_cached envs (p : process (X := X)) c :
  _redis_client p = Some c ->
  later_calls from_url_error envs p
  = (List.map (fun _ => Ok c) envs, with_environ (List.last envs (environ p)) p).
Proof.
  revert p. induction envs as [|env envs IH]; intros p Hc.
  { by destruct p. }
  cbn [later_calls].
  rewrite (get_redis_client_cached (with_environ env p) c) by done.
  rewrite IH by done. cbn [List.map]. f_equal.
  rewrite last_cons. by destruct p.
Qed.

End Client.

(** C9.  Once [get_redis_client] has returned a client, every later call
    returns that same client, whatever the environment variables have
    become in between: nothing is read from the environment, no client
    is constructed, and the process is as it was but for the variables. *)
Theorem C9_get_redis_client_idempotent {X : Type}
    (from_url_error : list N -> option exn) (p p1 : process (X := X)) (c : Redis)
    (envs : list (gmap (list N) (list N))) :
  get_redis_client from_url_error p = (Ok c, p1) ->
  later_calls from_url_error envs p1
  = (List.map (fun _ => Ok c) envs, with_environ (List.last envs (environ p1)) p1)
  /\ (made p1 <= made p + 1)%nat.
Proof.
  intros Hfirst. split.
  { apply later_calls_cached. by eapply get_redis_client_caches. }
  revert Hfirst. unfold get_redis_client.
  destruct (_redis_client p) as [c0|].
  { intros [= <- <-]. lia. }
  unfold bind, getenv. cbn [environ].
  destruct (environ p !! py "REDIS_URL") as [[|u url]|]; [done| |done].
  unfold from_url. destruct (from_url_error (u :: url)); [done|].
  intros [= <- <-]. simpl. lia.
Qed.

Lemma C9_witness :
  later_calls any_url [key_only; redis_at (py "redis://other:6379"); ∅]
    (get_redis_client any_url (fresh (redis_at (py "redis://cache:6379")))).2
  = (List.map (fun _ => Ok (MkRedis 0 (py "redis://cache:6379") true 5 5))
              [key_only; redis_at (py "redis://other:6379"); ∅],
     with_environ ∅
       (get_redis_client any_url (fresh (redis_at (py "redis://cache:6379")))).2)
  /\ (made (get_redis_client any_url
              (fresh (redis_at (py "redis://cache:6379")))).2
      <= made (fresh (redis_at (py "redis://cache:6379"))) + 1)%nat.
Proof.
  apply (C9_get_redis_client_idempotent any_url
           (fresh (redis_at (py "redis://cache:6379")))).
  vm_compute. reflexivity.
Defined.

Section Callers.
Context {X F : Type}.
Context (breaker_call :
           forall A : Type, breaker_id -> Py.M (process (X := X)) A
                            -> Py.M (process (X := X)) A).

Lemma logger_run l msg (p : process (X := X)) :
  logger l msg p = (Ok tt, logged [(l, msg)] p).
Proof. done. Qed.

Lemma logged_nil (p : process (X := X)) : logged [] p = p.
Proof. destruct p. unfold logged. simpl. by rewrite app_nil_r. Qed.

End Callers.

(** C5.  For every text and every breaker, what [embed_text] hands to its
    caller is what the call through the embedding breaker gave: the
    vector when there is one, and otherwise the very exception that came
    out of the breaker, be it the breaker's own or the operation's.  All
    [embed_text] adds is at most one record in the log. *)
Theorem C5_embed_text_propagates {X F : Type}
    (breaker_call :
       forall A : Type, breaker_id -> Py.M (process (X := X)) A
                        -> Py.M (process (X := X)) A)
    (embeddings_create :
       list N -> list N -> Py.M (process (X := X)) (response (F := F)))
    (text : list N) (p : process (X := X)) :
  let through :=
    breaker_call _ embedding_breaker (_do_embed embeddings_create text) p in
  let out := embed_text breaker_call embeddings_create text p in
  out.1 = through.1
  /\ exists entries, out.2 = logged entries through.2 /\ (length entries <= 1)%nat.
Proof.
  intros through out. subst through out.
  unfold embed_text, try_with, bind.
  destruct (breaker_call _ embedding_breaker _ p) as [[v|e] p'].
  - unfold logger, ret. cbn [fst snd]. split; [done|].
    eexists [_]. split; [reflexivity|]. simpl. lia.
  - cbn [handler_for].
    destruct (isinstance e CircuitBreakerOpen).
    { unfold logger, raise. cbn [fst snd]. split; [done|].
      eexists [_]. split; [reflexivity|]. simpl. lia. }
    destruct (isinstance e Exception).
    { unfold logger, raise. cbn [fst snd]. split; [done|].
      eexists [_]. split; [reflexivity|]. simpl. lia. }
    cbn [fst snd]. split; [done|]. exists []. split; [|simpl; lia].
    by rewrite logged_nil.
Qed.

(** C4.  [health_check] returns a dictionary whose ["status"] is
    ["healthy"] when the ping through the redis breaker returns,
    ["degraded"] when what comes out of the breaker is a
    [CircuitBreakerOpen], and ["unhealthy"] when it is any other
    [Exception]; what is not an [Exception] (a cancellation, a keyboard
    interrupt) is not a failure of the check and goes on to the caller. *)
Theorem C4_health_check_status {X : Type}
    (breaker_call :
       forall A : Type, breaker_id -> Py.M (process (X := X)) A
                        -> Py.M (process (X := X)) A)
    (ping : Redis -> Py.M (process (X := X)) unit)
    (from_url_error : list N -> option exn) (p : process (X := X)) :
  let out := health_check breaker_call ping from_url_error p in
  match (breaker_call _ redis_breaker (_do_ping ping from_url_error) p).1 with
  | Ok _ => status out = Some (py "healthy")
  | Raise e =>
      if isinstance e Exception then
        (exists s, status out = Some s
                   /\ (s = py "degraded" \/ s = py "unhealthy")
                   /\ (s = py "degraded" <-> isinstance e CircuitBreakerOpen = true))
      else out.1 = Raise e
  end.
Proof.
  intros out. subst out. unfold health_check, try_with, bind, status.
  destruct (breaker_call _ redis_breaker _ p) as [[v|e] p']; cbn [fst].
  { vm_compute. reflexivity. }
  cbn [handler_for].
  destruct (isinstance e CircuitBreakerOpen) eqn:Hopen.
  { rewrite (breaker_open_is_exception e Hopen).
    exists (py "degraded"). cbn [ret fst].
    split; [vm_compute; reflexivity|]. split; [by left|done]. }
  destruct (isinstance e Exception); [|done].
  exists (py "unhealthy"). cbn [ret fst logger].
  split; [|split; [by right|]].
  - rewrite lookup_insert_ne by (vm_compute; discriminate).
    by rewrite lookup_insert_eq.
  - split; [intros H; vm_compute in H; discriminate|done].
Qed.

Section Startup.
Context {X : Type} (openai_error : option (list N) -> option exn).

Lemma import_module_outcome (p : process (X := X)) :
  (import_module openai_error p).1
  = match openai_error (environ p !! py "OPENAI_API_KEY") with
    | Some e => Raise e
    | None => Ok tt
    end.
Proof.
  unfold import_module, bind, getenv. cbn [environ].
  by destruct (openai_error _).
Qed.

End Startup.

(** C6, as the spec has it, fails: with [REDIS_URL] unset the module is
    imported without an error, the first use of the client raises and
    leaves no client behind, and once the variable is set the next call
    goes through. *)
Lemma C6_missing_url_not_fatal_at_startup :
  let p1 := (import_module any_key (fresh key_only)).2 in
  let p2 := (get_redis_client any_url p1).2 in
  environ (fresh key_only) !! py "REDIS_URL" = None
  /\ (import_module any_key (fresh key_only)).1 = Ok tt
  /\ (get_redis_client any_url p1).1 = Raise not_configured
  /\ _redis_client p2 = None
  /\ (get_redis_client any_url
        (setenv (py "REDIS_URL") (py "redis://cache:6379") p2)).1
     = Ok (MkRedis 0 (py "redis://cache:6379") true 5 5).
Proof. repeat split; vm_compute; reflexivity. Qed.

(** C6, amended.  A missing [REDIS_URL] (unset or empty) is not looked at
    when the module is imported: the outcome of the import is the same
    whatever the variable holds.  It is reported by [get_redis_client],
    which raises [ValueError("REDIS_URL not configured")] whenever it is
    called with no client cached, leaves the cache empty, and so checks
    again on the next call: with the variable set by then to a URL that
    is accepted, that call returns a new client. *)
Theorem C6_missing_url_raises_on_use {X : Type}
    (openai_error : option (list N) -> option exn)
    (from_url_error : list N -> option exn) (p : process (X := X)) :
  _redis_client p = None ->
  environ p !! py "REDIS_URL" = None \/ environ p !! py "REDIS_URL" = Some [] ->
  (forall q : process (X := X),
     (import_module openai_error (unsetenv (py "REDIS_URL") q)).1
     = (import_module openai_error q).1)
  /\ get_redis_client from_url_error p
     = (Raise not_configured, having_read (py "REDIS_URL") p)
  /\ _redis_client (having_read (py "REDIS_URL") p) = None
  /\ forall url,
       url <> [] -> from_url_error url = None ->
       (get_redis_client from_url_error
          (setenv (py "REDIS_URL") url (having_read (py "REDIS_URL") p))).1
       = Ok (MkRedis (made p) url true 5 5).
Proof.
  intros Hc Hu. split; [|split; [|split]].
  - intros q. rewrite !import_module_outcome. unfold unsetenv. cbn [environ with_environ].
    rewrite lookup_delete_ne; [done|]. vm_compute. discriminate.
  - by apply get_redis_client_unset.
  - done.
  - intros url Hurl Hok.
    unfold get_redis_client, setenv, with_environ, having_read.
    cbn [_redis_client]. rewrite Hc. unfold bind, getenv.
    cbn [environ _redis_client openai_client log events made outside].
    rewrite lookup_insert_eq. destruct url as [|u url]; [done|].
    unfold from_url. by rewrite Hok.
Qed.

Lemma C6_witness :
  (forall q : process (X := unit),
     (import_module any_key (unsetenv (py "REDIS_URL") q)).1
     = (import_module any_key q).1)
  /\ get_redis_client any_url (fresh key_only)
     = (Raise not_configured, having_read (py "REDIS_URL") (fresh key_only))
  /\ _redis_client (having_read (py "REDIS_URL") (fresh key_only)) = None
  /\ forall url,
       url <> [] -> any_url url = None ->
       (get_redis_client any_url
          (setenv (py "REDIS_URL") url
                  (having_read (py "REDIS_URL") (fresh key_only)))).1
       = Ok (MkRedis (made (fresh key_only)) url true 5 5).
Proof.
  apply (C6_missing_url_raises_on_use any_key any_url (fresh key_only)).
  - reflexivity.
  - left. vm_compute. reflexivity.
Defined.

End InfraFacts.

(* ===================================================================== *)
(** ** Facts about the installed [metrics.py] *)
(* ===================================================================== *)

Module MetricsFacts.
Import Metrics MetricsSpec.

Lemma import_module_loaded : import_module empty_globals = (Ok tt, loaded).
Proof.
  assert ((import_module empty_globals).1 = Ok tt) as H
    by (vm_compute; reflexivity).
  unfold loaded. destruct (import_module empty_globals) as [r g].
  cbn [fst snd] in *. by subst.
Qed.

Lemma apart_by_series m m' :
  forallb (fun n => negb (bool_decide (n ∈ timeseries m'))) (timeseries m) = true ->
  timeseries m <> [] -> apart m m'.
Proof.
  intros Hall Hne. split.
  - intros <-. destruct (timeseries m) as [|n ns] eqn:Hm; [done|].
    simpl in Hall. apply andb_prop in Hall as [Hn _].
    apply negb_true_iff, bool_decide_eq_false in Hn. apply Hn. left.
  - intros n Hn. rewrite forallb_forall in Hall.
    apply list_elem_of_In, Hall in Hn.
    by apply negb_true_iff, bool_decide_eq_false in Hn.
Qed.

Lemma value_inc_other g var var' m m' label label' g' :
  bound g !! var = Some m -> bound g !! var' = Some m' ->
  sample_of m label <> sample_of m' label' ->
  inc var label g = (Ok tt, g') ->
  value g' var' label' = value g var' label'.
Proof.
  intros Hm Hm' Hne. unfold inc, value. rewrite Hm. intros [= <-].
  cbn [bound samples]. rewrite Hm'. simpl. by rewrite lookup_insert_ne.
Qed.

Lemma value_inc_same g var m label :
  bound g !! var = Some m ->
  exists g', inc var label g = (Ok tt, g')
    /\ value g' var label
       = Some (default 0 (samples g !! sample_of m label) + 1).
Proof.
  intros Hm. unfold inc, value. rewrite Hm. eexists. split; [done|].
  cbn [bound samples]. rewrite Hm. simpl. by rewrite lookup_insert_eq.
Qed.

Lemma sample_of_ne m m' label label' :
  strip_total (metric_name m) <> strip_total (metric_name m') ->
  sample_of m label <> sample_of m' label'.
Proof.
  intros Hne [= H _]. by apply app_inv_tail in H.
Qed.

(** C7.  Importing the module defines three counters: the rejections
    counter, the calls counter and the failures counter are different
    objects with no time series in common.  Whatever the samples hold,
    counting a rejection adds one to the rejections sample of that
    breaker and leaves every sample of the calls and failures counters as
    it was. *)
Theorem C7_rejections_counted_apart (g : globals) (label : list N) :
  bound g = bound loaded ->
  import_module empty_globals = (Ok tt, loaded)
  /\ exists r c f,
       bound loaded !! rejections = Some r
       /\ bound loaded !! calls = Some c
       /\ bound loaded !! failures = Some f
       /\ (kind_of r, metric_name r) = (Counter, rejections)
       /\ (kind_of c, metric_name c) = (Counter, calls)
       /\ (kind_of f, metric_name f) = (Counter, failures)
       /\ apart r c /\ apart r f
       /\ exists g' v,
            inc rejections label g = (Ok tt, g')
            /\ value g rejections label = Some v
            /\ value g' rejections label = Some (v + 1)
            /\ forall label',
                 value g' calls label' = value g calls label'
                 /\ value g' failures label' = value g failures label'.
Proof.
  intros Hb. split; [apply import_module_loaded|].
  set (r := Metric Counter rejections (py "Rejected calls (circuit open)")
                   [py "name"]).
  set (c := Metric Counter calls (py "Total calls through circuit breaker")
                   [py "name"]).
  set (f := Metric Counter failures (py "Failed calls through circuit breaker")
                   [py "name"]).
  assert (bound loaded !! rejections = Some r) as Hr by (vm_compute; reflexivity).
  assert (bound loaded !! calls = Some c) as Hc by (vm_compute; reflexivity).
  assert (bound loaded !! failures = Some f) as Hf by (vm_compute; reflexivity).
  exists r, c, f.
  split; [exact Hr|]. split; [exact Hc|]. split; [exact Hf|].
  do 3 (split; [reflexivity|]).
  split; [apply apart_by_series; [vm_compute; reflexivity|discriminate]|].
  split; [apply apart_by_series; [vm_compute; reflexivity|discriminate]|].
  rewrite <- Hb in Hr, Hc, Hf.
  destruct (value_inc_same g rejections r label Hr) as (g' & Hinc & Hv).
  exists g', (default 0 (samples g !! sample_of r label)).
  split; [done|]. split; [unfold value; by rewrite Hr|]. split; [done|].
  intros label'. split.
  - eapply value_inc_other; [exact Hr|exact Hc| |exact Hinc].
    apply sample_of_ne. vm_compute. discriminate.
  - eapply value_inc_other; [exact Hr|exact Hf| |exact Hinc].
    apply sample_of_ne. vm_compute. discriminate.
Qed.

Lemma C7_witness :
  import_module empty_globals = (Ok tt, loaded)
  /\ exists r c f,
       bound loaded !! rejections = Some r
       /\ bound loaded !! calls = Some c
       /\ bound loaded !! failures = Some f
       /\ (kind_of r, metric_name r) = (Counter, rejections)
       /\ (kind_of c, metric_name c) = (Counter, calls)
       /\ (kind_of f, metric_name f) = (Counter, failures)
       /\ apart r c /\ apart r f
       /\ exists g' v,
            inc rejections (py "embedding") loaded = (Ok tt, g')
            /\ value loaded rejections (py "embedding") = Some v
            /\ value g' rejections (py "embedding") = Some (v + 1)
            /\ forall label',
                 value g' calls label' = value loaded calls label'
                 /\ value g' failures label' = value loaded failures label'.
Proof. apply (C7_rejections_counted_apart loaded (py "embedding")). reflexivity. Defined.

End MetricsFacts.

(* ===================================================================== *)
(** ** What a group of digits captures *)
(* ===================================================================== *)

Module ReGroupFacts.
Import Re ReSpec.

Section Through.
Variable fl : flags.

(** A match of an atom, however quantified, goes on with the
    continuation in the capture state it was entered with. *)
Lemma one_through a k st s res :
  one fl a k st s = Some res -> exists s', k st s' = Some res.
Proof.
  destruct s as [|c s]; simpl; [done|].
  destruct (accepts fl a c); [|done]. intros H. by exists s.
Qed.

Lemma greedy_through a k st s res :
  greedy fl a k st s = Some res -> exists s', k st s' = Some res.
Proof.
  induction s as [|c s IH]; simpl.
  - intros H. by exists [].
  - destruct (accepts fl a c); [|intros H; by exists (c :: s)].
    destruct (greedy fl a k st s) as [r|]; [|intros H; by exists (c :: s)].
    intros [= <-]. by apply IH.
Qed.

Lemma lazy_through a k st s res :
  lazy fl a k st s = Some res -> exists s', k st s' = Some res.
Proof.
  induction s as [|c s IH]; simpl.
  - destruct (k st []) as [r|] eqn:Hk; [|done]. intros [= <-]. by exists [].
  - destruct (k st (c :: s)) as [r|] eqn:Hk.
    + intros [= <-]. by exists (c :: s).
    + destruct (accepts fl a c); [apply IH|done].
Qed.

Lemma match_here_through pre rest st s res :
  Forall (fun i => exists a q, i = It a q) pre ->
  match_here fl (pre ++ rest) st s = Some res ->
  exists s', match_here fl rest st s' = Some res.
Proof.
  intros Hpre. revert s. induction Hpre as [|i pre (a & q & ->) _ IH]; intros s.
  { intros H. by exists s. }
  cbn [app match_here]. destruct q.
  - intros (s1 & H)%one_through. by eapply IH.
  - intros (s1 & H)%greedy_through. by eapply IH.
  - intros (s1 & (s2 & H)%greedy_through)%one_through. by eapply IH.
  - intros (s1 & H)%lazy_through. by eapply IH.
  - intros (s1 & (s2 & H)%lazy_through)%one_through. by eapply IH.
Qed.

(** A greedy repetition that ends the pattern takes a run of accepted
    characters and closes the group after it. *)
Lemma greedy_last a st s :
  exists n,
    (n <= length s)%nat
    /\ greedy fl a (match_here fl [Close]) st s
       = Some (close_group st (drop n s), drop n s)
    /\ forallb (accepts fl a) (take n s) = true.
Proof.
  set (k := match_here fl [Close]).
  assert (forall st' s', k st' s' = Some (close_group st' s', s')) as Hk by done.
  induction s as [|c s (n & Hn & Hrun & Hacc)]; cbn [greedy].
  { exists 0%nat. by rewrite Hk. }
  destruct (accepts fl a c) eqn:Hc.
  - rewrite Hrun. exists (S n). cbn [length drop take forallb].
    rewrite Hc, Hacc. split; [lia|done].
  - exists 0%nat. rewrite Hk. split; [cbn [length]; lia|done].
Qed.

Lemma group_of_one_or_more a s st r :
  match_here fl [Open; It a Plus; Close] (None, []) s = Some (st, r) ->
  exists d, st.2 = [d] /\ d <> [] /\ forallb (accepts fl a) d = true.
Proof.
  change (match_here fl [Open; It a Plus; Close] (None, []) s)
    with (one fl a (greedy fl a (match_here fl [Close])) (Some s, []) s).
  destruct s as [|c s]; cbn [one]; [done|].
  destruct (accepts fl a c) eqn:Hc; [|done].
  destruct (greedy_last a (Some (c :: s), []) s) as (n & Hn & -> & Hacc).
  intros [= <- <-]. cbn [close_group app snd].
  exists (c :: take n s). split; [|split; [done|]].
  - rewrite length_drop. cbn [length].
    replace (S (length s) - (length s - n))%nat with (S n) by lia. done.
  - simpl. by rewrite Hc, Hacc.
Qed.

Lemma search_from_groups p i s m :
  search_from fl p i s = Some m ->
  exists s' st r,
    match_here fl p (None, []) s' = Some (st, r) /\ m_groups m = st.2.
Proof.
  revert i. induction s as [|c s IH]; intros i; simpl; unfold match_at.
  - destruct (match_here fl p (None, []) []) as [[[o gs] r]|] eqn:Hm; [|done].
    intros [= <-]. by exists [], (o, gs), r.
  - destruct (match_here fl p (None, []) (c :: s)) as [[[o gs] r]|] eqn:Hm.
    + intros [= <-]. by exists (c :: s), (o, gs), r.
    + apply IH.
Qed.

End Through.

Lemma int_of_digits_total d :
  d <> [] -> forallb is_decimal d = true -> is_Some (int_of_digits d).
Proof.
  intros Hd Hall. unfold int_of_digits.
  assert (forall acc,
            is_Some (foldl (fun acc c =>
                              match acc, decimal_value c with
                              | Some n, Some v => Some (10 * n + v)
                              | _, _ => None
                              end) (Some acc) d)) as Hfold.
  { clear Hd. induction d as [|c d IH]; intros acc; simpl; [done|].
    simpl in Hall. apply andb_prop in Hall as [Hc Hall].
    apply bool_decide_eq_true in Hc as [v ->]. by apply IH. }
  destruct d; [done|]. apply Hfold.
Qed.

End ReGroupFacts.

(* ===================================================================== *)
(** ** The outcomes of the steps *)
(* ===================================================================== *)

Module ScriptOutcomeFacts.
Import Script ScriptSpec ScriptFacts ScriptOutcomes.

Section Spawn.
Context (E : environment).

Lemma subprocess_run_bind {B} argv c (k : completed -> M B) w :
  env_spawn E argv = Ok c ->
  bind (subprocess_run E argv) k w
  = k c (World (fs w) (cwd w) (stdout w) (trace w ++ [ERun argv]) (draws w)).
Proof. intros H. unfold bind, subprocess_run, emit. by rewrite H. Qed.

Lemma subprocess_run_bind_Raise {B} argv e (k : completed -> M B) w :
  env_spawn E argv = Raise e ->
  bind (subprocess_run E argv) k w
  = (Raise e,
     World (fs w) (cwd w) (stdout w) (trace w ++ [ERun argv]) (draws w)).
Proof. intros H. unfold bind, subprocess_run, emit. by rewrite H. Qed.

Lemma chdir_bind_Some {B} p e (k : unit -> M B) w :
  env_chdir E p = Some e -> bind (chdir E p) k w = (Raise e, w).
Proof. intros H. unfold bind, chdir. by rewrite H. Qed.

End Spawn.

Lemma step1_run (E : environment) (w : world) (found : list completed) :
  env_chdir E RAG_API_PATH = None ->
  env_spawn E <$> greps = Ok <$> found ->
  exists out,
    step1_verify_state E w
    = (Ok tt, World (fs w) RAG_API_PATH out
                    (trace w ++ EChdir RAG_API_PATH :: (ERun <$> greps))
                    (draws w)).
Proof.
  intros Hc Hs. destruct found as [|c1 [|c2 [|c3 [|? ?]]]]; try done.
  injection Hs as H1 H2 H3. destruct w as [f cw o t d].
  unfold step1_verify_state, banner. repeat run_step.
  rewrite chdir_bind by done. cbn beta; cbn [fs cwd stdout trace draws].
  repeat run_step.
  erewrite subprocess_run_bind by exact H1.
  cbn beta; cbn [fs cwd stdout trace draws]. repeat run_step.
  erewrite subprocess_run_bind by exact H2.
  cbn beta; cbn [fs cwd stdout trace draws]. repeat run_step.
  erewrite subprocess_run_bind by exact H3.
  cbn beta; cbn [fs cwd stdout trace draws]. repeat run_step.
  eexists. unfold ret. rewrite <- !app_assoc. reflexivity.
Qed.

(** Step 1 only looks.  However it ends, it has changed no file; and
    once in the directory it runs the three [grep] commands in order,
    whatever their exit status, and returns. *)
Theorem step1_only_looks (E : Script.environment) (w : Script.world)
    (found : list Script.completed) :
  fs (step1_verify_state E w).2 = fs w
  /\ (env_chdir E RAG_API_PATH = None ->
      env_spawn E <$> greps = Ok <$> found ->
      exists out,
        step1_verify_state E w
        = (Ok tt, World (fs w) RAG_API_PATH out
                        (trace w ++ EChdir RAG_API_PATH :: (ERun <$> greps))
                        (draws w))).
Proof.
  split.
  - apply map_eq. intros x.
    destruct (confined_step1 E (fun _ => true) (fun _ => True) eq_refl
                (fun _ _ => eq_refl) w) as [Hfs _].
    by apply Hfs.
  - apply step1_run.
Qed.

Lemma step1_only_looks_witness :
  fs (step1_verify_state calm checkout).2 = fs checkout
  /\ exists out,
       step1_verify_state calm checkout
       = (Ok tt, World (fs checkout) RAG_API_PATH out
                       (trace checkout ++ EChdir RAG_API_PATH :: (ERun <$> greps))
                       (draws checkout)).
Proof.
  destruct (step1_only_looks calm checkout
              [Completed 0 [] []; Completed 0 [] []; Completed 0 [] []])
    as [Hfs Hrun].
  split; [exact Hfs|]. apply Hrun; reflexivity.
Defined.

(** When the directory cannot be entered, the main program stops in
    step 1 with the error of [os.chdir]: no command has run and no file
    has been read or written. *)
Theorem main_stops_without_directory (E : Script.environment)
    (w : Script.world) (e : exn) :
  env_chdir E RAG_API_PATH = Some e ->
  exists out,
    main E w = (Raise e, World (fs w) (cwd w) out (trace w) (draws w)).
Proof.
  intros Hc. destruct w as [f cw o t d].
  unfold main, step1_verify_state, banner. repeat run_step.
  rewrite chdir_bind_Some with (e := e) by done.
  eexists. reflexivity.
Qed.

Lemma main_stops_without_directory_witness :
  exists out,
    main no_directory checkout
    = (Raise (no_such_file RAG_API_PATH),
       World (fs checkout) (cwd checkout) out (trace checkout) (draws checkout)).
Proof.
  apply (main_stops_without_directory no_directory checkout). reflexivity.
Defined.

(** *** The patch steps on a file that is there *)

Section Patch.
Context (E : environment).

Lemma step2_present_run w c :
  fs w !! infra_path = Some c ->
  env_open_w E (backup_of infra_path) = None ->
  env_open_w E infra_path = None ->
  exists out evs,
    step2_fix_infra E w
    = (Ok tt,
       World (<[infra_path := INFRA_PY_FIXED]>
              (<[backup_of infra_path := universal_newlines c]> (fs w)))
             (cwd w) out (trace w ++ evs) (draws w)).
Proof.
  intros Hf Hb Ho. destruct w as [f cw o t d]. cbn [fs cwd trace draws] in *.
  unfold step2_fix_infra, banner. fold_backups. repeat run_step.
  rewrite Hf, bool_decide_eq_true_2 by done. use_paths. repeat run_step.
  unfold print. cbn [fs cwd stdout trace draws].
  rewrite !lookup_insert_eq. cbn [from_option app].
  rewrite !insert_insert_eq. do 2 eexists.
  rewrite <- !app_assoc. reflexivity.
Qed.

Lemma step4_present_run w c :
  fs w !! metrics_path = Some c ->
  env_open_w E (backup_of metrics_path) = None ->
  env_open_w E metrics_path = None ->
  exists out evs,
    step4_fix_metrics E w
    = (Ok tt,
       World (<[metrics_path := METRICS_PY_FIXED]>
              (<[backup_of metrics_path := universal_newlines c]> (fs w)))
             (cwd w) out (trace w ++ evs) (draws w)).
Proof.
  intros Hf Hb Ho. destruct w as [f cw o t d]. cbn [fs cwd trace draws] in *.
  unfold step4_fix_metrics, banner. fold_backups. repeat run_step.
  rewrite Hf, bool_decide_eq_true_2 by done. use_paths. repeat run_step.
  unfold print. cbn [fs cwd stdout trace draws].
  rewrite !lookup_insert_eq. cbn [from_option app].
  rewrite !insert_insert_eq. do 2 eexists.
  rewrite <- !app_assoc. reflexivity.
Qed.


Lemma patch_step_backup_fails w p step new c e :
  (p, step, new) ∈ patch_steps E ->
  fs w !! p = Some c ->
  env_open_w E (backup_of p) = Some e ->
  exists out evs,
    step w = (Raise e, World (fs w) (cwd w) out (trace w ++ evs) (draws w))
    /\ file_events p evs = [].
Proof.
  intros Hin Hf Hb. unfold patch_steps in Hin.
  destruct w as [f cw o t d]. cbn [fs cwd trace draws] in *.
  repeat (apply elem_of_cons in Hin as [[= -> -> ->]|Hin]).
  - unfold step2_fix_infra, banner. fold_backups. repeat run_step.
    rewrite Hf, bool_decide_eq_true_2 by done. repeat run_step.
    exists (o ++ [nl ++ times (py "=") 60] ++ [py "STEP 2: Fixing infra.py"]
              ++ [times (py "=") 60]), [].
    rewrite app_nil_r, <- !app_assoc. done.
  - unfold step3_fix_main_get_embedding, banner. fold_backups.
    repeat run_step. do 2 eexists. split; [reflexivity|done].
  - unfold step4_fix_metrics, banner. fold_backups. repeat run_step.
    rewrite Hf, bool_decide_eq_true_2 by done. repeat run_step.
    exists (o ++ [nl ++ times (py "=") 60] ++ [py "STEP 4: Fixing metrics.py"]
              ++ [times (py "=") 60]), [].
    rewrite app_nil_r, <- !app_assoc. done.
  - by apply elem_of_nil in Hin.
Qed.

End Patch.

(** A target whose backup cannot be created is not patched: the step
    raises the error of [open], and no file has been created, emptied or
    written. *)
Theorem no_backup_no_patch (E : Script.environment) (w : Script.world)
    (p : list N) (step : Script.M unit) (new : list N -> list N)
    (c : list N) (e : exn) :
  (p, step, new) ∈ patch_steps E ->
  fs w !! p = Some c ->
  env_open_w E (backup_of p) = Some e ->
  (step w).1 = Raise e
  /\ fs (step w).2 = fs w
  /\ file_events p (trace (step w).2) = file_events p (trace w).
Proof.
  intros Hin Hf Hb.
  destruct (patch_step_backup_fails E w p step new c e Hin Hf Hb)
    as (out & evs & -> & Hev).
  cbn [fst snd fs trace]. split; [done|]. split; [done|].
  by rewrite file_events_app, Hev, app_nil_r.
Qed.

Lemma no_backup_no_patch_witness :
  (step2_fix_infra no_backups checkout).1 = Raise read_only
  /\ fs (step2_fix_infra no_backups checkout).2 = fs checkout
  /\ file_events infra_path (trace (step2_fix_infra no_backups checkout).2)
     = file_events infra_path (trace checkout).
Proof.
  apply (no_backup_no_patch no_backups checkout infra_path
           (step2_fix_infra no_backups) (fun _ => INFRA_PY_FIXED) old_infra).
  - left.
  - vm_compute. reflexivity.
  - vm_compute. reflexivity.
Defined.

(** *** The texts the steps write hold no carriage return *)







(** Within one run of the main program the text a target had at the
    start is never lost but for its line endings: however the run ends,
    the target still holds the text, or its backup holds the text as it
    is read in text mode, with each [CR LF] and each [CR] on its own
    turned into [LF]; for a text without [CR] that is the text itself. *)
Theorem original_survives_one_run (E : Script.environment) (w : Script.world)
    (p c : list N) :
  p ∈ targets ->
  trace w = [] ->
  fs w !! p = Some c ->
  (fs (main E w).2 !! p = Some c
   \/ fs (main E w).2 !! backup_of p = Some (universal_newlines c))
  /\ (13 ∉ c -> universal_newlines c = c).
Proof.
  intros Hp Ht Hc. split; [|apply universal_newlines_same].
  assert (at_phase p c Untouched w) as H0 by (split; [by rewrite Ht|done]).
  assert (tracked p c (main E w).2) as [ph Hph].
  { unfold targets in Hp.
    repeat (apply elem_of_cons in Hp as [->|Hp]);
      [by apply main_tracks_infra|by apply main_tracks_main
      |by apply main_tracks_metrics|by apply elem_of_nil in Hp]. }
  destruct ph; simpl in Hph.
  - left. by destruct Hph.
  - left. by destruct Hph as (_ & ? & _).
  - right. by destruct Hph.
Qed.

(** A run that overwrites the target: the text is in the backup, with
    its line endings changed. *)
Lemma original_survives_one_run_witness :
  fs (main calm dos_checkout).2 !! infra_path = Some INFRA_PY_FIXED
  /\ (fs (main calm dos_checkout).2 !! infra_path = Some dos_text
      \/ fs (main calm dos_checkout).2 !! backup_of infra_path
         = Some (universal_newlines dos_text))
  /\ (13 ∉ dos_text -> universal_newlines dos_text = dos_text).
Proof.
  split; [vm_compute; reflexivity|].
  apply (original_survives_one_run calm dos_checkout infra_path dos_text).
  - left.
  - reflexivity.
  - vm_compute. reflexivity.
Defined.

(** *** Where a run stops *)

Lemma outcome_bind {A B} P Q Q' R (m : M A) (k : A -> M B) :
  outcome P m Q R -> (forall a, outcome Q (k a) Q' R) ->
  outcome P (bind m k) Q' R.
Proof.
  intros Hm Hk w HP. specialize (Hm w HP). unfold bind.
  destruct (m w) as [[a|e] w1]; simpl in *; [by apply Hk|done].
Qed.

Lemma off_file_events p evs :
  forallb (off p) evs = true -> file_events p evs = [].
Proof.
  unfold off, file_events. induction evs as [|e evs IH]; simpl; [done|].
  intros [H1 H2]%andb_prop. rewrite IH by done. by destruct (touches p e).
Qed.

Lemma main_missing_frame {A} w0 (m : M A) :
  confined (off metrics_path) aside m ->
  outcome (main_missing w0) m (main_missing w0) (main_missing w0).
Proof.
  intros Hm w (Hmain & Hmet & Hev).
  destruct (Hm w) as [Hfs (evs & Ht & Hok)].
  assert (main_missing w0 (m w).2) as Hpost.
  { split; [|split].
    - rewrite Hfs; [done|by left].
    - rewrite Hfs; [done|right; by left].
    - by rewrite Ht, file_events_app, (off_file_events _ _ Hok), app_nil_r. }
  by destruct (m w).1.
Qed.

Lemma aside_allows q :
  q <> main_path -> q <> metrics_path -> q <> backup_of metrics_path ->
  allows (off metrics_path) aside q.
Proof.
  intros H1 H2 H3. unfold allows, off, aside, pair_of. simpl.
  rewrite !bool_decide_eq_false_2 by done.
  repeat split; try done. intros [?|[?|?]]; done.
Qed.

Section Stops.
Context (E : environment).

Lemma step3_missing_run w :
  fs w !! main_path = None ->
  exists out,
    step3_fix_main_get_embedding E w
    = (Raise (no_such_file main_path),
       World (fs w) (cwd w) out (trace w) (draws w)).
Proof.
  intros Hf. destruct w as [f cw o t d]. cbn [fs cwd trace draws] in *.
  unfold step3_fix_main_get_embedding, banner. repeat run_step.
  by eexists.
Qed.

Lemma main_missing_outcome w0 :
  outcome (main_missing w0) (main E) (fun _ => False) (main_missing w0).
Proof.
  unfold main. use_paths.
  do 3 (eapply outcome_bind;
        [apply main_missing_frame, confined_print|intros _]).
  eapply outcome_bind.
  { apply main_missing_frame, confined_step1; [done|done]. }
  intros _. eapply outcome_bind.
  { apply main_missing_frame, confined_step2; apply aside_allows; congruence. }
  intros _. eapply outcome_bind with (Q := fun _ => False).
  - intros w (Hmain & Hmet & Hev).
    destruct (step3_missing_run w Hmain) as [out ->]. by cbn [fst snd].
  - intros _ w [].
Qed.

End Stops.

(** Without [main.py] step 3 raises [FileNotFoundError] before it has
    created or written anything, and the main program therefore never
    returns and never gets to [metrics.py], which is neither backed up
    nor rewritten. *)
Theorem missing_main_py_stops_the_run (E : Script.environment)
    (w : Script.world) :
  fs w !! main_path = None ->
  (exists out,
     step3_fix_main_get_embedding E w
     = (Raise (no_such_file main_path),
        World (fs w) (cwd w) out (trace w) (draws w)))
  /\ (exists e, (main E w).1 = Raise e)
  /\ fs (main E w).2 !! metrics_path = fs w !! metrics_path
  /\ file_events metrics_path (trace (main E w).2)
     = file_events metrics_path (trace w).
Proof.
  intros Hf. split; [by apply step3_missing_run|].
  assert (main_missing w w) as H0 by done.
  pose proof (main_missing_outcome E w w H0) as H.
  destruct (main E w) as [[a|e] w']; cbn [fst snd] in *; [done|].
  destruct H as (_ & Hmet & Hev). split; [by exists e|done].
Qed.

Lemma missing_main_py_stops_the_run_witness :
  (exists out,
     step3_fix_main_get_embedding calm
       (World ∅ (py "/") [] [] 0)
     = (Raise (no_such_file main_path),
        World ∅ (py "/") out [] 0))
  /\ (exists e, (main calm (World ∅ (py "/") [] [] 0)).1 = Raise e)
  /\ fs (main calm (World ∅ (py "/") [] [] 0)).2 !! metrics_path
     = (∅ : gmap (list N) (list N)) !! metrics_path
  /\ file_events metrics_path (trace (main calm (World ∅ (py "/") [] [] 0)).2)
     = file_events metrics_path [].
Proof.
  apply (missing_main_py_stops_the_run calm (World ∅ (py "/") [] [] 0)).
  reflexivity.
Defined.

(** *** The verdict of step 5 *)

(** Once in the directory, step 5 returns [False] when [fly deploy]
    exits with another status than 0, and does not look at the service
    then; with status 0 it runs [curl] on the health endpoint and
    returns [True] whatever [curl] exits with. *)
Theorem step5_verdict (E : Script.environment) (w : Script.world)
    (deployed : Script.completed) :
  env_chdir E RAG_API_PATH = None ->
  env_spawn E fly_deploy = Ok deployed ->
  (returncode deployed <> 0%Z ->
   (step5_deploy E w).1 = Ok false
   /\ trace (step5_deploy E w).2
      = trace w ++ [EChdir RAG_API_PATH; ERun fly_deploy])
  /\ (returncode deployed = 0%Z ->
      forall health, env_spawn E curl_healthz = Ok health ->
      (step5_deploy E w).1 = Ok true
      /\ trace (step5_deploy E w).2
         = trace w ++ [EChdir RAG_API_PATH; ERun fly_deploy; ERun curl_healthz]).
Proof.
  intros Hc Hd. destruct w as [f cw o t d]. cbn [trace].
  split.
  - intros Hrc. unfold step5_deploy, banner. repeat run_step.
    rewrite chdir_bind by done. cbn beta; cbn [fs cwd stdout trace draws].
    repeat run_step. erewrite subprocess_run_bind by exact Hd.
    cbn beta; cbn [fs cwd stdout trace draws]. repeat run_step.
    rewrite bool_decide_eq_true_2 by done. repeat run_step.
    cbn [ret fst snd trace]. by rewrite <- !app_assoc.
  - intros Hrc health Hh. unfold step5_deploy, banner. repeat run_step.
    rewrite chdir_bind by done. cbn beta; cbn [fs cwd stdout trace draws].
    repeat run_step. erewrite subprocess_run_bind by exact Hd.
    cbn beta; cbn [fs cwd stdout trace draws]. repeat run_step.
    rewrite bool_decide_eq_false_2 by (intros Hne; by apply Hne).
    repeat run_step. fold curl_healthz.
    erewrite subprocess_run_bind by exact Hh.
    cbn beta; cbn [fs cwd stdout trace draws]. repeat run_step.
    cbn [ret fst snd trace]. by rewrite <- !app_assoc.
Qed.

Lemma step5_verdict_witness :
  (returncode (Completed 1 [] (py "no access")) <> 0%Z ->
   (step5_deploy deploy_fails checkout).1 = Ok false
   /\ trace (step5_deploy deploy_fails checkout).2
      = trace checkout ++ [EChdir RAG_API_PATH; ERun fly_deploy])
  /\ (returncode (Completed 1 [] (py "no access")) = 0%Z ->
      forall health, env_spawn deploy_fails curl_healthz = Ok health ->
      (step5_deploy deploy_fails checkout).1 = Ok true
      /\ trace (step5_deploy deploy_fails checkout).2
         = trace checkout
           ++ [EChdir RAG_API_PATH; ERun fly_deploy; ERun curl_healthz]).
Proof.
  apply (step5_verdict deploy_fails checkout (Completed 1 [] (py "no access"))).
  - reflexivity.
  - vm_compute. reflexivity.
Defined.

(** *** A run in which nothing fails *)

Lemma bind_Ok {A B} (m : M A) (k : A -> M B) w a w' :
  m w = (Ok a, w') -> bind m k w = k a w'.
Proof. intros H. unfold bind. by rewrite H. Qed.

(** With the three files in place, the directory entered, the commands
    of step 1 started and the six files opened without an error, the
    main program returns, and all it has changed in the file system is
    the three files, which hold the new texts, and their three backups,
    which hold the old ones as they are read in text mode, with each
    [CR LF] and each [CR] on its own turned into [LF].  The new
    [main.py] is made from the old one as it is read. *)
Theorem main_changes_six_files (E : Script.environment) (w : Script.world)
    (found : list Script.completed) (ci cm ct : list N) :
  env_chdir E RAG_API_PATH = None ->
  env_spawn E <$> greps = Ok <$> found ->
  Forall (fun p => env_open_w E p = None /\ env_open_w E (backup_of p) = None)
         targets ->
  fs w !! infra_path = Some ci ->
  fs w !! main_path = Some cm ->
  fs w !! metrics_path = Some ct ->
  exists out evs,
    main E w
    = (Ok tt,
       World (<[metrics_path := METRICS_PY_FIXED]>
              (<[backup_of metrics_path := universal_newlines ct]>
               (<[main_path := update_version
                                 (replaced_text (universal_newlines cm))]>
                (<[backup_of main_path := universal_newlines cm]>
                 (<[infra_path := INFRA_PY_FIXED]>
                  (<[backup_of infra_path := universal_newlines ci]>
                   (fs w)))))))
             RAG_API_PATH out (trace w ++ evs) (draws w)).
Proof.
  intros Hc Hs Hopen Hi Hm Ht.
  apply Forall_cons in Hopen as [[Hoi Hobi] Hopen].
  apply Forall_cons in Hopen as [[Hom Hobm] Hopen].
  apply Forall_cons in Hopen as [[Hot Hobt] _].
  destruct w as [f cw o t d]. cbn [fs cwd trace draws] in *.
  use_paths. unfold main. repeat run_step.
  match goal with
  | |- context [bind (step1_verify_state E) _ ?W] =>
      destruct (step1_run E W found Hc Hs) as [o1 Hrun1]
  end.
  rewrite (bind_Ok _ _ _ _ _ Hrun1). cbn [fs cwd trace draws].
  match goal with
  | |- context [bind (step2_fix_infra E) _ ?W] =>
      destruct (step2_present_run E W ci Hi Hobi Hoi) as (o2 & ev2 & Hrun2)
  end.
  rewrite (bind_Ok _ _ _ _ _ Hrun2). cbn [fs cwd trace draws].
  match goal with
  | |- context [bind (step3_fix_main_get_embedding E) _ ?W] =>
      assert (fs W !! main_path = Some cm) as Hm'
        by (cbn [fs]; by rewrite !lookup_insert_ne by congruence);
      pose proof (step3_run E W cm Hm' Hobm Hom) as Hrun3
  end.
  rewrite (bind_Ok _ _ _ _ _ Hrun3). cbn [fs cwd stdout trace draws].
  match goal with
  | |- context [bind (step4_fix_metrics E) _ ?W] =>
      assert (fs W !! metrics_path = Some ct) as Ht'
        by (cbn [fs]; by rewrite !lookup_insert_ne by congruence);
      destruct (step4_present_run E W ct Ht' Hobt Hot) as (o4 & ev4 & Hrun4)
  end.
  rewrite (bind_Ok _ _ _ _ _ Hrun4). cbn [fs cwd stdout trace draws].
  repeat run_step. unfold print. cbn [fs cwd stdout trace draws].
  do 2 eexists. rewrite <- !app_assoc. reflexivity.
Qed.

Lemma main_changes_six_files_witness :
  exists out evs,
    main calm dos_checkout
    = (Ok tt,
       World (<[metrics_path := METRICS_PY_FIXED]>
              (<[backup_of metrics_path := universal_newlines dos_text]>
               (<[main_path := update_version
                                 (replaced_text (universal_newlines dos_text))]>
                (<[backup_of main_path := universal_newlines dos_text]>
                 (<[infra_path := INFRA_PY_FIXED]>
                  (<[backup_of infra_path := universal_newlines dos_text]>
                   (fs dos_checkout)))))))
             RAG_API_PATH out (trace dos_checkout ++ evs) (draws dos_checkout)).
Proof.
  apply (main_changes_six_files calm dos_checkout
           [Completed 0 [] []; Completed 0 [] []; Completed 0 [] []]).
  - reflexivity.
  - reflexivity.
  - repeat constructor.
  - vm_compute. reflexivity.
  - vm_compute. reflexivity.
  - vm_compute. reflexivity.
Defined.

(** *** The requests and the verdict of step 6 *)

Lemma calls_pattern_group :
  exists pre,
    calls_pattern = pre ++ [Re.Open; Re.It Re.Digit Re.Plus; Re.Close]
    /\ Forall (fun i => exists a q, i = Re.It a q) pre.
Proof.
  exists (take (length calls_pattern - 3) calls_pattern). split.
  - vm_compute. reflexivity.
  - vm_compute. repeat (constructor; [by do 2 eexists|]). constructor.
Qed.

(** The count step 6 looks for is always a number. *)
Lemma calls_count_is_number body m :
  Re.search Re.no_flags calls_pattern body = Some m ->
  is_Some (int_of_digits (default [] (Re.m_groups m !! 0%nat))).
Proof.
  intros Hs. destruct calls_pattern_group as (pre & Hpat & Hpre).
  apply ReGroupFacts.search_from_groups in Hs as (s' & st & r & Hm & Hg).
  rewrite Hpat in Hm.
  apply (ReGroupFacts.match_here_through _ _ _ _ _ _ Hpre) in Hm as (s1 & Hm).
  apply ReGroupFacts.group_of_one_or_more in Hm as (d & Hd & Hne & Hall).
  rewrite Hg, Hd. cbn [lookup list_lookup default from_option].
  by apply ReGroupFacts.int_of_digits_total.
Qed.

Section Verify.
Context (E : environment) (API_KEY : list N).

Lemma urlopen_bind {B} r body (k : list N -> M B) w :
  env_urlopen E r = Ok body ->
  bind (urlopen E r) k w
  = k body (World (fs w) (cwd w) (stdout w) (trace w ++ [EUrlopen r]) (draws w)).
Proof. intros H. unfold bind, urlopen, emit. by rewrite H. Qed.

Lemma urlopen_bind_Raise {B} r e (k : list N -> M B) w :
  env_urlopen E r = Raise e ->
  bind (urlopen E r) k w
  = (Raise e,
     World (fs w) (cwd w) (stdout w) (trace w ++ [EUrlopen r]) (draws w)).
Proof. intros H. unfold bind, urlopen, emit. by rewrite H. Qed.

(** A query is sent and its failure, if any, printed. *)
Lemma query_run i w :
  fails_softly E ->
  exists msg,
    query E API_KEY i w
    = (Ok tt,
       World (fs w) (cwd w) (stdout w ++ [msg])
             (trace w ++ [EUrlopen (query_request API_KEY (draw E (draws w)))])
             (S (draws w))).
Proof.
  intros Hsoft. unfold query. rewrite randint_bind.
  fold (draw E (draws w)). fold (query_request API_KEY (draw E (draws w))).
  unfold try_except, try_with.
  destruct (env_urlopen E (query_request API_KEY (draw E (draws w))))
    as [body|e] eqn:Hu.
  - erewrite urlopen_bind by exact Hu. by eexists.
  - erewrite urlopen_bind_Raise by exact Hu. cbn [handler_for].
    rewrite (Hsoft _ _ Hu). by eexists.
Qed.

Lemma queries_run n : forall a w,
  fails_softly E ->
  exists out,
    for_ (seq a n) (query E API_KEY) w
    = (Ok tt,
       World (fs w) (cwd w) out
             (trace w
              ++ ((fun j => EUrlopen (query_request API_KEY
                                        (draw E (draws w + j))))
                    <$> seq 0 n))
             (draws w + n)).
Proof.
  induction n as [|n IH]; intros a w Hsoft; cbn [seq for_].
  { exists (stdout w). unfold ret. cbn [fmap list_fmap].
    rewrite app_nil_r, Nat.add_0_r. by destruct w. }
  destruct (query_run a w Hsoft) as [msg Hq].
  rewrite (bind_Ok _ _ _ _ _ Hq).
  match goal with
  | |- context [for_ (seq (S a) n) _ ?W] =>
      destruct (IH (S a) W Hsoft) as [out ->]
  end.
  cbn [fs cwd stdout trace draws].
  exists out. f_equal. f_equal; [|lia].
  rewrite <- app_assoc. f_equal.
  change (seq 0 (S n)) with (0%nat :: seq 1 n).
  rewrite <- fmap_S_seq, fmap_cons, <- list_fmap_compose, Nat.add_0_r.
  cbn [app]. f_equal.
  apply list_fmap_ext. intros i j _. cbn. do 3 f_equal. lia.
Qed.

Lemma lines_run (ls : list (list N)) w :
  exists out,
    for_ ls (fun line =>
               if contains (py "voiceroi_circuit_calls_total") line
                  || contains (py "circuit_breaker_calls_total") line
               then print (py "  " ++ line)
               else ret tt) w
    = (Ok tt, World (fs w) (cwd w) out (trace w) (draws w)).
Proof.
  revert w. induction ls as [|l ls IH]; intros w; cbn [for_].
  { exists (stdout w). by destruct w. }
  destruct (_ || _).
  - rewrite print_bind. destruct (IH (World (fs w) (cwd w)
      (stdout w ++ [py "  " ++ l]) (trace w) (draws w))) as [out ->].
    by exists out.
  - rewrite ret_bind. apply IH.
Qed.

Lemma step6_run w :
  fails_softly E ->
  exists out1,
    let sent :=
      World (fs w) (cwd w) out1
            (trace w
             ++ ((fun j => EUrlopen (query_request API_KEY
                                       (draw E (draws w + j))))
                   <$> seq 0 5)
             ++ [EUrlopen metrics_request])
            (draws w + 5) in
    match env_urlopen E metrics_request with
    | Raise e => step6_verify E API_KEY w = (Raise e, sent)
    | Ok body =>
        exists out2 b,
          step6_verify E API_KEY w
          = (Ok b, World (fs w) (cwd w) out2 (trace sent) (draws sent))
          /\ (b = true <->
              contains (py "voiceroi_circuit_calls_total{name=~embedding~}")
                       body = true
              /\ exists m n,
                   Re.search Re.no_flags calls_pattern body = Some m
                   /\ int_of_digits (default [] (Re.m_groups m !! 0%nat))
                      = Some n
                   /\ 0 < n)
    end.
Proof.
  intros Hsoft. destruct w as [f cw o t d].
  unfold step6_verify, banner. repeat run_step.
  match goal with
  | |- context [bind (for_ _ _) _ ?W] =>
      destruct (queries_run 5 0 W Hsoft) as [out Hq]
  end.
  rewrite (bind_Ok _ _ _ _ _ Hq). cbn [fs cwd stdout trace draws].
  repeat run_step. fold metrics_request.
  exists (out ++ [nl ++ py "[6.2] Checking metrics..."]).
  destruct (env_urlopen E metrics_request) as [body|e] eqn:Hu.
  2:{ erewrite urlopen_bind_Raise by exact Hu.
      cbn [fs cwd stdout trace draws]. by rewrite <- app_assoc. }
  erewrite urlopen_bind by exact Hu. cbn beta; cbn [fs cwd stdout trace draws].
  match goal with
  | |- context [bind (for_ ?ls _) _ ?W] =>
      destruct (lines_run ls W) as [out' Hl]
  end.
  rewrite (bind_Ok _ _ _ _ _ Hl). cbn [fs cwd stdout trace draws].
  rewrite <- app_assoc.
  destruct (contains _ body) eqn:Hc.
  2:{ unfold warn_and_fail. repeat run_step. do 2 eexists.
      split; [reflexivity|]. split; [done|]. by intros [? _]. }
  destruct (Re.search Re.no_flags calls_pattern body) as [m|] eqn:Hs.
  2:{ unfold warn_and_fail. repeat run_step. do 2 eexists.
      split; [reflexivity|]. split; [done|]. by intros (_ & ? & ? & ? & _). }
  destruct (calls_count_is_number body m Hs) as [n Hn]. rewrite Hn.
  destruct (0 <? n) eqn:Hpos.
  - repeat run_step. do 2 eexists. split; [reflexivity|]. split; [|done].
    intros _. split; [done|]. exists m, n. by apply N.ltb_lt in Hpos.
  - unfold warn_and_fail. repeat run_step. do 2 eexists.
    split; [reflexivity|]. split; [done|].
    intros (_ & m' & n' & [= <-] & Hn' & Hlt).
    rewrite Hn in Hn'. injection Hn' as <-.
    apply N.ltb_ge in Hpos. lia.
Qed.

End Verify.

(** Step 6 sends its five queries and then asks for the metrics, in that
    order and with nothing else in between: a query that fails with an
    [Exception] is reported and the next one is sent, and everything that
    follows the metrics request adds nothing to the trace.  The number in
    each query lies between 10000 and 99999. *)
Theorem step6_sends_five_then_metrics (E : Script.environment)
    (API_KEY : list N) (w : Script.world) :
  fails_softly E ->
  trace (step6_verify E API_KEY w).2
  = trace w
    ++ ((fun j => EUrlopen (query_request API_KEY (draw E (draws w + j))))
          <$> seq 0 5)
    ++ [EUrlopen metrics_request]
  /\ forall j, 10000 <= draw E j <= 99999.
Proof.
  intros Hsoft. split.
  - destruct (step6_run E API_KEY w Hsoft) as [out1 H].
    cbn zeta in H. destruct (env_urlopen E metrics_request) as [body|e].
    + by destruct H as (out2 & b & -> & _).
    + by rewrite H.
  - intros j. unfold draw. change (99999 - 10000 + 1) with 90000.
    assert (env_rand E j mod 90000 < 90000) as Hlt
      by (by apply N.mod_upper_bound).
    revert Hlt. generalize (env_rand E j mod 90000). intros r Hr. lia.
Qed.

Lemma step6_sends_five_then_metrics_witness :
  trace (step6_verify refusing [] checkout).2
  = trace checkout
    ++ ((fun j => EUrlopen (query_request [] (draw refusing (draws checkout + j))))
          <$> seq 0 5)
    ++ [EUrlopen metrics_request]
  /\ forall j, 10000 <= draw refusing j <= 99999.
Proof.
  apply (step6_sends_five_then_metrics refusing [] checkout).
  intros r e. unfold refusing. cbn [env_urlopen].
  destruct (bool_decide _); [|done]. intros [= <-]. reflexivity.
Defined.

(** Step 6 raises only what the metrics request raises.  When that
    request is answered, step 6 returns, and it returns [True] exactly
    when the answer holds the series of the embedding breaker and the
    first count that follows it is above 0: the count is always a run of
    digits, so the conversion to [int] does not fail.  The answer is
    taken to be at most 4300 characters long, the length up to which
    [int] accepts every run of digits. *)
Theorem step6_verdict (E : Script.environment) (API_KEY : list N)
    (w : Script.world) :
  fails_softly E ->
  match env_urlopen E metrics_request with
  | Raise e => (step6_verify E API_KEY w).1 = Raise e
  | Ok body =>
      (length body <= 4300)%nat ->
      exists b,
        (step6_verify E API_KEY w).1 = Ok b
        /\ (b = true <->
            contains (py "voiceroi_circuit_calls_total{name=~embedding~}")
                     body = true
            /\ exists m n,
                 Re.search Re.no_flags calls_pattern body = Some m
                 /\ int_of_digits (default [] (Re.m_groups m !! 0%nat))
                    = Some n
                 /\ 0 < n)
  end.
Proof.
  intros Hsoft. destruct (step6_run E API_KEY w Hsoft) as [out1 H].
  cbn zeta in H. destruct (env_urlopen E metrics_request) as [body|e].
  - intros _. destruct H as (out2 & b & -> & Hb). by exists b.
  - by rewrite H.
Qed.

Lemma step6_verdict_witness :
  exists b,
    (step6_verify refusing [] checkout).1 = Ok b
    /\ (b = true <->
        contains (py "voiceroi_circuit_calls_total{name=~embedding~}")
                 (py "voiceroi_circuit_calls_total{name=~embedding~} 7") = true
        /\ exists m n,
             Re.search Re.no_flags calls_pattern
                       (py "voiceroi_circuit_calls_total{name=~embedding~} 7")
             = Some m
             /\ int_of_digits (default [] (Re.m_groups m !! 0%nat)) = Some n
             /\ 0 < n).
Proof.
  assert (fails_softly refusing) as Hsoft.
  { intros r e. unfold refusing. cbn [env_urlopen].
    destruct (bool_decide _); [|done]. intros [= <-]. reflexivity. }
  pose proof (step6_verdict refusing [] checkout Hsoft) as H.
  change (env_urlopen refusing metrics_request)
    with (Ok (A := list N)
             (py "voiceroi_circuit_calls_total{name=~embedding~} 7")) in H.
  cbv beta iota in H. apply H. vm_compute. lia.
Defined.

End ScriptOutcomeFacts.

(* ===================================================================== *)
(** ** The cases of the installed [infra.py] *)
(* ===================================================================== *)

Module InfraCaseFacts.
Import Infra InfraSpec InfraFacts InfraCases.

(** With no client cached and [REDIS_URL] set, [get_redis_client] asks
    for a client at that URL once.  When the URL is refused the error
    goes to the caller and nothing is cached, so the next call asks
    again; otherwise the client is made with [decode_responses] on and
    both timeouts at 5 seconds, cached and returned. *)
Theorem get_redis_client_first_call {X : Type}
    (from_url_error : list N -> option exn) (p : process (X := X))
    (url : list N) :
  _redis_client p = None ->
  environ p !! py "REDIS_URL" = Some url ->
  url <> [] ->
  get_redis_client from_url_error p
  = match from_url_error url with
    | Some e => (Raise e, having_asked url p)
    | None =>
        let c := MkRedis (made p) url true 5 5 in
        (Ok c, having_made c (having_asked url p))
    end.
Proof.
  intros Hc Hu Hne. unfold get_redis_client. rewrite Hc.
  unfold bind, getenv. cbn [environ]. rewrite Hu.
  destruct url as [|u url]; [done|]. unfold from_url.
  cbn [environ _redis_client openai_client log events made outside].
  destruct (from_url_error (u :: url)).
  - unfold having_asked. by rewrite <- app_assoc.
  - unfold set_redis_client, ret, having_made, having_asked.
    cbn [environ _redis_client openai_client log events made outside].
    by rewrite <- app_assoc.
Qed.

Lemma get_redis_client_first_call_witness :
  get_redis_client refuse_http (fresh (redis_at (py "http://cache")))
  = match refuse_http (py "http://cache") with
    | Some e => (Raise e, having_asked (py "http://cache")
                            (fresh (redis_at (py "http://cache"))))
    | None =>
        let c := MkRedis (made (fresh (redis_at (py "http://cache"))))
                         (py "http://cache") true 5 5 in
        (Ok c, having_made c (having_asked (py "http://cache")
                                (fresh (redis_at (py "http://cache")))))
    end.
Proof.
  apply (get_redis_client_first_call refuse_http
           (fresh (redis_at (py "http://cache"))) (py "http://cache")).
  - reflexivity.
  - vm_compute. reflexivity.
  - vm_compute. discriminate.
Defined.

Section Through.
Context {X : Type}.
Context (breaker_call :
           forall A : Type, breaker_id -> Py.M (process (X := X)) A
                            -> Py.M (process (X := X)) A).


End Through.





(** What [embed_text] logs when the call through the breaker fails is
    decided by the first clause that fits: a [CircuitBreakerOpen] is
    logged as a warning and not also as an error, any other [Exception]
    as an error with its message, and what is not an [Exception] is not
    logged.  The warning quotes the first 40 characters of the text. *)
Theorem embed_text_logs_by_cause {X F : Type}
    (breaker_call :
       forall A : Type, breaker_id -> Py.M (process (X := X)) A
                        -> Py.M (process (X := X)) A)
    (embeddings_create :
       list N -> list N -> Py.M (process (X := X)) (response (F := F)))
    (text : list N) (p p' : process (X := X)) (e : exn) :
  breaker_call _ embedding_breaker (_do_embed embeddings_create text) p
  = (Raise e, p') ->
  embed_text breaker_call embeddings_create text p
  = (Raise e,
     logged (if isinstance e CircuitBreakerOpen then [open_record text]
             else if isinstance e Exception then [failed_record e]
             else []) p').
Proof.
  intros Hcall.
  unfold embed_text, try_with, bind at 1. rewrite Hcall. cbn [handler_for].
  destruct (isinstance e CircuitBreakerOpen); [done|].
  destruct (isinstance e Exception); [done|]. by rewrite logged_nil.
Qed.

Lemma embed_text_logs_by_cause_witness :
  embed_text direct service_down (py "hello") (fresh key_only)
  = (Raise (Exn OtherError (py "Connection error.")),
     logged (if isinstance (Exn OtherError (py "Connection error."))
                           CircuitBreakerOpen
             then [open_record (py "hello")]
             else if isinstance (Exn OtherError (py "Connection error."))
                                Exception
             then [failed_record (Exn OtherError (py "Connection error."))]
             else []) (fresh key_only)).
Proof.
  apply (embed_text_logs_by_cause direct service_down (py "hello")
           (fresh key_only) (fresh key_only)).
  reflexivity.
Defined.

End InfraCaseFacts.
